(** * The c-ares request driver of the gRPC event engine

    A shallow embedding of [src/core/lib/event_engine/ares_driver.cc]:
    the request objects ([GrpcAresRequest] and its hostname, SRV and TXT
    specialisations), the socket-tracking loop, the timers and the
    completion callbacks, followed by the properties the specification
    states about them.

    Conventions.
    - The members of the C++ request object are the fields of [Request];
      every method is a computation in the monad [M], which threads the
      request and stops at a failed [GPR_ASSERT].
    - The stub resolver (c-ares), the poller and the event engine are not
      modelled: what the driver asks of them is appended to the [trace_]
      of the request, what they answer is an argument of the method. The
      closures handed to [EventEngine::Run] wait in [run_queue_] until
      the engine runs them.
    - Integers of the machine are [Z]; text is [string], also for the
      byte buffers of the stub. *)

From Stdlib Require Import ZArith List String Ascii Bool Lia Permutation.
From Stdlib Require Import DecimalString.
Import ListNotations.

Local Open Scope string_scope.
Local Open Scope list_scope.
Local Open Scope Z_scope.

(** ** Status values *)

(** The codes of [absl::StatusCode] the driver and its specification name. *)
Inductive StatusCode : Type :=
| kOk
| kCancelled
| kUnknown
| kInvalidArgument
| kDeadlineExceeded
| kNotFound.

(** An [absl::Status] as the driver builds it: a code, a message, the
    [kTargetAddress] string property and the child statuses. *)
#[warnings="-register-all"]
Inductive Status : Type :=
| MkStatus (code : StatusCode) (message : string)
           (target_address : option string) (children : list Status).

Definition status_code (s : Status) : StatusCode :=
  match s with MkStatus c _ _ _ => c end.

Definition status_message (s : Status) : string :=
  match s with MkStatus _ m _ _ => m end.

Definition status_children (s : Status) : list Status :=
  match s with MkStatus _ _ _ ch => ch end.

Definition status_ok (s : Status) : bool :=
  match status_code s with kOk => true | _ => false end.

Definition OkStatus : Status := MkStatus kOk "" None [].

(** [grpc_core::StatusCreate(code, msg, DEBUG_LOCATION, {})]. *)
Definition StatusCreate (code : StatusCode) (msg : string)
           (children : list Status) : Status :=
  MkStatus code msg None children.

(** Modelled from the spec: the macro [GRPC_ERROR_CREATE] of
    [src/core/lib/iomgr/error.h], which is not among the sources. It
    takes the description alone, so every status it builds has one and
    the same code; the error table of the specification names that code
    where it describes the wrapped stub failures, which the driver builds
    with this macro: [Unknown]. (In gRPC the macro expands to
    [StatusCreate(absl::StatusCode::kUnknown, desc, DEBUG_LOCATION, {})].) *)
Definition GRPC_ERROR_CREATE (desc : string) : Status :=
  StatusCreate kUnknown desc [].

(** Modelled from the spec: [grpc_error_set_str] with the key
    [StatusStrProperty::kTargetAddress] (of [iomgr/error.h], absent)
    attaches the name to the status and leaves its code alone. *)
Definition grpc_error_set_str (s : Status) (v : string) : Status :=
  match s with MkStatus c m _ ch => MkStatus c m (Some v) ch end.

(** Modelled from the spec: [grpc_error_add_child] (of [iomgr/error.h],
    absent) folds a sub-query error into the accumulated one: the child
    becomes the accumulated error when that was ok, and is attached to
    it otherwise. *)
Definition grpc_error_add_child (src child : Status) : Status :=
  if status_ok src then child
  else if status_ok child then src
  else match src with
       | MkStatus c m t ch => MkStatus c m t (ch ++ [child])
       end.

(** [absl::StatusOr<T>]. *)
Inductive StatusOr (A : Type) : Type :=
| SoValue (a : A)
| SoError (s : Status).
Arguments SoValue {A} a.
Arguments SoError {A} s.

Definition so_ok {A} (r : StatusOr A) : bool :=
  match r with SoValue _ => true | SoError _ => false end.

(** ** Socket addresses *)

Definition AF_INET : Z := 2.
Definition AF_INET6 : Z := 10.
Definition ARES_SUCCESS : Z := 0.

(** [htons] on a little-endian host: the 16 low bits with their two bytes
    swapped, so that the byte at the lower address is the high byte. *)
Definition htons (x : Z) : Z :=
  let v := x mod 65536 in
  Z.lor (Z.shiftl (Z.land v 255) 8) (Z.shiftr v 8).

(** The two bytes of a 16-bit field as they lie in memory on that host. *)
Definition field_bytes (v : Z) : Z * Z := (Z.land v 255, Z.shiftr v 8).

(** An [EventEngine::ResolvedAddress] holding a [sockaddr_in] or a
    [sockaddr_in6]: [sin_port] stands for [sin_port] and [sin6_port]. *)
Record ResolvedAddress : Type := MkAddress {
  sa_family : Z;
  sin_port : Z;
  sin_addr : list Z;
  sa_size : Z
}.

(** The [struct hostent] the stub hands to the hostname callback:
    [h_addr_list] without its terminating null pointer. *)
Record hostent : Type := MkHostent {
  h_addrtype : Z;
  h_addr_list : list (list Z)
}.

(** One turn of the loop of [OnHostbynameDoneLocked]: the [switch] on
    [h_addrtype] has the two cases and no default. *)
Definition hostent_address (h_addrtype port : Z) (raw : list Z)
  : list ResolvedAddress :=
  if h_addrtype =? AF_INET6 then
    [ {| sa_family := h_addrtype mod 256;
         sin_port := htons port;
         sin_addr := firstn 16 raw;
         sa_size := 28 |} ]
  else if h_addrtype =? AF_INET then
    [ {| sa_family := h_addrtype mod 256;
         sin_port := htons port;
         sin_addr := firstn 4 raw;
         sa_size := 16 |} ]
  else [].

Definition hostent_addresses (port : Z) (h : hostent) : list ResolvedAddress :=
  flat_map (hostent_address (h_addrtype h) port) (h_addr_list h).

(** An entry of [EventEngine::DNSResolver::SRVRecord] and of the stub's
    [struct ares_srv_reply] list. *)
Record SRVRecord : Type := MkSRV {
  srv_host : string;
  srv_port : Z;
  srv_priority : Z;
  srv_weight : Z
}.

(** ** TXT records *)

(** A node of the stub's [struct ares_txt_ext] list. [txt] is the buffer
    the stub allocated, [length] the number of text bytes in it. *)
Module ares_txt_ext.

Record t : Type := mk {
  txt : string;
  length : Z;
  record_start : bool
}.

End ares_txt_ext.

Definition g_service_config_attribute_prefix : string := "grpc_config=".
Definition g_prefix_len : Z :=
  Z.of_nat (String.length g_service_config_attribute_prefix).

Definition NUL : ascii := Ascii.zero.
Definition SIZE_MAX : Z := 2 ^ 64 - 1.

(** [memcmp(a, b, n) == 0], byte by byte up to the first difference;
    [None] when a buffer ends before [n] bytes were found equal or a
    difference was met (a read past the allocation). *)
Fixpoint memcmp_eq (n : nat) (a b : string) : option bool :=
  match n with
  | O => Some true
  | S n' =>
    match a, b with
    | String x a', String y b' =>
      if Ascii.eqb x y then memcmp_eq n' a' b' else Some false
    | _, _ => None
    end
  end.

(** [out.append(buf + off, n)] with [n] a [size_t]; [None] when the
    bytes asked for do not lie within the buffer. *)
Definition append_bytes (out buf : string) (off n : Z) : option string :=
  if (0 <=? n) && (off + n <=? Z.of_nat (String.length buf)) then
    Some (out ++ substring (Z.to_nat off) (Z.to_nat n) buf)%string
  else None.

(** The first loop of [OnTXTDoneLocked]: the list from the first node
    that starts a record and begins with the prefix, or the empty list. *)
Fixpoint find_service_config (reply : list ares_txt_ext.t)
  : option (list ares_txt_ext.t) :=
  match reply with
  | [] => Some []
  | r :: next =>
    if ares_txt_ext.record_start r then
      match memcmp_eq (Z.to_nat g_prefix_len) (ares_txt_ext.txt r)
                      g_service_config_attribute_prefix with
      | None => None
      | Some true => Some (r :: next)
      | Some false => find_service_config next
      end
    else find_service_config next
  end.

(** The second loop: the nodes after the found one, up to the next one
    that starts a record. *)
Fixpoint append_continuation (out : string) (l : list ares_txt_ext.t)
  : option string :=
  match l with
  | [] => Some out
  | r :: next =>
    if ares_txt_ext.record_start r then Some out
    else
      match append_bytes out (ares_txt_ext.txt r) 0 (ares_txt_ext.length r) with
      | None => None
      | Some out' => append_continuation out' next
      end
  end.

(** [size_t service_config_len = result->length - g_prefix_len]. *)
Definition service_config_len (r : ares_txt_ext.t) : Z :=
  (ares_txt_ext.length r - g_prefix_len) mod (SIZE_MAX + 1).

(** The string [OnTXTDoneLocked] passes to [OnResolve] after a
    successful parse; [None] when a read leaves a stub buffer. *)
Definition service_config_json_out (reply : list ares_txt_ext.t)
  : option string :=
  match find_service_config reply with
  | None => None
  | Some [] => Some ""
  | Some (r :: next) =>
    match append_bytes "" (ares_txt_ext.txt r) g_prefix_len
                       (service_config_len r) with
    | None => None
    | Some out => append_continuation out next
    end
  end.

(** What the stub promises of a node: [length] bytes of text followed by
    a terminating NUL, all inside the buffer. *)
Definition txt_wf (r : ares_txt_ext.t) : Prop :=
  0 <= ares_txt_ext.length r <= SIZE_MAX /\
  String.get (Z.to_nat (ares_txt_ext.length r)) (ares_txt_ext.txt r) = Some NUL.

(** ** The request object and its surroundings *)

Definition TaskHandle : Type := nat.
Definition ARES_SOCKET_BAD : Z := -1.
Definition ARES_GETSOCK_MAXNUM : nat := 16.

(** A [GrpcAresRequest::FdNode]. [node_id] stands for the address of the
    node, [as_] for its member [as]; the polled fd it owns wraps that
    same socket. *)
Record FdNode : Type := MkFdNode {
  node_id : nat;
  as_ : Z;
  readable_registered : bool;
  writable_registered : bool;
  already_shutdown : bool
}.

Definition set_readable_registered (v : bool) (n : FdNode) : FdNode :=
  MkFdNode (node_id n) (as_ n) v (writable_registered n) (already_shutdown n).

Definition set_writable_registered (v : bool) (n : FdNode) : FdNode :=
  MkFdNode (node_id n) (as_ n) (readable_registered n) v (already_shutdown n).

Definition set_already_shutdown (v : bool) (n : FdNode) : FdNode :=
  MkFdNode (node_id n) (as_ n) (readable_registered n)
           (writable_registered n) v.

Inductive Timer : Type := QueryTimeout | BackupPoll.

(** What the driver asks of the stub, of the polled fds and of the event
    engine, in the order it asks. A node argument is the node as it stood
    at the call. [ares_gethostbyname] also records the value
    [pending_queries_] had when the stub was entered, which is the value
    an inline completion callback finds. *)
Inductive Call : Type :=
| ares_init_options
| ares_destroy
| ares_set_servers_ports (family : Z) (addr : list Z) (tcp_port udp_port : Z)
| ares_gethostbyname (name : string) (family : Z) (qtype : string)
                     (pending : Z)
| ares_query (name : string)
| ares_search (name : string)
| ares_getsock
| ares_process_fd (read_fd write_fd : Z)
| ares_cancel
| NewGrpcPolledFdLocked (s : Z)
| RegisterForOnReadableLocked (n : FdNode)
| RegisterForOnWriteableLocked (n : FdNode)
| ShutdownLocked (n : FdNode) (status : Status)
| DeleteFdNode (n : FdNode)
| RunAfter (t : Timer) (h : TaskHandle)
| EngineCancel (h : TaskHandle).

(** A closure handed to [EventEngine::Run]: the user callback together
    with the value it will be called with. *)
Inductive Closure : Type :=
| on_resolve_hostname (r : StatusOr (list ResolvedAddress))
| on_resolve_srv (r : StatusOr (list SRVRecord))
| on_resolve_txt (r : StatusOr string).

(** The members of [GrpcAresRequest] and of its three subclasses, then
    the surroundings: the closures waiting in the event engine, the
    closures it has run, the calls made so far and the next fresh
    identifier. [on_resolve_] tells whether the member holds the user
    callback, [refs_] is the reference count. *)
Record Request : Type := MkRequest {
  name_ : string;
  default_port_ : string;
  timeout_ : Z;
  host_ : string;
  port_ : Z;
  initialized_ : bool;
  shutting_down_ : bool;
  cancelled_ : bool;
  fd_node_list_ : list FdNode;
  query_timeout_handle_ : option TaskHandle;
  ares_backup_poll_alarm_handle_ : option TaskHandle;
  on_resolve_ : bool;
  refs_ : Z;
  pending_queries_ : Z;
  result_ : list ResolvedAddress;
  error_ : Status;
  service_name_ : string;
  config_name_ : string;
  run_queue_ : list Closure;
  invoked_ : list Closure;
  trace_ : list Call;
  next_id_ : nat
}.

Definition set_host_ (v : string) (r : Request) : Request :=
  MkRequest (name_ r) (default_port_ r) (timeout_ r) v (port_ r)
    (initialized_ r) (shutting_down_ r) (cancelled_ r) (fd_node_list_ r)
    (query_timeout_handle_ r) (ares_backup_poll_alarm_handle_ r)
    (on_resolve_ r) (refs_ r) (pending_queries_ r) (result_ r) (error_ r)
    (service_name_ r) (config_name_ r) (run_queue_ r) (invoked_ r) (trace_
    r) (next_id_ r).

Definition set_port_ (v : Z) (r : Request) : Request :=
  MkRequest (name_ r) (default_port_ r) (timeout_ r) (host_ r) v
    (initialized_ r) (shutting_down_ r) (cancelled_ r) (fd_node_list_ r)
    (query_timeout_handle_ r) (ares_backup_poll_alarm_handle_ r)
    (on_resolve_ r) (refs_ r) (pending_queries_ r) (result_ r) (error_ r)
    (service_name_ r) (config_name_ r) (run_queue_ r) (invoked_ r) (trace_
    r) (next_id_ r).

Definition set_initialized_ (v : bool) (r : Request) : Request :=
  MkRequest (name_ r) (default_port_ r) (timeout_ r) (host_ r) (port_ r) v
    (shutting_down_ r) (cancelled_ r) (fd_node_list_ r)
    (query_timeout_handle_ r) (ares_backup_poll_alarm_handle_ r)
    (on_resolve_ r) (refs_ r) (pending_queries_ r) (result_ r) (error_ r)
    (service_name_ r) (config_name_ r) (run_queue_ r) (invoked_ r) (trace_
    r) (next_id_ r).

Definition set_shutting_down_ (v : bool) (r : Request) : Request :=
  MkRequest (name_ r) (default_port_ r) (timeout_ r) (host_ r) (port_ r)
    (initialized_ r) v (cancelled_ r) (fd_node_list_ r)
    (query_timeout_handle_ r) (ares_backup_poll_alarm_handle_ r)
    (on_resolve_ r) (refs_ r) (pending_queries_ r) (result_ r) (error_ r)
    (service_name_ r) (config_name_ r) (run_queue_ r) (invoked_ r) (trace_
    r) (next_id_ r).

Definition set_cancelled_ (v : bool) (r : Request) : Request :=
  MkRequest (name_ r) (default_port_ r) (timeout_ r) (host_ r) (port_ r)
    (initialized_ r) (shutting_down_ r) v (fd_node_list_ r)
    (query_timeout_handle_ r) (ares_backup_poll_alarm_handle_ r)
    (on_resolve_ r) (refs_ r) (pending_queries_ r) (result_ r) (error_ r)
    (service_name_ r) (config_name_ r) (run_queue_ r) (invoked_ r) (trace_
    r) (next_id_ r).

Definition set_fd_node_list_ (v : list FdNode) (r : Request) : Request :=
  MkRequest (name_ r) (default_port_ r) (timeout_ r) (host_ r) (port_ r)
    (initialized_ r) (shutting_down_ r) (cancelled_ r) v
    (query_timeout_handle_ r) (ares_backup_poll_alarm_handle_ r)
    (on_resolve_ r) (refs_ r) (pending_queries_ r) (result_ r) (error_ r)
    (service_name_ r) (config_name_ r) (run_queue_ r) (invoked_ r) (trace_
    r) (next_id_ r).

Definition set_query_timeout_handle_ (v : option TaskHandle) (r : Request) : Request :=
  MkRequest (name_ r) (default_port_ r) (timeout_ r) (host_ r) (port_ r)
    (initialized_ r) (shutting_down_ r) (cancelled_ r) (fd_node_list_ r) v
    (ares_backup_poll_alarm_handle_ r) (on_resolve_ r) (refs_ r)
    (pending_queries_ r) (result_ r) (error_ r) (service_name_ r)
    (config_name_ r) (run_queue_ r) (invoked_ r) (trace_ r) (next_id_ r).

Definition set_ares_backup_poll_alarm_handle_ (v : option TaskHandle) (r : Request) : Request :=
  MkRequest (name_ r) (default_port_ r) (timeout_ r) (host_ r) (port_ r)
    (initialized_ r) (shutting_down_ r) (cancelled_ r) (fd_node_list_ r)
    (query_timeout_handle_ r) v (on_resolve_ r) (refs_ r)
    (pending_queries_ r) (result_ r) (error_ r) (service_name_ r)
    (config_name_ r) (run_queue_ r) (invoked_ r) (trace_ r) (next_id_ r).

Definition set_on_resolve_ (v : bool) (r : Request) : Request :=
  MkRequest (name_ r) (default_port_ r) (timeout_ r) (host_ r) (port_ r)
    (initialized_ r) (shutting_down_ r) (cancelled_ r) (fd_node_list_ r)
    (query_timeout_handle_ r) (ares_backup_poll_alarm_handle_ r) v (refs_
    r) (pending_queries_ r) (result_ r) (error_ r) (service_name_ r)
    (config_name_ r) (run_queue_ r) (invoked_ r) (trace_ r) (next_id_ r).

Definition set_refs_ (v : Z) (r : Request) : Request :=
  MkRequest (name_ r) (default_port_ r) (timeout_ r) (host_ r) (port_ r)
    (initialized_ r) (shutting_down_ r) (cancelled_ r) (fd_node_list_ r)
    (query_timeout_handle_ r) (ares_backup_poll_alarm_handle_ r)
    (on_resolve_ r) v (pending_queries_ r) (result_ r) (error_ r)
    (service_name_ r) (config_name_ r) (run_queue_ r) (invoked_ r) (trace_
    r) (next_id_ r).

Definition set_pending_queries_ (v : Z) (r : Request) : Request :=
  MkRequest (name_ r) (default_port_ r) (timeout_ r) (host_ r) (port_ r)
    (initialized_ r) (shutting_down_ r) (cancelled_ r) (fd_node_list_ r)
    (query_timeout_handle_ r) (ares_backup_poll_alarm_handle_ r)
    (on_resolve_ r) (refs_ r) v (result_ r) (error_ r) (service_name_ r)
    (config_name_ r) (run_queue_ r) (invoked_ r) (trace_ r) (next_id_ r).

Definition set_result_ (v : list ResolvedAddress) (r : Request) : Request :=
  MkRequest (name_ r) (default_port_ r) (timeout_ r) (host_ r) (port_ r)
    (initialized_ r) (shutting_down_ r) (cancelled_ r) (fd_node_list_ r)
    (query_timeout_handle_ r) (ares_backup_poll_alarm_handle_ r)
    (on_resolve_ r) (refs_ r) (pending_queries_ r) v (error_ r)
    (service_name_ r) (config_name_ r) (run_queue_ r) (invoked_ r) (trace_
    r) (next_id_ r).

Definition set_error_ (v : Status) (r : Request) : Request :=
  MkRequest (name_ r) (default_port_ r) (timeout_ r) (host_ r) (port_ r)
    (initialized_ r) (shutting_down_ r) (cancelled_ r) (fd_node_list_ r)
    (query_timeout_handle_ r) (ares_backup_poll_alarm_handle_ r)
    (on_resolve_ r) (refs_ r) (pending_queries_ r) (result_ r) v
    (service_name_ r) (config_name_ r) (run_queue_ r) (invoked_ r) (trace_
    r) (next_id_ r).

Definition set_service_name_ (v : string) (r : Request) : Request :=
  MkRequest (name_ r) (default_port_ r) (timeout_ r) (host_ r) (port_ r)
    (initialized_ r) (shutting_down_ r) (cancelled_ r) (fd_node_list_ r)
    (query_timeout_handle_ r) (ares_backup_poll_alarm_handle_ r)
    (on_resolve_ r) (refs_ r) (pending_queries_ r) (result_ r) (error_ r)
    v (config_name_ r) (run_queue_ r) (invoked_ r) (trace_ r) (next_id_ r).

Definition set_config_name_ (v : string) (r : Request) : Request :=
  MkRequest (name_ r) (default_port_ r) (timeout_ r) (host_ r) (port_ r)
    (initialized_ r) (shutting_down_ r) (cancelled_ r) (fd_node_list_ r)
    (query_timeout_handle_ r) (ares_backup_poll_alarm_handle_ r)
    (on_resolve_ r) (refs_ r) (pending_queries_ r) (result_ r) (error_ r)
    (service_name_ r) v (run_queue_ r) (invoked_ r) (trace_ r) (next_id_
    r).

Definition set_run_queue_ (v : list Closure) (r : Request) : Request :=
  MkRequest (name_ r) (default_port_ r) (timeout_ r) (host_ r) (port_ r)
    (initialized_ r) (shutting_down_ r) (cancelled_ r) (fd_node_list_ r)
    (query_timeout_handle_ r) (ares_backup_poll_alarm_handle_ r)
    (on_resolve_ r) (refs_ r) (pending_queries_ r) (result_ r) (error_ r)
    (service_name_ r) (config_name_ r) v (invoked_ r) (trace_ r) (next_id_
    r).

Definition set_invoked_ (v : list Closure) (r : Request) : Request :=
  MkRequest (name_ r) (default_port_ r) (timeout_ r) (host_ r) (port_ r)
    (initialized_ r) (shutting_down_ r) (cancelled_ r) (fd_node_list_ r)
    (query_timeout_handle_ r) (ares_backup_poll_alarm_handle_ r)
    (on_resolve_ r) (refs_ r) (pending_queries_ r) (result_ r) (error_ r)
    (service_name_ r) (config_name_ r) (run_queue_ r) v (trace_ r)
    (next_id_ r).

Definition set_trace_ (v : list Call) (r : Request) : Request :=
  MkRequest (name_ r) (default_port_ r) (timeout_ r) (host_ r) (port_ r)
    (initialized_ r) (shutting_down_ r) (cancelled_ r) (fd_node_list_ r)
    (query_timeout_handle_ r) (ares_backup_poll_alarm_handle_ r)
    (on_resolve_ r) (refs_ r) (pending_queries_ r) (result_ r) (error_ r)
    (service_name_ r) (config_name_ r) (run_queue_ r) (invoked_ r) v
    (next_id_ r).

Definition set_next_id_ (v : nat) (r : Request) : Request :=
  MkRequest (name_ r) (default_port_ r) (timeout_ r) (host_ r) (port_ r)
    (initialized_ r) (shutting_down_ r) (cancelled_ r) (fd_node_list_ r)
    (query_timeout_handle_ r) (ares_backup_poll_alarm_handle_ r)
    (on_resolve_ r) (refs_ r) (pending_queries_ r) (result_ r) (error_ r)
    (service_name_ r) (config_name_ r) (run_queue_ r) (invoked_ r) (trace_
    r) v.

(** The request as its constructor leaves it. *)
Definition new_request (name default_port : string) (timeout : Z) : Request :=
  {| name_ := name; default_port_ := default_port; timeout_ := timeout;
     host_ := ""; port_ := 0;
     initialized_ := false; shutting_down_ := false; cancelled_ := false;
     fd_node_list_ := [];
     query_timeout_handle_ := None; ares_backup_poll_alarm_handle_ := None;
     on_resolve_ := false; refs_ := 1;
     pending_queries_ := 0; result_ := []; error_ := OkStatus;
     service_name_ := ""; config_name_ := "";
     run_queue_ := []; invoked_ := []; trace_ := []; next_id_ := O |}.

(** ** The monad of the methods *)

(** A method returns with a value and the request as it left it, or the
    process stops: at a failed [GPR_ASSERT] ([Abort], with the request
    as the assertion found it) or at a read outside a buffer or through
    a dead pointer ([Fault]). *)
Inductive Outcome (A : Type) : Type :=
| Ret (a : A) (r : Request)
| Abort (r : Request)
| Fault.
Arguments Ret {A} a r.
Arguments Abort {A} r.
Arguments Fault {A}.

Definition M (A : Type) : Type := Request -> Outcome A.

Definition ret {A} (a : A) : M A := fun r => Ret a r.

Definition bind {A B} (m : M A) (k : A -> M B) : M B :=
  fun r => match m r with
           | Ret a r' => k a r'
           | Abort r' => Abort r'
           | Fault => Fault
           end.

Declare Scope driver_scope.
Delimit Scope driver_scope with driver.
Notation "x <- m ;; k" := (bind m (fun x => k))
  (at level 61, m at next level, right associativity) : driver_scope.
Notation "m ;; k" := (bind m (fun _ => k))
  (at level 61, right associativity) : driver_scope.
Local Open Scope driver_scope.

Definition gets {A} (f : Request -> A) : M A := fun r => Ret (f r) r.
Definition modify (f : Request -> Request) : M unit := fun r => Ret tt (f r).
Definition abort {A} : M A := fun r => Abort r.
Definition fault {A} : M A := fun _ => Fault.

(** [GPR_ASSERT(b)]: [gpr_assertion_failed] does not return. *)
Definition GPR_ASSERT (b : bool) : M unit := if b then ret tt else abort.

Definition when (b : bool) (m : M unit) : M unit := if b then m else ret tt.

Fixpoint for_each {A} (f : A -> M unit) (l : list A) : M unit :=
  match l with
  | [] => ret tt
  | a :: l' => f a ;; for_each f l'
  end.

Definition emit (c : Call) : M unit :=
  modify (fun r => set_trace_ (trace_ r ++ [c]) r).

Definition fresh : M nat :=
  n <- gets next_id_ ;;
  modify (set_next_id_ (S n)) ;;
  ret n.

(** [Ref()] and [Unref()] of [InternallyRefCounted], as far as the count
    goes. The deletion of the request when the count reaches zero, and
    with it the [ares_destroy] of the destructor, is no part of these
    computations and of the calls they log: a request whose count is
    zero is dead, and no method runs on it. *)
Definition Ref : M unit := modify (fun r => set_refs_ (refs_ r + 1) r).
Definition Unref : M unit := modify (fun r => set_refs_ (refs_ r - 1) r).

(** [~GrpcAresRequest], which runs when the request is deleted: the
    channel is destroyed if the request was initialized. [Unref_last] is
    [Unref()] together with the deletion at zero. *)
Definition destructor : M unit :=
  i <- gets initialized_ ;;
  when i (emit ares_destroy).

Definition Unref_last : M unit :=
  Unref ;;
  n <- gets refs_ ;;
  when (n =? 0) destructor.

(** [event_engine_->Run(closure)]. *)
Definition Run (c : Closure) : M unit :=
  modify (fun r => set_run_queue_ (run_queue_ r ++ [c]) r).

(** ** The collaborators *)

(** The helpers of the repository and of its libraries that the driver
    calls and whose code is not among the sources, as an interface. The
    driver is defined over any implementation of it.
    - [SplitHostPort name] is the pair the out-parameters [host] and
      [port] hold after the call;
    - [SimpleAtoi port] is the value stored into [port_], [None] when
      [absl::SimpleAtoi] returns false;
    - the two parsers give the [grpc_resolved_address] they fill in,
      [None] when they return false;
    - [address_sorting_rfc_6724_sort] sorts the array of sortables, each
      a destination address and the [user_data] index of its origin;
    - [engine_cancel h] is the answer of [EventEngine::Cancel]. *)
Class Collaborators : Type := {
  SplitHostPort : string -> string * string;
  JoinHostPort : string -> Z -> string;
  SimpleAtoi : string -> option Z;
  grpc_parse_ipv4_hostport : string -> option ResolvedAddress;
  grpc_parse_ipv6_hostport : string -> option ResolvedAddress;
  grpc_sockaddr_get_port : ResolvedAddress -> Z;
  address_sorting_rfc_6724_sort :
    list (ResolvedAddress * nat) -> list (ResolvedAddress * nat);
  IsIpv6LoopbackAvailable : bool;
  ares_strerror : Z -> string;
  engine_cancel : TaskHandle -> bool
}.

(** The bytes of a [std::string] up to its first NUL, as [c_str()] shows
    them to a C function. *)
Fixpoint c_str (s : string) : string :=
  match s with
  | EmptyString => EmptyString
  | String c s' => if Ascii.eqb c NUL then EmptyString else String c (c_str s')
  end.

Definition tolower (c : ascii) : ascii :=
  let n := nat_of_ascii c in
  if (65 <=? n)%nat && (n <=? 90)%nat then ascii_of_nat (n + 32) else c.

(** Modelled from the spec: [gpr_stricmp] (of [src/core/lib/gpr/string.cc],
    absent), the case-insensitive comparison of two C strings; the result
    is zero exactly when they are equal up to the case of letters. *)
Fixpoint gpr_stricmp (a b : string) : Z :=
  match a, b with
  | EmptyString, EmptyString => 0
  | EmptyString, String y _ => - Z.of_nat (nat_of_ascii (tolower y))
  | String x _, EmptyString => Z.of_nat (nat_of_ascii (tolower x))
  | String x a', String y b' =>
    if Ascii.eqb (tolower x) (tolower y) then gpr_stricmp a' b'
    else Z.of_nat (nat_of_ascii (tolower x)) - Z.of_nat (nat_of_ascii (tolower y))
  end.

(** What the stub answers to [ares_getsock]: the array of sockets and the
    bit mask. *)
Record GetSock : Type := MkGetSock {
  socks : list Z;
  socks_bitmask : Z
}.

Definition ARES_GETSOCK_READABLE (bits : Z) (num : nat) : bool :=
  negb (Z.land bits (Z.shiftl 1 (Z.of_nat num)) =? 0).

Definition ARES_GETSOCK_WRITABLE (bits : Z) (num : nat) : bool :=
  negb (Z.land bits
          (Z.shiftl 1 (Z.of_nat num + Z.of_nat ARES_GETSOCK_MAXNUM)) =? 0).

(** A completion the stub delivers by calling the callback a query was
    issued with: its status, and what the stub's parser makes of the
    answer buffer where the callback parses it. *)
Inductive Completion : Type :=
| HostbynameDone (qtype : string) (status : Z) (h : hostent)
| SRVQueryDone (status parse_status : Z) (reply : list SRVRecord)
| TXTDone (status parse_status : Z) (reply : list ares_txt_ext.t).

(** ** The fd node list *)

(** [FdNodeList::PopFdNode(as)]: unlinks the first node whose polled fd
    wraps [s]. *)
Fixpoint PopFdNode (l : list FdNode) (s : Z) : option FdNode * list FdNode :=
  match l with
  | [] => (None, [])
  | n :: tl =>
    if as_ n =? s then (Some n, tl)
    else let '(found, tl') := PopFdNode tl s in (found, n :: tl')
  end.

(** Modelled from the spec: [FdNodeList::PushFdNode] (of [ares_driver.h],
    absent) links the node into the ordered list, at its head. *)
Definition PushFdNode (n : FdNode) (l : list FdNode) : list FdNode := n :: l.

(** The write [fd_node->flag = v] through a pointer to a node of
    [fd_node_list_]. *)
Definition update_node (id : nat) (f : FdNode -> FdNode) (l : list FdNode)
  : list FdNode :=
  map (fun n => if Nat.eqb (node_id n) id then f n else n) l.

Definition find_node (id : nat) (l : list FdNode) : option FdNode :=
  find (fun n => Nat.eqb (node_id n) id) l.

(** ** The methods of the request *)

Section Driver.

Context {env : Collaborators}.

(** [GrpcAresRequest::CancelTimers]. *)
Definition CancelTimers : M unit :=
  qt <- gets query_timeout_handle_ ;;
  match qt with
  | Some h =>
    emit (EngineCancel h) ;;
    when (engine_cancel h) Unref ;;
    modify (set_query_timeout_handle_ None)
  | None => ret tt
  end ;;
  bp <- gets ares_backup_poll_alarm_handle_ ;;
  match bp with
  | Some h =>
    emit (EngineCancel h) ;;
    when (engine_cancel h) Unref ;;
    modify (set_ares_backup_poll_alarm_handle_ None)
  | None => ret tt
  end.

(** [GrpcAresRequest::StartTimers]: each timer is armed with a reference
    of its own; a [timeout_] of zero asks for the longest duration, which
    does not change what is armed. *)
Definition StartTimers : M unit :=
  Ref ;;
  h <- fresh ;;
  emit (RunAfter QueryTimeout h) ;;
  modify (set_query_timeout_handle_ (Some h)) ;;
  Ref ;;
  h' <- fresh ;;
  emit (RunAfter BackupPoll h') ;;
  modify (set_ares_backup_poll_alarm_handle_ (Some h')).

(** The body of the loop of [ShutdownPollerHandlesLocked] and of the
    second loop of [Work]: [ShutdownLocked] once per node. *)
Definition shutdown_node (status : Status) (n : FdNode) : M FdNode :=
  if already_shutdown n then ret n
  else emit (ShutdownLocked n status) ;; ret (set_already_shutdown true n).

Fixpoint shutdown_nodes (status : Status) (l : list FdNode) : M (list FdNode) :=
  match l with
  | [] => ret []
  | n :: tl =>
    n' <- shutdown_node status n ;;
    tl' <- shutdown_nodes status tl ;;
    ret (n' :: tl')
  end.

(** [GrpcAresRequest::ShutdownPollerHandlesLocked]. *)
Definition ShutdownPollerHandlesLocked (status : Status) : M unit :=
  l <- gets fd_node_list_ ;;
  l' <- shutdown_nodes status l ;;
  modify (set_fd_node_list_ l').

(** The tail of [SetRequestDNSServer] once the server address is parsed:
    both ports of the one server are the port of the address. *)
Definition set_servers_ports (family : Z) (addr : ResolvedAddress)
           (set_status : Z) : M Status :=
  emit (ares_set_servers_ports family (sin_addr addr)
          (grpc_sockaddr_get_port addr) (grpc_sockaddr_get_port addr)) ;;
  if negb (set_status =? ARES_SUCCESS) then
    ret (GRPC_ERROR_CREATE
           ("c-ares status is not ARES_SUCCESS: "
              ++ ares_strerror set_status)%string)
  else ret OkStatus.

(** [GrpcAresRequest::SetRequestDNSServer]; [set_status] is the answer of
    [ares_set_servers_ports]. *)
Definition SetRequestDNSServer (dns_server : string) (set_status : Z)
  : M Status :=
  if negb (String.eqb dns_server "") then
    match grpc_parse_ipv4_hostport dns_server with
    | Some addr => set_servers_ports AF_INET addr set_status
    | None =>
      match grpc_parse_ipv6_hostport dns_server with
      | Some addr => set_servers_ports AF_INET6 addr set_status
      | None =>
        ret (GRPC_ERROR_CREATE
               ("cannot parse authority " ++ dns_server)%string)
      end
    end
  else ret OkStatus.

(** [GrpcAresRequest::Initialize]; [init_status] is the answer of
    [ares_init_options]. The debug-only assertion on [initialized_] is
    left out. *)
Definition Initialize (dns_server : string) (check_port : bool)
           (init_status set_status : Z) : M Status :=
  name <- gets name_ ;;
  let '(host, port) := SplitHostPort name in
  modify (set_host_ host) ;;
  if String.eqb host "" then
    ret (grpc_error_set_str (GRPC_ERROR_CREATE "unparseable host:port") name)
  else
    default_port <- gets default_port_ ;;
    if check_port && String.eqb port "" && String.eqb default_port "" then
      ret (grpc_error_set_str (GRPC_ERROR_CREATE "no port in name") name)
    else
      let port :=
        if check_port && String.eqb port "" then default_port else port in
      (if String.eqb port "" then ret tt
       else match SimpleAtoi port with
            | Some v => modify (set_port_ v)
            | None => abort
            end) ;;
      emit ares_init_options ;;
      if negb (init_status =? ARES_SUCCESS) then
        ret (GRPC_ERROR_CREATE
               ("Failed to init ares channel. c-ares error: "
                  ++ ares_strerror init_status)%string)
      else
        error <- SetRequestDNSServer dns_server set_status ;;
        if negb (status_ok error) then
          emit ares_destroy ;;
          ret error
        else
          modify (set_initialized_ true) ;;
          ret OkStatus.

(** The three [Create] functions: the constructor, then [Initialize];
    the status of a failure is returned and the request deleted. The SRV
    and TXT requests are built without a default port. *)
Definition Create (name default_port dns_server : string) (check_port : bool)
           (timeout init_status set_status : Z) : Outcome (StatusOr unit) :=
  (status <- Initialize dns_server check_port init_status set_status ;;
   if status_ok status then ret (SoValue tt) else ret (SoError status))
    (new_request name default_port timeout).

Definition GrpcAresHostnameRequest_Create := Create.

Definition GrpcAresSRVRequest_Create (name dns_server : string)
           (check_port : bool) (timeout init_status set_status : Z) :=
  Create name "" dns_server check_port timeout init_status set_status.

Definition GrpcAresTXTRequest_Create (name dns_server : string)
           (check_port : bool) (timeout init_status set_status : Z) :=
  Create name "" dns_server check_port timeout init_status set_status.

(** [GrpcAresRequest::Cancel]. *)
Definition Cancel : M bool :=
  was <- gets shutting_down_ ;;
  modify (set_shutting_down_ true) ;;
  if was then ret false
  else
    modify (set_cancelled_ true) ;;
    CancelTimers ;;
    ShutdownPollerHandlesLocked (StatusCreate kCancelled "Cancel" []) ;;
    ret true.

(** One turn of the first loop of [GrpcAresRequest::Work]. *)
Definition work_slot (gs : GetSock) (new_list : list FdNode) (i : nat)
  : M (list FdNode) :=
  let readable := ARES_GETSOCK_READABLE (socks_bitmask gs) i in
  let writable := ARES_GETSOCK_WRITABLE (socks_bitmask gs) i in
  if readable || writable then
    let s := nth i (socks gs) 0 in
    l <- gets fd_node_list_ ;;
    let '(found, rest) := PopFdNode l s in
    modify (set_fd_node_list_ rest) ;;
    fd_node <- match found with
               | Some n => ret n
               | None =>
                 id <- fresh ;;
                 emit (NewGrpcPolledFdLocked s) ;;
                 ret (MkFdNode id s false false false)
               end ;;
    fd_node <- (if readable && negb (readable_registered fd_node) then
                  Ref ;;
                  emit (RegisterForOnReadableLocked fd_node) ;;
                  ret (set_readable_registered true fd_node)
                else ret fd_node) ;;
    fd_node <- (if writable && negb (writable_registered fd_node) then
                  Ref ;;
                  emit (RegisterForOnWriteableLocked fd_node) ;;
                  ret (set_writable_registered true fd_node)
                else ret fd_node) ;;
    ret (PushFdNode fd_node new_list)
  else ret new_list.

Fixpoint work_slots (gs : GetSock) (new_list : list FdNode) (slots : list nat)
  : M (list FdNode) :=
  match slots with
  | [] => ret new_list
  | i :: rest =>
    new_list' <- work_slot gs new_list i ;;
    work_slots gs new_list' rest
  end.

(** The second loop of [Work], over the nodes the stub no longer names. *)
Fixpoint work_remaining (l : list FdNode) (new_list : list FdNode)
  : M (list FdNode) :=
  match l with
  | [] => ret new_list
  | n :: tl =>
    n' <- shutdown_node OkStatus n ;;
    if negb (readable_registered n') && negb (writable_registered n') then
      emit (DeleteFdNode n') ;;
      work_remaining tl new_list
    else work_remaining tl (PushFdNode n' new_list)
  end.

(** [GrpcAresRequest::Work]; [gs] is the answer of [ares_getsock]. *)
Definition Work (gs : GetSock) : M unit :=
  sd <- gets shutting_down_ ;;
  new_list <- (if sd then ret []
               else emit ares_getsock ;;
                    work_slots gs [] (seq 0 ARES_GETSOCK_MAXNUM)) ;;
  l <- gets fd_node_list_ ;;
  modify (set_fd_node_list_ []) ;;
  new_list <- work_remaining l new_list ;;
  modify (set_fd_node_list_ new_list).

(** The body of [SortResolvedAddresses]: the sortables hold a copy of
    each address and point back to it, the sort works on the array, and
    the addresses are read back through the pointers. *)
Definition sorted_addresses (res : list ResolvedAddress)
  : list ResolvedAddress :=
  let sortables := combine res (seq 0 (List.length res)) in
  let sorted := address_sorting_rfc_6724_sort sortables in
  map (fun s => nth (snd s) res (fst s)) (firstn (List.length res) sorted).

(** [GrpcAresHostnameRequest::SortResolvedAddresses]. *)
Definition SortResolvedAddresses : M unit :=
  res <- gets result_ ;;
  modify (set_result_ (sorted_addresses res)).

(** [GrpcAresHostnameRequest::OnResolve]. The moved-from [result_] is
    left empty. *)
Definition GrpcAresHostnameRequest_OnResolve
           (result : StatusOr (list ResolvedAddress)) : M unit :=
  p <- gets pending_queries_ ;;
  GPR_ASSERT (0 <? p) ;;
  modify (set_pending_queries_ (p - 1)) ;;
  match result with
  | SoValue addrs => modify (fun r => set_result_ (result_ r ++ addrs) r)
  | SoError s =>
    modify (fun r => set_error_ (grpc_error_add_child (error_ r) s) r)
  end ;;
  p <- gets pending_queries_ ;;
  if p =? 0 then
    c <- gets cancelled_ ;;
    if c then Unref
    else
      modify (set_shutting_down_ true) ;;
      CancelTimers ;;
      res <- gets result_ ;;
      match res with
      | _ :: _ =>
        SortResolvedAddresses ;;
        sorted <- gets result_ ;;
        Run (on_resolve_hostname (SoValue sorted)) ;;
        modify (set_on_resolve_ false) ;;
        modify (set_result_ []) ;;
        Unref
      | [] =>
        e <- gets error_ ;;
        GPR_ASSERT (negb (status_ok e)) ;;
        Run (on_resolve_hostname (SoError e)) ;;
        modify (set_on_resolve_ false) ;;
        Unref
      end
  else ret tt.

(** [GrpcAresSRVRequest::OnResolve] and [GrpcAresTXTRequest::OnResolve]. *)
Definition GrpcAresSRVRequest_OnResolve (result : StatusOr (list SRVRecord))
  : M unit :=
  c <- gets cancelled_ ;;
  if c then Unref
  else
    modify (set_shutting_down_ true) ;;
    CancelTimers ;;
    Run (on_resolve_srv result) ;;
    modify (set_on_resolve_ false) ;;
    Unref.

Definition GrpcAresTXTRequest_OnResolve (result : StatusOr string) : M unit :=
  c <- gets cancelled_ ;;
  if c then Unref
  else
    modify (set_shutting_down_ true) ;;
    CancelTimers ;;
    Run (on_resolve_txt result) ;;
    modify (set_on_resolve_ false) ;;
    Unref.

(** [GrpcAresHostnameRequest::OnHostbynameDoneLocked]. *)
Definition OnHostbynameDoneLocked (qtype : string) (status : Z) (h : hostent)
  : M unit :=
  if negb (status =? ARES_SUCCESS) then
    host <- gets host_ ;;
    GrpcAresHostnameRequest_OnResolve
      (SoError (GRPC_ERROR_CREATE
                  ("c-ares status is not ARES_SUCCESS qtype=" ++ qtype
                     ++ " name=" ++ host ++ ": " ++ ares_strerror status)%string))
  else
    port <- gets port_ ;;
    GrpcAresHostnameRequest_OnResolve (SoValue (hostent_addresses port h)).

(** [GrpcAresSRVRequest::OnSRVQueryDoneLocked]. *)
Definition OnSRVQueryDoneLocked (status parse_status : Z)
           (reply : list SRVRecord) : M unit :=
  if negb (status =? ARES_SUCCESS) then
    name <- gets service_name_ ;;
    GrpcAresSRVRequest_OnResolve
      (SoError (GRPC_ERROR_CREATE
                  ("c-ares status is not ARES_SUCCESS qtype=SRV name=" ++ name
                     ++ ": " ++ ares_strerror status)%string))
  else
    GrpcAresSRVRequest_OnResolve
      (SoValue (if parse_status =? ARES_SUCCESS then reply else [])).

(** [GrpcAresTXTRequest::OnTXTDoneLocked]. The text of the error shows
    the name as [c_str()] gives it. *)
Definition OnTXTDoneLocked (status parse_status : Z)
           (reply : list ares_txt_ext.t) : M unit :=
  let parse_status :=
    if status =? ARES_SUCCESS then parse_status else ARES_SUCCESS in
  if negb (status =? ARES_SUCCESS) || negb (parse_status =? ARES_SUCCESS) then
    name <- gets config_name_ ;;
    GrpcAresTXTRequest_OnResolve
      (SoError (GRPC_ERROR_CREATE
                  ("c-ares status is not ARES_SUCCESS qtype=TXT name="
                     ++ c_str name ++ ": " ++ ares_strerror status)%string))
  else
    match service_config_json_out reply with
    | None => fault
    | Some out => GrpcAresTXTRequest_OnResolve (SoValue out)
    end.

(** The stub calls the callback of the query that completes. *)
Definition deliver (c : Completion) : M unit :=
  match c with
  | HostbynameDone qtype status h => OnHostbynameDoneLocked qtype status h
  | SRVQueryDone status parse_status reply =>
    OnSRVQueryDoneLocked status parse_status reply
  | TXTDone status parse_status reply =>
    OnTXTDoneLocked status parse_status reply
  end.

(** The stub delivers the completions of one call into it, in order. *)
Definition deliver_all (cs : list Completion) : M unit := for_each deliver cs.

(** [GrpcAresHostnameRequest::ResolveAsIPLiteralLocked]. *)
Definition ResolveAsIPLiteralLocked : M bool :=
  host <- gets host_ ;;
  port <- gets port_ ;;
  let hostport := JoinHostPort host port in
  match grpc_parse_ipv4_hostport hostport with
  | Some addr =>
    Run (on_resolve_hostname (SoValue [addr])) ;;
    modify (set_on_resolve_ false) ;;
    ret true
  | None =>
    match grpc_parse_ipv6_hostport hostport with
    | Some addr =>
      Run (on_resolve_hostname (SoValue [addr])) ;;
      modify (set_on_resolve_ false) ;;
      ret true
    | None => ret false
    end
  end.

(** A stub call that issues a query may complete that very query before
    it returns, by calling its callback inline. *)
Definition deliver_inline (inline : option Completion) : M unit :=
  match inline with
  | Some c => deliver c
  | None => ret tt
  end.

(** The call [ares_gethostbyname(channel_, host, family, callback, arg)]:
    [inline] is the status and the host entry of an inline completion. *)
Definition gethostbyname (family : Z) (qtype : string)
           (inline : option (Z * hostent)) : M unit :=
  host <- gets host_ ;;
  p <- gets pending_queries_ ;;
  emit (ares_gethostbyname (c_str host) family qtype p) ;;
  deliver_inline
    (option_map (fun c => HostbynameDone qtype (fst c) (snd c)) inline).

(** The rest of [GrpcAresHostnameRequest::Start] when the target is no
    address literal: the lookups. [inline_aaaa] and [inline_a] are what
    the stub completes inside the two calls, [gs] its answer to
    [ares_getsock]. The reference [self] is dropped where the method
    returns. *)
Definition hostname_lookups
           (inline_aaaa inline_a : option (Z * hostent)) (gs : GetSock)
  : M unit :=
  modify (fun r => set_pending_queries_ (pending_queries_ r + 1) r) ;;
  when IsIpv6LoopbackAvailable
       (modify (fun r => set_pending_queries_ (pending_queries_ r + 1) r) ;;
        gethostbyname AF_INET6 "AAAA" inline_aaaa) ;;
  gethostbyname AF_INET "A" inline_a ;;
  sd <- gets shutting_down_ ;;
  when (negb sd) (Work gs ;; StartTimers) ;;
  Unref.

(** [GrpcAresHostnameRequest::Start]. *)
Definition GrpcAresHostnameRequest_Start
           (inline_aaaa inline_a : option (Z * hostent)) (gs : GetSock)
  : M unit :=
  Ref ;;
  i <- gets initialized_ ;;
  GPR_ASSERT i ;;
  modify (set_on_resolve_ true) ;;
  literal <- ResolveAsIPLiteralLocked ;;
  if literal then
    Unref ;;
    Unref
  else hostname_lookups inline_aaaa inline_a gs.

(** The rest of [GrpcAresSRVRequest::Start] when the host is not
    localhost: the query. [inline] is the status, the status of the parse
    and the parsed reply of an inline completion. *)
Definition srv_query (host : string)
           (inline : option (Z * Z * list SRVRecord)) (gs : GetSock) : M unit :=
  modify (set_on_resolve_ true) ;;
  modify (set_service_name_ ("_grpclb._tcp." ++ host)%string) ;;
  emit (ares_query (c_str ("_grpclb._tcp." ++ host)%string)) ;;
  deliver_inline
    (option_map (fun c => SRVQueryDone (fst (fst c)) (snd (fst c)) (snd c))
                inline) ;;
  sd <- gets shutting_down_ ;;
  when (negb sd) (Work gs ;; StartTimers) ;;
  Unref.

(** [GrpcAresSRVRequest::Start]. *)
Definition GrpcAresSRVRequest_Start
           (inline : option (Z * Z * list SRVRecord)) (gs : GetSock) : M unit :=
  Ref ;;
  i <- gets initialized_ ;;
  GPR_ASSERT i ;;
  host <- gets host_ ;;
  if gpr_stricmp (c_str host) "localhost" =? 0 then
    Run (on_resolve_srv
           (SoError (GRPC_ERROR_CREATE
                       "Skip querying for SRV records for localhost target"))) ;;
    Unref ;;
    Unref
  else srv_query host inline gs.

(** The rest of [GrpcAresTXTRequest::Start] when the host is not
    localhost. *)
Definition txt_query (host : string)
           (inline : option (Z * Z * list ares_txt_ext.t)) (gs : GetSock)
  : M unit :=
  modify (set_on_resolve_ true) ;;
  modify (set_config_name_ ("_grpc_config." ++ host)%string) ;;
  emit (ares_search (c_str ("_grpc_config." ++ host)%string)) ;;
  deliver_inline
    (option_map (fun c => TXTDone (fst (fst c)) (snd (fst c)) (snd c))
                inline) ;;
  sd <- gets shutting_down_ ;;
  when (negb sd) (Work gs ;; StartTimers) ;;
  Unref.

(** [GrpcAresTXTRequest::Start]. *)
Definition GrpcAresTXTRequest_Start
           (inline : option (Z * Z * list ares_txt_ext.t)) (gs : GetSock)
  : M unit :=
  Ref ;;
  i <- gets initialized_ ;;
  GPR_ASSERT i ;;
  host <- gets host_ ;;
  if gpr_stricmp (c_str host) "localhost" =? 0 then
    Run (on_resolve_txt
           (SoError (GRPC_ERROR_CREATE
                       "Skip querying for TXT records localhost target"))) ;;
    Unref ;;
    Unref
  else txt_query host inline gs.

(** The node a readiness closure captured; the pointer is dead when the
    node is no longer in the list. *)
Definition captured_node (id : nat) : M FdNode :=
  l <- gets fd_node_list_ ;;
  match find_node id l with
  | Some n => ret n
  | None => fault
  end.

(** The loop [do ares_process_fd(...) while (IsFdStillReadableLocked())]:
    one turn per element of [rounds], and one turn at least. *)
Fixpoint process_readable (s : Z) (first : list Completion)
         (rounds : list (list Completion)) : M unit :=
  emit (ares_process_fd s ARES_SOCKET_BAD) ;;
  deliver_all first ;;
  match rounds with
  | [] => ret tt
  | next :: rounds' => process_readable s next rounds'
  end.

(** [GrpcAresRequest::OnReadable]. [first] and [rounds] are what the stub
    completes in each turn of the loop, or, all of them, in [ares_cancel].
    The closure releases its reference when it has run. *)
Definition OnReadable (id : nat) (status : Status) (first : list Completion)
           (rounds : list (list Completion)) (gs : GetSock) : M unit :=
  fd_node <- captured_node id ;;
  GPR_ASSERT (readable_registered fd_node) ;;
  modify (fun r => set_fd_node_list_
            (update_node id (set_readable_registered false) (fd_node_list_ r)) r) ;;
  sd <- gets shutting_down_ ;;
  (if status_ok status && negb sd then
     process_readable (as_ fd_node) first rounds
   else
     emit ares_cancel ;;
     deliver_all (first ++ List.concat rounds)) ;;
  Work gs ;;
  Unref.

(** [GrpcAresRequest::OnWritable]. *)
Definition OnWritable (id : nat) (status : Status) (stub : list Completion)
           (gs : GetSock) : M unit :=
  fd_node <- captured_node id ;;
  GPR_ASSERT (writable_registered fd_node) ;;
  modify (fun r => set_fd_node_list_
            (update_node id (set_writable_registered false) (fd_node_list_ r)) r) ;;
  sd <- gets shutting_down_ ;;
  (if status_ok status && negb sd then
     emit (ares_process_fd ARES_SOCKET_BAD (as_ fd_node)) ;;
     deliver_all stub
   else
     emit ares_cancel ;;
     deliver_all stub) ;;
  Work gs ;;
  Unref.

(** [GrpcAresRequest::OnQueryTimeout]. *)
Definition OnQueryTimeout : M unit :=
  modify (set_query_timeout_handle_ None) ;;
  sd <- gets shutting_down_ ;;
  when (negb sd)
       (modify (set_shutting_down_ true) ;;
        ShutdownPollerHandlesLocked
          (StatusCreate kDeadlineExceeded "OnQueryTimeout" [])) ;;
  Unref.

(** The loop of [OnAresBackupPollAlarm] over the nodes of the list: the
    stub is entered for each node not yet shut down, and completes the
    head of [rounds] there. *)
Fixpoint backup_poll (l : list FdNode) (rounds : list (list Completion))
  : M unit :=
  match l with
  | [] => ret tt
  | n :: l' =>
    if already_shutdown n then backup_poll l' rounds
    else
      emit (ares_process_fd (as_ n) (as_ n)) ;;
      deliver_all (hd [] rounds) ;;
      backup_poll l' (tl rounds)
  end.

(** [GrpcAresRequest::OnAresBackupPollAlarm]. *)
Definition OnAresBackupPollAlarm (rounds : list (list Completion))
           (gs : GetSock) : M unit :=
  modify (set_ares_backup_poll_alarm_handle_ None) ;;
  sd <- gets shutting_down_ ;;
  when (negb sd)
       (l <- gets fd_node_list_ ;;
        backup_poll l rounds ;;
        sd' <- gets shutting_down_ ;;
        when (negb sd')
             (Ref ;;
              h <- fresh ;;
              emit (RunAfter BackupPoll h) ;;
              modify (set_ares_backup_poll_alarm_handle_ (Some h))) ;;
        Work gs) ;;
  Unref.

(** ** The life of a request *)

(** What can happen to a request once it is started: a call of [Cancel],
    a readiness closure, a timer, or the event engine running the oldest
    closure that waits. *)
Inductive Event : Type :=
| EvCancel
| EvOnReadable (id : nat) (status : Status) (first : list Completion)
               (rounds : list (list Completion)) (gs : GetSock)
| EvOnWritable (id : nat) (status : Status) (stub : list Completion)
               (gs : GetSock)
| EvOnQueryTimeout
| EvOnAresBackupPollAlarm (rounds : list (list Completion)) (gs : GetSock)
| EvEngineRuns.

(** A method runs on a request that is still referenced; on a deleted
    one the call goes through a dead pointer. *)
Definition on_object {A} (m : M A) : M A :=
  fun r => if 0 <? refs_ r then m r else Fault.

(** The engine runs a closure: the user callback is invoked. *)
Definition engine_runs : M unit :=
  q <- gets run_queue_ ;;
  match q with
  | [] => ret tt
  | c :: q' =>
    modify (set_run_queue_ q') ;;
    modify (fun r => set_invoked_ (invoked_ r ++ [c]) r)
  end.

Definition step (e : Event) : M unit :=
  match e with
  | EvCancel => on_object (Cancel ;; ret tt)
  | EvOnReadable id status first rounds gs =>
    on_object (OnReadable id status first rounds gs)
  | EvOnWritable id status stub gs => on_object (OnWritable id status stub gs)
  | EvOnQueryTimeout => on_object OnQueryTimeout
  | EvOnAresBackupPollAlarm rounds gs =>
    on_object (OnAresBackupPollAlarm rounds gs)
  | EvEngineRuns => engine_runs
  end.

Definition run_events (evs : list Event) : M unit := for_each step evs.

(** The three ways to start a request, each with the answers of the
    stub. *)
Inductive StartCall : Type :=
| StartHostname (inline_aaaa inline_a : option (Z * hostent)) (gs : GetSock)
| StartSRV (inline : option (Z * Z * list SRVRecord)) (gs : GetSock)
| StartTXT (inline : option (Z * Z * list ares_txt_ext.t)) (gs : GetSock).

Definition Start (s : StartCall) : M unit :=
  match s with
  | StartHostname inline_aaaa inline_a gs =>
    GrpcAresHostnameRequest_Start inline_aaaa inline_a gs
  | StartSRV inline gs => GrpcAresSRVRequest_Start inline gs
  | StartTXT inline gs => GrpcAresTXTRequest_Start inline gs
  end.

End Driver.

(** ** A reference implementation of the collaborators

    One implementation of the interface, after the behaviour of the
    helpers as the specification describes it; the examples are run on
    it. *)

Definition is_digit (c : ascii) : bool :=
  let n := nat_of_ascii c in (48 <=? n)%nat && (n <=? 57)%nat.

Fixpoint decimal_value (acc : Z) (s : string) : option Z :=
  match s with
  | EmptyString => Some acc
  | String c s' =>
    if is_digit c then
      decimal_value (10 * acc + Z.of_nat (nat_of_ascii c - 48)) s'
    else None
  end.

(** Modelled from the spec: the port is parsed as a decimal numeral into
    a 16-bit unsigned number; anything else is a failure. *)
Definition parse_u16 (s : string) : option Z :=
  match s with
  | EmptyString => None
  | _ =>
    match decimal_value 0 s with
    | Some v => if v <=? 65535 then Some v else None
    | None => None
    end
  end.

Definition has_colon (s : string) : bool :=
  match index 0 ":" s with Some _ => true | None => false end.

Definition drop (n : nat) (s : string) : string :=
  substring n (String.length s - n) s.

(** Modelled from the spec: [grpc_core::SplitHostPort] (of
    [src/core/lib/gprpp/host_port.cc], absent) splits a name into host
    and port: a bracketed host, which has to hold a colon, with an
    optional port after the bracket, or else a host with a port after
    its only colon. *)
Definition split_host_port (name : string) : string * string :=
  match name with
  | String "[" rest =>
    match index 0 "]" rest with
    | None => ("", "")
    | Some i =>
      let host := if has_colon (substring 0 i rest) then substring 0 i rest
                  else "" in
      match drop (S i) rest with
      | EmptyString => (host, "")
      | String ":" port => (host, port)
      | _ => ("", "")
      end
    end
  | _ =>
    match index 0 ":" name with
    | None => (name, "")
    | Some i =>
      match index (S i) ":" name with
      | None => (substring 0 i name, drop (S i) name)
      | Some _ => (name, "")
      end
    end
  end.

(** Modelled from the spec: [grpc_core::JoinHostPort] reassembles
    [host:port], with the brackets an IPv6 literal needs. *)
Definition join_host_port (host : string) (port : Z) : string :=
  let digits := NilZero.string_of_int (Z.to_int port) in
  match host with
  | String "[" _ => host ++ ":" ++ digits
  | _ => if has_colon host then "[" ++ host ++ "]:" ++ digits
         else host ++ ":" ++ digits
  end%string.

Fixpoint split_on (sep : ascii) (s : string) : list string :=
  match s with
  | EmptyString => [EmptyString]
  | String c s' =>
    if Ascii.eqb c sep then EmptyString :: split_on sep s'
    else match split_on sep s' with
         | [] => [String c EmptyString]
         | w :: ws => String c w :: ws
         end
  end.

Definition parse_octet (s : string) : option Z :=
  match s with
  | EmptyString => None
  | _ =>
    match decimal_value 0 s with
    | Some v => if (v <=? 255) && (String.length s <=? 3)%nat then Some v
                else None
    | None => None
    end
  end.

Definition dotted_quad (host : string) : option (list Z) :=
  match map parse_octet (split_on "." host) with
  | [Some a; Some b; Some c; Some d] => Some [a; b; c; d]
  | _ => None
  end.

Definition hex_digit (c : ascii) : option Z :=
  let n := nat_of_ascii c in
  if (48 <=? n)%nat && (n <=? 57)%nat then Some (Z.of_nat (n - 48))
  else if (97 <=? n)%nat && (n <=? 102)%nat then Some (Z.of_nat (n - 87))
  else if (65 <=? n)%nat && (n <=? 70)%nat then Some (Z.of_nat (n - 55))
  else None.

Fixpoint hex_value (acc : Z) (s : string) : option Z :=
  match s with
  | EmptyString => Some acc
  | String c s' =>
    match hex_digit c with
    | Some d => hex_value (16 * acc + d) s'
    | None => None
    end
  end.

Definition parse_group (s : string) : option Z :=
  match s with
  | EmptyString => None
  | _ => if (String.length s <=? 4)%nat then hex_value 0 s else None
  end.

Fixpoint all_some {A} (l : list (option A)) : option (list A) :=
  match l with
  | [] => Some []
  | Some a :: l' =>
    match all_some l' with Some r => Some (a :: r) | None => None end
  | None :: _ => None
  end.

Definition group_bytes (g : Z) : list Z := [g / 256; g mod 256].

(** The sixteen bytes of an IPv6 literal: groups of hexadecimal digits
    between colons, the two sides of one [::] filled up with zeros. *)
Definition colon_groups (host : string) : option (list Z) :=
  let side (s : string) : option (list Z) :=
    match s with
    | EmptyString => Some []
    | _ => all_some (map parse_group (split_on ":" s))
    end in
  match index 0 "::" host with
  | Some i =>
    match side (substring 0 i host), side (drop (i + 2) host) with
    | Some l, Some r =>
      if (List.length l + List.length r <? 8)%nat then
        Some (flat_map group_bytes
                (l ++ repeat 0 (8 - List.length l - List.length r) ++ r))
      else None
    | _, _ => None
    end
  | None =>
    match side host with
    | Some l => if (List.length l =? 8)%nat then Some (flat_map group_bytes l)
                else None
    | None => None
    end
  end.

(** Modelled from the spec: the address-literal parsers take
    [<ipv4>:<port>] and [[<ipv6>]:<port>] and fill in the address with
    the port in network byte order. *)
Definition parse_ipv4_hostport (hostport : string) : option ResolvedAddress :=
  let '(host, port) := split_host_port hostport in
  match dotted_quad host, parse_u16 port with
  | Some bytes, Some p =>
    Some {| sa_family := AF_INET; sin_port := htons p;
            sin_addr := bytes; sa_size := 16 |}
  | _, _ => None
  end.

Definition parse_ipv6_hostport (hostport : string) : option ResolvedAddress :=
  let '(host, port) := split_host_port hostport in
  match colon_groups host, parse_u16 port with
  | Some bytes, Some p =>
    Some {| sa_family := AF_INET6; sin_port := htons p;
            sin_addr := bytes; sa_size := 28 |}
  | _, _ => None
  end.

(** A sort that keeps the order of the stub within a family and puts
    the IPv6 destinations first. *)
Definition ipv6_first (l : list (ResolvedAddress * nat))
  : list (ResolvedAddress * nat) :=
  filter (fun s => sa_family (fst s) =? AF_INET6) l
    ++ filter (fun s => negb (sa_family (fst s) =? AF_INET6)) l.

(** [absl::SimpleAtoi] into an [int]: white space around the text is
    skipped, a sign may come first, what follows is decimal digits, one
    at least, and the value fits the 32 bits of an [int]. *)
Definition is_space (c : ascii) : bool :=
  let n := nat_of_ascii c in
  (n =? 32)%nat || ((9 <=? n)%nat && (n <=? 13)%nat).

Fixpoint skip_spaces (s : string) : string :=
  match s with
  | EmptyString => EmptyString
  | String c s' => if is_space c then skip_spaces s' else s
  end.

Definition reversed (s : string) : string :=
  string_of_list_ascii (rev (list_ascii_of_string s)).

Definition stripped (s : string) : string :=
  reversed (skip_spaces (reversed (skip_spaces s))).

Definition simple_atoi (s : string) : option Z :=
  match stripped s with
  | EmptyString => None
  | String c rest =>
    let '(negative, digits) :=
      if Ascii.eqb c "-"%char then (true, rest)
      else if Ascii.eqb c "+"%char then (false, rest)
      else (false, String c rest) in
    match digits with
    | EmptyString => None
    | _ =>
      match decimal_value 0 digits with
      | Some v =>
        let v := if negative then - v else v in
        if (- 2 ^ 31 <=? v) && (v <=? 2 ^ 31 - 1) then Some v else None
      | None => None
      end
    end
  end.

Definition reference (ipv6_loopback : bool) : Collaborators :=
  {| SplitHostPort := split_host_port;
     JoinHostPort := join_host_port;
     SimpleAtoi := simple_atoi;
     grpc_parse_ipv4_hostport := parse_ipv4_hostport;
     grpc_parse_ipv6_hostport := parse_ipv6_hostport;
     grpc_sockaddr_get_port := fun a => htons (sin_port a);
     address_sorting_rfc_6724_sort := ipv6_first;
     IsIpv6LoopbackAvailable := ipv6_loopback;
     ares_strerror := fun status => NilZero.string_of_int (Z.to_int status);
     engine_cancel := fun _ => true |}.

(** ** Notions the properties are stated with *)

(** The test of the first loop of [OnTXTDoneLocked]. *)
Definition is_config_start (r : ares_txt_ext.t) : bool :=
  ares_txt_ext.record_start r &&
  match memcmp_eq (Z.to_nat g_prefix_len) (ares_txt_ext.txt r)
                  g_service_config_attribute_prefix with
  | Some true => true
  | _ => false
  end.

(** The text of a node, and what follows the prefix in it. *)
Definition txt_text (r : ares_txt_ext.t) : string :=
  substring 0 (Z.to_nat (ares_txt_ext.length r)) (ares_txt_ext.txt r).

Definition txt_payload (r : ares_txt_ext.t) : string :=
  substring (Z.to_nat g_prefix_len)
            (Z.to_nat (ares_txt_ext.length r - g_prefix_len))
            (ares_txt_ext.txt r).

(** A node as the stub builds it from a text. *)
Definition txt_node (text : string) (start : bool) : ares_txt_ext.t :=
  ares_txt_ext.mk (text ++ String NUL EmptyString)%string
                  (Z.of_nat (String.length text)) start.

(** What a method leaves of a request when it only works on the timers,
    the fd nodes, the reference count and the surroundings' log. *)
Definition core (r : Request) :=
  (name_ r, default_port_ r, host_ r, port_ r,
   (initialized_ r, shutting_down_ r, cancelled_ r, on_resolve_ r),
   (pending_queries_ r, result_ r, error_ r),
   (service_name_ r, config_name_ r),
   (run_queue_ r, invoked_ r)).

Definition same_core (r r' : Request) : Prop := core r' = core r.

(** [ends F R m]: wherever [m] stops, by returning or at an assertion,
    the request it leaves is related to the one it found; [F] holds if
    it faults. [preserves] allows a fault, [stops] excludes it, and
    [returns] says that [m] returns. *)
Definition ends (F : Prop) (R : Request -> Request -> Prop) {A} (m : M A)
  : Prop :=
  forall r, match m r with
            | Ret _ r' => R r r'
            | Abort r' => R r r'
            | Fault => F
            end.

Definition preserves (R : Request -> Request -> Prop) {A} (m : M A) : Prop :=
  ends True R m.

Definition stops (R : Request -> Request -> Prop) {A} (m : M A) : Prop :=
  ends False R m.

Definition returns (R : Request -> Request -> Prop) {A} (m : M A) : Prop :=
  forall r, exists a r', m r = Ret a r' /\ R r r'.

(** The calls that issue a query to the stub. *)
Definition is_query (c : Call) : bool :=
  match c with
  | ares_gethostbyname _ _ _ _ | ares_query _ | ares_search _ => true
  | _ => false
  end.

(** The request gained calls, none of which issues a query. *)
Definition no_new_query (r r' : Request) : Prop :=
  exists added, trace_ r' = trace_ r ++ added /\ filter is_query added = [].

(** The slots of an answer of [ares_getsock] the stub wants watched,
    and their sockets: the sockets the stub is interested in. *)
Definition slot_active (gs : GetSock) (i : nat) : bool :=
  ARES_GETSOCK_READABLE (socks_bitmask gs) i
  || ARES_GETSOCK_WRITABLE (socks_bitmask gs) i.

Definition slot_socket (gs : GetSock) (i : nat) : Z := nth i (socks gs) 0.

Definition slots_sockets (gs : GetSock) (slots : list nat) : list Z :=
  map (slot_socket gs) (filter (slot_active gs) slots).

Definition interesting (gs : GetSock) : list Z :=
  slots_sockets gs (seq 0 ARES_GETSOCK_MAXNUM).

(** A node once it is shut down, and whether a readiness closure of it is
    outstanding. *)
Definition shut (n : FdNode) : FdNode := set_already_shutdown true n.

Definition registered (n : FdNode) : bool :=
  readable_registered n || writable_registered n.

(** The calls that end the life of a polled fd. *)
Definition is_teardown (c : Call) : bool :=
  match c with
  | ShutdownLocked _ _ | DeleteFdNode _ => true
  | _ => false
  end.

(** What the second loop of [Work] asks for one node. *)
Definition remaining_calls (n : FdNode) : list Call :=
  (if already_shutdown n then [] else [ShutdownLocked n OkStatus])
    ++ (if registered n then [] else [DeleteFdNode (shut n)]).

(** What the first loop of [Work] does to the list it takes nodes from,
    to the list it builds and to the log. *)
Definition slots_done (gs : GetSock) (slots : list nat)
           (new_list nl : list FdNode) (r r' : Request) : Prop :=
  (forall n, In n (fd_node_list_ r) ->
             ~ In (as_ n) (slots_sockets gs slots) ->
             In n (fd_node_list_ r')) /\
  (forall n, In n (fd_node_list_ r') -> In n (fd_node_list_ r)) /\
  (forall m, In m nl ->
             In m new_list \/ In (as_ m) (slots_sockets gs slots)) /\
  (exists added, trace_ r' = trace_ r ++ added /\
                 Forall (fun c => is_teardown c = false) added).

(** The request once [OnResolve] of the hostname request has taken a
    result in: one query less is pending, and the addresses or the error
    are accumulated. *)
Definition absorb (result : StatusOr (list ResolvedAddress)) (r : Request)
  : Request :=
  match result with
  | SoValue addrs =>
    set_result_ (result_ r ++ addrs)
                (set_pending_queries_ (pending_queries_ r - 1) r)
  | SoError s =>
    set_error_ (grpc_error_add_child (error_ r) s)
               (set_pending_queries_ (pending_queries_ r - 1) r)
  end.

(** What every method keeps of a request that is being shut down: the
    request stays shut down and, once cancelled, stays cancelled and
    hands nothing more to the event engine; a method that leaves the
    request not shutting down has handed nothing over; no method invokes
    the user callback itself. *)
Definition quiet (r r' : Request) : Prop :=
  (shutting_down_ r = true -> shutting_down_ r' = true) /\
  (cancelled_ r = true ->
   cancelled_ r' = true /\ run_queue_ r' = run_queue_ r) /\
  (shutting_down_ r' = false -> run_queue_ r' = run_queue_ r) /\
  invoked_ r' = invoked_ r.

(** The addresses a closure delivers carry the port. *)
Definition port_carried (port : Z) (c : Closure) : Prop :=
  match c with
  | on_resolve_hostname (SoValue addrs) =>
    Forall (fun a => sin_port a = htons port) addrs
  | _ => True
  end.

(** The request is about [host] and [port], and the addresses it has
    accumulated, handed over or delivered all carry the port. *)
Definition ports_ok (host : string) (port : Z) (r : Request) : Prop :=
  host_ r = host /\ port_ r = port /\
  Forall (fun a => sin_port a = htons port) (result_ r) /\
  Forall (port_carried port) (run_queue_ r) /\
  Forall (port_carried port) (invoked_ r).

Definition keeps (I : Request -> Prop) (r r' : Request) : Prop := I r -> I r'.

(** While a request is referenced and not shutting down, no closure of
    it waits in the event engine. *)
Definition nothing_waiting (r : Request) : Prop :=
  0 < refs_ r -> shutting_down_ r = false -> run_queue_ r = [].

(** A cancelled request: nothing waits in the engine, and the callbacks
    invoked are those of [delivered]. *)
Definition silenced (delivered : list Closure) (r : Request) : Prop :=
  cancelled_ r = true /\ run_queue_ r = [] /\ invoked_ r = delivered.

(** The nodes of a list that are not shut down yet, and the calls that
    shut them down with [status], in the order of the list. *)
Definition live_nodes (l : list FdNode) : list FdNode :=
  filter (fun n => negb (already_shutdown n)) l.

Definition shutdown_calls (status : Status) (l : list FdNode) : list Call :=
  map (fun n => ShutdownLocked n status) (live_nodes l).

(** What [CancelTimers] asks of the engine for one handle, and the
    references it gives back: one for a timer the engine could cancel. *)
Definition cancel_calls (h : option TaskHandle) : list Call :=
  match h with
  | Some h => [EngineCancel h]
  | None => []
  end.

Definition released {env : Collaborators} (h : option TaskHandle) : Z :=
  match h with
  | Some h => if engine_cancel h then 1 else 0
  | None => 0
  end.

(** The readiness closures outstanding on a node and on a list of nodes:
    one for each direction that is registered. *)
Definition node_registrations (n : FdNode) : Z :=
  Z.b2z (readable_registered n) + Z.b2z (writable_registered n).

Definition registrations (l : list FdNode) : Z :=
  fold_right (fun n acc => node_registrations n + acc) 0 l.

(** The calls that register a readiness closure. *)
Definition is_registration (c : Call) : bool :=
  match c with
  | RegisterForOnReadableLocked _ | RegisterForOnWriteableLocked _ => true
  | _ => false
  end.

(** The socket of slot [i] is watched in [l]: a node of [l] wraps it,
    with a closure registered for each direction the stub asks for. *)
Definition slot_watched (gs : GetSock) (i : nat) (l : list FdNode) : Prop :=
  exists m,
    In m l /\ as_ m = slot_socket gs i /\
    (ARES_GETSOCK_READABLE (socks_bitmask gs) i = true ->
     readable_registered m = true) /\
    (ARES_GETSOCK_WRITABLE (socks_bitmask gs) i = true ->
     writable_registered m = true).

(** The completions of lookups, and the events during which the stub
    completes nothing but lookups: what a hostname request can meet. *)
Definition hostname_completion (c : Completion) : bool :=
  match c with
  | HostbynameDone _ _ _ => true
  | _ => false
  end.

Definition hostname_event (e : Event) : bool :=
  match e with
  | EvOnReadable _ _ first rounds _ =>
    forallb hostname_completion first
    && forallb (forallb hostname_completion) rounds
  | EvOnWritable _ _ stub _ => forallb hostname_completion stub
  | EvOnAresBackupPollAlarm rounds _ =>
    forallb (forallb hostname_completion) rounds
  | _ => true
  end.

(** The closures handed to the event engine so far, those it has run
    first. *)
Definition handed_over (r : Request) : list Closure :=
  invoked_ r ++ run_queue_ r.

(** At most one closure was handed over, and none while a lookup is
    pending. *)
Definition once (r : Request) : Prop :=
  handed_over r = [] \/
  (exists c, handed_over r = [c]) /\ pending_queries_ r = 0.

(** The timers and the shutdown mark are as they were. *)
Definition same_timers (r r' : Request) : Prop :=
  query_timeout_handle_ r' = query_timeout_handle_ r /\
  ares_backup_poll_alarm_handle_ r' = ares_backup_poll_alarm_handle_ r /\
  shutting_down_ r' = shutting_down_ r.

(** No timer was armed, and the shutdown mark was not taken back. *)
Definition unarmed (r r' : Request) : Prop :=
  (query_timeout_handle_ r = None -> query_timeout_handle_ r' = None) /\
  (ares_backup_poll_alarm_handle_ r = None ->
   ares_backup_poll_alarm_handle_ r' = None) /\
  (shutting_down_ r = true -> shutting_down_ r' = true).

(** [Start] takes the path on which it asks the stub: the target of a
    hostname request is no address literal, the host of an SRV or TXT
    request is not localhost. *)
Definition asks_stub {env : Collaborators} (s : StartCall) (r : Request)
  : Prop :=
  match s with
  | StartHostname _ _ _ =>
    grpc_parse_ipv4_hostport (JoinHostPort (host_ r) (port_ r)) = None /\
    grpc_parse_ipv6_hostport (JoinHostPort (host_ r) (port_ r)) = None
  | StartSRV _ _ | StartTXT _ _ =>
    gpr_stricmp (c_str (host_ r)) "localhost" <> 0
  end.

(** The marks of a request as a method leaves them: [cancelled_] is as
    it was, and [shutting_down_] is not taken back. *)
Definition marks_kept (r r' : Request) : Prop :=
  cancelled_ r' = cancelled_ r /\
  (shutting_down_ r = true -> shutting_down_ r' = true).

(** Neither mark is taken back, and a cancelled request stays one that
    is shutting down. *)
Definition marks_stay (r r' : Request) : Prop :=
  (shutting_down_ r = true -> shutting_down_ r' = true) /\
  (cancelled_ r = true -> cancelled_ r' = true) /\
  ((cancelled_ r = true -> shutting_down_ r = true) ->
   cancelled_ r' = true -> shutting_down_ r' = true).




(** Inputs of the examples. *)
Definition sample_start : ares_txt_ext.t := txt_node "grpc_config={}" true.

Definition sample_reply : list ares_txt_ext.t :=
  [ txt_node "v=spf1 -all" true;
    txt_node "grpc_config={a:" true;
    txt_node "1}" false;
    txt_node "grpc_config=other" true ].

(** The request [Create] returns on the reference implementation when
    the stub accepts everything. *)
Definition created (ipv6 check_port : bool) (name default_port : string)
  : Request :=
  match Create (env := reference ipv6) name default_port "" check_port 0
               ARES_SUCCESS ARES_SUCCESS with
  | Ret _ r => r
  | _ => new_request name default_port 0
  end.

Definition bad_port_request : Request := new_request "example.test:abc" "" 0.
Definition wide_port_request : Request :=
  new_request "example.test:65536" "" 0.
Definition no_port_request : Request := new_request "example.test" "" 0.
Definition localhost_request : Request := created true false "LocalHost" "".
Definition hostname_request : Request :=
  created true true "example.test:8080" "".

Definition no_socks : GetSock := MkGetSock [] 0.

Definition literal_request : Request := created true true "1.2.3.4:80" "".


Definition one_sock : GetSock := MkGetSock [7] 1.

(** The request a computation leaves behind. *)
Definition left_by {A : Type} (m : M A) (r : Request) : Request :=
  match m r with
  | Ret _ r' | Abort r' => r'
  | Fault => r
  end.

(** The hostname request once started, with the stub waiting to read
    socket 7, and the same request once cancelled. *)
Definition started_request : Request :=
  left_by (Start (env := reference true) (StartHostname None None one_sock))
          hostname_request.

Definition cancelled_request : Request :=
  left_by (on_object (Cancel (env := reference true))) started_request.

(** Socket 7 becomes readable and the stub completes both lookups
    there: with success and no address each (an answer that holds only
    an alias), or with a failure of the AAAA lookup and one address for
    the A lookup. *)
Definition empty_answers : Event :=
  EvOnReadable 0 OkStatus
    [ HostbynameDone "AAAA" ARES_SUCCESS (MkHostent AF_INET6 []);
      HostbynameDone "A" ARES_SUCCESS (MkHostent AF_INET []) ] [] no_socks.

Definition one_answer : Event :=
  EvOnReadable 0 OkStatus
    [ HostbynameDone "AAAA" 4 (MkHostent AF_INET6 []);
      HostbynameDone "A" ARES_SUCCESS (MkHostent AF_INET [[93; 184; 216; 34]]) ]
    [] no_socks.

(** The two requests once the engine has run the callback: the literal
    one straight after [Start], the other after [one_answer]. *)
Definition literal_delivered : Request :=
  left_by (Start (env := reference true) (StartHostname None None no_socks) ;;
           run_events (env := reference true) [EvEngineRuns])
          literal_request.

Definition hostname_delivered : Request :=
  left_by (Start (env := reference true) (StartHostname None None one_sock) ;;
           run_events (env := reference true) [one_answer; EvEngineRuns])
          hostname_request.

(** An SRV and a TXT request for [example.test], started, with the stub
    waiting to read socket 7. *)
Definition srv_started : Request :=
  left_by (Start (env := reference true) (StartSRV None one_sock))
          (created true false "example.test" "").

Definition txt_started : Request :=
  left_by (Start (env := reference true) (StartTXT None one_sock))
          (created true false "example.test" "").

(** The started hostname request once its AAAA lookup has failed. *)
Definition half_done : Request :=
  left_by (deliver (env := reference true)
                   (HostbynameDone "AAAA" 4 (MkHostent AF_INET6 [])))
          started_request.


(** The literal request and the localhost request cancelled before they
    are started, and what [Start] and the event engine make of them. *)
Definition cancelled_literal : Request :=
  left_by (on_object (Cancel (env := reference true))) literal_request.

Definition cancelled_literal_delivered : Request :=
  left_by (Start (env := reference true) (StartHostname None None no_socks) ;;
           run_events (env := reference true) [EvEngineRuns])
          cancelled_literal.

Definition cancelled_localhost : Request :=
  left_by (on_object (Cancel (env := reference true))) localhost_request.

Definition cancelled_localhost_delivered : Request :=
  left_by (Start (env := reference true) (StartSRV None no_socks) ;;
           run_events (env := reference true) [EvEngineRuns])
          cancelled_localhost.



(** * Properties *)

Example split_examples :
  split_host_port "example.test:8080" = ("example.test", "8080") /\
  split_host_port "[::1]:443" = ("::1", "443") /\
  split_host_port "host" = ("host", "") /\
  split_host_port ":80" = ("", "80") /\
  split_host_port "2001:db8::1" = ("2001:db8::1", "").
Proof. repeat split; reflexivity. Qed.

Example literal_examples :
  parse_ipv4_hostport (join_host_port "1.2.3.4" 80)
  = Some (MkAddress AF_INET (htons 80) [1; 2; 3; 4] 16) /\
  parse_ipv6_hostport (join_host_port "::1" 443)
  = Some (MkAddress AF_INET6 (htons 443)
            [0; 0; 0; 0; 0; 0; 0; 0; 0; 0; 0; 0; 0; 0; 0; 1] 28) /\
  parse_ipv4_hostport (join_host_port "example.test" 80) = None /\
  parse_ipv6_hostport (join_host_port "example.test" 80) = None.
Proof. repeat split; vm_compute; reflexivity. Qed.

(** ** Running the methods *)

(** Unfold the monad, then the accessors of the request, in the goal or
    in a hypothesis. *)
Ltac run_fields :=
  cbn [
    name_ default_port_ timeout_ host_ port_ initialized_
    shutting_down_ cancelled_ fd_node_list_ query_timeout_handle_
    ares_backup_poll_alarm_handle_ on_resolve_ refs_ pending_queries_
    result_ error_ service_name_ config_name_ run_queue_ invoked_
    trace_ next_id_ set_host_ set_port_ set_initialized_
    set_shutting_down_ set_cancelled_ set_fd_node_list_
    set_query_timeout_handle_ set_ares_backup_poll_alarm_handle_
    set_on_resolve_ set_refs_ set_pending_queries_ set_result_
    set_error_ set_service_name_ set_config_name_ set_run_queue_
    set_invoked_ set_trace_ set_next_id_ ].

Ltac run_fields_in H :=
  cbn [
    name_ default_port_ timeout_ host_ port_ initialized_
    shutting_down_ cancelled_ fd_node_list_ query_timeout_handle_
    ares_backup_poll_alarm_handle_ on_resolve_ refs_ pending_queries_
    result_ error_ service_name_ config_name_ run_queue_ invoked_
    trace_ next_id_ set_host_ set_port_ set_initialized_
    set_shutting_down_ set_cancelled_ set_fd_node_list_
    set_query_timeout_handle_ set_ares_backup_poll_alarm_handle_
    set_on_resolve_ set_refs_ set_pending_queries_ set_result_
    set_error_ set_service_name_ set_config_name_ set_run_queue_
    set_invoked_ set_trace_ set_next_id_ ] in H.

Ltac run_monad :=
  cbv [bind ret gets modify abort fault emit when GPR_ASSERT Ref Unref Run
       fresh];
  run_fields.

Ltac run_monad_in H :=
  cbv [bind ret gets modify abort fault emit when GPR_ASSERT Ref Unref Run
       fresh] in H;
  run_fields_in H.

Lemma bind_unfold {A B} (m : M A) (k : A -> M B) (r : Request) :
  bind m k r = match m r with
               | Ret a r' => k a r'
               | Abort r' => Abort r'
               | Fault => Fault
               end.
Proof. reflexivity. Qed.

Ltac run_prims_in H :=
  cbv [ret gets modify abort fault emit when GPR_ASSERT Ref Unref Run fresh]
    in H;
  run_fields_in H.

Lemma bind_ret_inv {A B} (m : M A) (k : A -> M B) (r r' : Request) (b : B) :
  bind m k r = Ret b r' ->
  exists a r1, m r = Ret a r1 /\ k a r1 = Ret b r'.
Proof.
  unfold bind. destruct (m r) as [a r1| |]; try discriminate.
  intros H. exists a, r1. split; [reflexivity|exact H].
Qed.

Lemma bind_assoc {A B C} (m : M A) (k : A -> M B) (k' : B -> M C)
      (r : Request) :
  bind (bind m k) k' r = bind m (fun a => bind (k a) k') r.
Proof. unfold bind. destruct (m r); reflexivity. Qed.

(** One step of a method: the first action of the outermost bind. *)
Ltac step :=
  repeat rewrite bind_assoc;
  rewrite bind_unfold;
  cbv [ret gets modify abort fault emit when GPR_ASSERT Ref Unref Run fresh];
  run_fields.

(** Decide the test of a conditional that waits for the request. *)
Ltac step_if_in H :=
  match type of H with
  | context [(if ?c then _ else _) _] => destruct c eqn:?
  | context [(match ?c with Some _ => _ | None => _ end) _] => destruct c eqn:?
  end;
  run_monad_in H.

Ltac step_if :=
  match goal with
  | |- context [(if ?c then _ else _) _] => destruct c eqn:?
  | |- context [(match ?c with Some _ => _ | None => _ end) _] =>
    destruct c eqn:?
  end;
  run_monad.

(** ** Composing what methods preserve *)

Section Preservation.

Variable F : Prop.
Variable R : Request -> Request -> Prop.
Hypothesis R_refl : forall r, R r r.
Hypothesis R_trans : forall a b c, R a b -> R b c -> R a c.

Lemma ends_ret {A} (a : A) : ends F R (ret a).
Proof. intros r. apply R_refl. Qed.

Lemma ends_gets {A} (f : Request -> A) : ends F R (gets f).
Proof. intros r. apply R_refl. Qed.

Lemma ends_abort {A} : ends F R (@abort A).
Proof. intros r. apply R_refl. Qed.

Lemma ends_assert (b : bool) : ends F R (GPR_ASSERT b).
Proof. destruct b; [apply ends_ret|apply ends_abort]. Qed.

Lemma ends_modify (f : Request -> Request) :
  (forall r, R r (f r)) -> ends F R (modify f).
Proof. intros H r. apply H. Qed.

Lemma ends_bind {A B} (m : M A) (k : A -> M B) :
  ends F R m -> (forall a, ends F R (k a)) -> ends F R (bind m k).
Proof.
  intros Hm Hk r. unfold bind. specialize (Hm r).
  destruct (m r) as [a r1| r1 |]; [|assumption|assumption].
  specialize (Hk a r1).
  destruct (k a r1); try assumption; eapply R_trans; eauto.
Qed.

Lemma ends_when (b : bool) (m : M unit) : ends F R m -> ends F R (when b m).
Proof. intros H. destruct b; [exact H|apply ends_ret]. Qed.

Lemma ends_for_each {A} (f : A -> M unit) (l : list A) :
  (forall a, ends F R (f a)) -> ends F R (for_each f l).
Proof.
  intros H. induction l as [|a l IH]; simpl; [apply ends_ret|].
  apply ends_bind; [apply H|intros _; exact IH].
Qed.

Lemma returns_ret {A} (a : A) : returns R (ret a).
Proof. intros r. exists a, r. split; [reflexivity|apply R_refl]. Qed.

Lemma returns_gets {A} (f : Request -> A) : returns R (gets f).
Proof. intros r. exists (f r), r. split; [reflexivity|apply R_refl]. Qed.

Lemma returns_modify (f : Request -> Request) :
  (forall r, R r (f r)) -> returns R (modify f).
Proof. intros H r. exists tt, (f r). split; [reflexivity|apply H]. Qed.

Lemma returns_bind {A B} (m : M A) (k : A -> M B) :
  returns R m -> (forall a, returns R (k a)) -> returns R (bind m k).
Proof.
  intros Hm Hk r. destruct (Hm r) as (a & r1 & E1 & H1).
  destruct (Hk a r1) as (b & r2 & E2 & H2).
  exists b, r2. unfold bind. rewrite E1. split; [exact E2|eapply R_trans; eauto].
Qed.

Lemma returns_when (b : bool) (m : M unit) :
  returns R m -> returns R (when b m).
Proof. intros H. destruct b; [exact H|apply returns_ret]. Qed.

Lemma returns_ends {A} (m : M A) : returns R m -> ends F R m.
Proof.
  intros H r. destruct (H r) as (a & r' & E & HR). rewrite E. exact HR.
Qed.

End Preservation.

Lemma ends_fault {A} (R : Request -> Request -> Prop) : ends True R (@fault A).
Proof. intros r. exact I. Qed.

(** Takes a method apart along its binds and conditionals; [leaf] closes
    the goals about single updates of the request. *)
Ltac preserve_with refl trans leaf :=
  unfold preserves, stops;
  repeat
    (lazymatch goal with
     | |- ends _ _ (bind _ _) => apply (ends_bind _ _ trans); [|intro]
     | |- ends _ _ (ret _) => apply (ends_ret _ _ refl)
     | |- ends _ _ (gets _) => apply (ends_gets _ _ refl)
     | |- ends _ _ abort => apply (ends_abort _ _ refl)
     | |- ends True _ fault => apply ends_fault
     | |- ends _ _ (GPR_ASSERT _) => apply (ends_assert _ _ refl)
     | |- ends _ _ (when _ _) => apply (ends_when _ _ refl)
     | |- ends _ _ (modify _) => apply ends_modify; intro; leaf
     | |- ends _ _ (if ?c then _ else _) => destruct c
     | |- ends _ _ (match ?c with _ => _ end) => destruct c
     | |- returns _ (bind _ _) => apply (returns_bind _ trans); [|intro]
     | |- returns _ (ret _) => apply (returns_ret _ refl)
     | |- returns _ (gets _) => apply (returns_gets _ refl)
     | |- returns _ (when _ _) => apply (returns_when _ refl)
     | |- returns _ (modify _) => apply returns_modify; intro; leaf
     | |- returns _ (if ?c then _ else _) => destruct c
     | |- returns _ (match ?c with _ => _ end) => destruct c
     | |- _ => fail
     end).

(** ** The TXT reply *)

Lemma get_some_lt (s : string) :
  forall i c, String.get i s = Some c -> (i < String.length s)%nat.
Proof.
  induction s as [|x s IH]; intros [|i] c H; simpl in *; try discriminate.
  - lia.
  - apply IH in H. lia.
Qed.

Lemma memcmp_eq_true_get (n : nat) :
  forall a b, memcmp_eq n a b = Some true ->
  forall i, (i < n)%nat -> String.get i a = String.get i b.
Proof.
  induction n as [|n IH]; intros a b H i Hi; [lia|].
  destruct a as [|x a], b as [|y b]; simpl in H; try discriminate.
  destruct (Ascii.eqb x y) eqn:E; [|discriminate].
  apply Ascii.eqb_eq in E. subst y.
  destruct i as [|i]; simpl; [reflexivity|].
  apply (IH _ _ H). lia.
Qed.

Lemma memcmp_eq_none_get (n : nat) :
  forall a b, memcmp_eq n a b = None -> (n <= String.length b)%nat ->
  forall i c, String.get i a = Some c -> String.get i b = Some c /\ (i < n)%nat.
Proof.
  induction n as [|n IH]; intros a b H Hb i c Hg; [discriminate|].
  destruct a as [|x a]; [destruct i; discriminate|].
  destruct b as [|y b]; [simpl in Hb; lia|].
  simpl in H. destruct (Ascii.eqb x y) eqn:E; [|discriminate].
  apply Ascii.eqb_eq in E. subst y.
  destruct i as [|i]; simpl in *.
  - split; [assumption|lia].
  - destruct (IH _ _ H ltac:(lia) _ _ Hg). split; [assumption|lia].
Qed.

Lemma prefix_has_no_nul (i : nat) :
  (i < 12)%nat ->
  exists c, String.get i g_service_config_attribute_prefix = Some c /\ c <> NUL.
Proof.
  intros Hi.
  do 12 (destruct i as [|i];
         [eexists; split; [reflexivity|discriminate]|]).
  lia.
Qed.

(** On a node of the stub the comparison never leaves the buffer. *)
Lemma memcmp_prefix_defined (r : ares_txt_ext.t) :
  txt_wf r ->
  memcmp_eq (Z.to_nat g_prefix_len) (ares_txt_ext.txt r)
            g_service_config_attribute_prefix <> None.
Proof.
  intros [_ Hnul] H.
  change (Z.to_nat g_prefix_len) with 12%nat in H.
  destruct (memcmp_eq_none_get _ _ _ H ltac:(simpl; lia) _ _ Hnul) as [Hg Hi].
  destruct (prefix_has_no_nul _ Hi) as (c & Hc & Hne).
  rewrite Hc in Hg. congruence.
Qed.

(** A node the comparison accepts holds the whole prefix. *)
Lemma config_start_length (r : ares_txt_ext.t) :
  txt_wf r ->
  memcmp_eq (Z.to_nat g_prefix_len) (ares_txt_ext.txt r)
            g_service_config_attribute_prefix = Some true ->
  g_prefix_len <= ares_txt_ext.length r.
Proof.
  intros [[Hlo _] Hnul] H.
  change (Z.to_nat g_prefix_len) with 12%nat in H.
  change g_prefix_len with 12.
  destruct (Z_lt_le_dec (ares_txt_ext.length r) 12) as [Hlt|]; [|assumption].
  exfalso.
  assert (Hi : (Z.to_nat (ares_txt_ext.length r) < 12)%nat) by lia.
  pose proof (memcmp_eq_true_get _ _ _ H _ Hi) as Hg.
  destruct (prefix_has_no_nul _ Hi) as (c & Hc & Hne).
  rewrite Hnul, Hc in Hg. congruence.
Qed.

Lemma is_config_start_true (r : ares_txt_ext.t) :
  is_config_start r = true ->
  ares_txt_ext.record_start r = true /\
  memcmp_eq (Z.to_nat g_prefix_len) (ares_txt_ext.txt r)
            g_service_config_attribute_prefix = Some true.
Proof.
  unfold is_config_start. intros H.
  apply andb_true_iff in H. destruct H as [Hs Hm]. split; [assumption|].
  destruct (memcmp_eq _ _ _) as [[|]|]; try discriminate. reflexivity.
Qed.

Lemma wf_text_in_buffer (r : ares_txt_ext.t) :
  txt_wf r ->
  ares_txt_ext.length r < Z.of_nat (String.length (ares_txt_ext.txt r)).
Proof.
  intros [[Hlo _] Hnul]. apply get_some_lt in Hnul. lia.
Qed.

Lemma config_start_payload_in_bounds_aux (r : ares_txt_ext.t) :
  txt_wf r -> is_config_start r = true ->
  append_bytes "" (ares_txt_ext.txt r) g_prefix_len (service_config_len r)
  = Some (txt_payload r).
Proof.
  intros Hwf Hstart.
  destruct (is_config_start_true _ Hstart) as [_ Hcmp].
  pose proof (config_start_length _ Hwf Hcmp) as Hlen.
  pose proof (wf_text_in_buffer _ Hwf) as Hbuf.
  destruct Hwf as [[Hlo Hhi] _].
  assert (Hsc : service_config_len r = ares_txt_ext.length r - g_prefix_len).
  { unfold service_config_len. apply Z.mod_small.
    change g_prefix_len with 12 in *. unfold SIZE_MAX in *. lia. }
  unfold append_bytes. rewrite Hsc.
  replace ((0 <=? ares_txt_ext.length r - g_prefix_len)
           && (g_prefix_len + (ares_txt_ext.length r - g_prefix_len)
               <=? Z.of_nat (String.length (ares_txt_ext.txt r))))
    with true.
  - reflexivity.
  - symmetry. apply andb_true_iff. split; apply Z.leb_le; lia.
Qed.

(** C10. In the TXT completion path, a node taken as the start of the
    service config (it starts a record and the comparison of the twelve
    prefix bytes succeeds) has a length of at least twelve: the payload
    length, the length minus the prefix length, does not wrap around,
    and the bytes appended lie within the text of the node. The node is
    one the stub built: its text is followed by a NUL. *)
Theorem config_start_payload_in_bounds (r : ares_txt_ext.t) :
  txt_wf r ->
  is_config_start r = true ->
  g_prefix_len <= ares_txt_ext.length r /\
  service_config_len r = ares_txt_ext.length r - g_prefix_len /\
  0 <= service_config_len r /\
  g_prefix_len + service_config_len r <= ares_txt_ext.length r /\
  ares_txt_ext.length r < Z.of_nat (String.length (ares_txt_ext.txt r)) /\
  append_bytes "" (ares_txt_ext.txt r) g_prefix_len (service_config_len r)
  = Some (txt_payload r).
Proof.
  intros Hwf Hstart.
  destruct (is_config_start_true _ Hstart) as [_ Hcmp].
  pose proof (config_start_length _ Hwf Hcmp) as Hlen.
  pose proof (wf_text_in_buffer _ Hwf) as Hbuf.
  pose proof (config_start_payload_in_bounds_aux _ Hwf Hstart) as Happ.
  destruct Hwf as [[Hlo Hhi] _].
  assert (Hsc : service_config_len r = ares_txt_ext.length r - g_prefix_len).
  { unfold service_config_len. apply Z.mod_small.
    change g_prefix_len with 12 in *. unfold SIZE_MAX in *. lia. }
  repeat split; try lia. exact Happ.
Qed.

Lemma config_start_payload_in_bounds_witness :
  g_prefix_len <= ares_txt_ext.length sample_start /\
  service_config_len sample_start = ares_txt_ext.length sample_start - g_prefix_len /\
  0 <= service_config_len sample_start /\
  g_prefix_len + service_config_len sample_start
  <= ares_txt_ext.length sample_start /\
  ares_txt_ext.length sample_start
  < Z.of_nat (String.length (ares_txt_ext.txt sample_start)) /\
  append_bytes "" (ares_txt_ext.txt sample_start) g_prefix_len
               (service_config_len sample_start)
  = Some (txt_payload sample_start).
Proof.
  apply (config_start_payload_in_bounds sample_start).
  - split; [split; vm_compute; discriminate | reflexivity].
  - reflexivity.
Defined.

Lemma substring_split (s : string) :
  forall n m, (n <= m)%nat ->
  substring 0 m s = (substring 0 n s ++ substring n (m - n) s)%string.
Proof.
  induction s as [|x s IH]; intros n m Hnm.
  - destruct n, m; reflexivity.
  - destruct n as [|n].
    + simpl. rewrite Nat.sub_0_r. destruct m; reflexivity.
    + destruct m as [|m]; [lia|]. simpl. f_equal. apply IH. lia.
Qed.

Lemma memcmp_eq_true_substring (b : string) :
  forall a, memcmp_eq (String.length b) a b = Some true ->
  substring 0 (String.length b) a = b.
Proof.
  induction b as [|y b IH]; intros a H.
  - destruct a; reflexivity.
  - destruct a as [|x a]; simpl in H; [discriminate|].
    destruct (Ascii.eqb x y) eqn:E; [|discriminate].
    apply Ascii.eqb_eq in E. subst y. simpl. f_equal. apply IH, H.
Qed.

(** The text of an accepted node is the prefix followed by the payload. *)
Lemma config_start_text (r : ares_txt_ext.t) :
  txt_wf r -> is_config_start r = true ->
  txt_text r = (g_service_config_attribute_prefix ++ txt_payload r)%string.
Proof.
  intros Hwf Hstart.
  destruct (is_config_start_true _ Hstart) as [_ Hcmp].
  pose proof (config_start_length _ Hwf Hcmp) as Hlen.
  destruct Hwf as [[Hlo _] _].
  unfold txt_text, txt_payload.
  rewrite (substring_split _ (Z.to_nat g_prefix_len)) by lia.
  f_equal.
  - apply (memcmp_eq_true_substring g_service_config_attribute_prefix), Hcmp.
  - change g_prefix_len with 12 in *. f_equal. lia.
Qed.

Lemma find_service_config_cons (r : ares_txt_ext.t) (next : list ares_txt_ext.t) :
  find_service_config (r :: next)
  = if ares_txt_ext.record_start r then
      match memcmp_eq (Z.to_nat g_prefix_len) (ares_txt_ext.txt r)
                      g_service_config_attribute_prefix with
      | None => None
      | Some true => Some (r :: next)
      | Some false => find_service_config next
      end
    else find_service_config next.
Proof. reflexivity. Qed.

Lemma find_service_config_skips (pre : list ares_txt_ext.t) :
  forall tl, Forall txt_wf pre ->
  Forall (fun p => is_config_start p = false) pre ->
  find_service_config (pre ++ tl) = find_service_config tl.
Proof.
  induction pre as [|p pre IH]; intros tl Hwf Hno; [reflexivity|].
  inversion Hwf as [|? ? Hp Hwf']; inversion Hno as [|? ? Hn Hno']; subst.
  rewrite <- app_comm_cons, find_service_config_cons.
  unfold is_config_start in Hn.
  destruct (ares_txt_ext.record_start p); [|apply IH; assumption].
  pose proof (memcmp_prefix_defined _ Hp) as Hdef.
  destruct (memcmp_eq _ _ _) as [[|]|]; simpl in Hn; try discriminate.
  - apply IH; assumption.
  - congruence.
Qed.

Lemma find_service_config_start (r : ares_txt_ext.t) (next : list ares_txt_ext.t) :
  is_config_start r = true ->
  find_service_config (r :: next) = Some (r :: next).
Proof.
  intros H. destruct (is_config_start_true _ H) as [Hs Hc].
  rewrite find_service_config_cons, Hs, Hc. reflexivity.
Qed.

Lemma append_text (out : string) (m : ares_txt_ext.t) :
  txt_wf m ->
  append_bytes out (ares_txt_ext.txt m) 0 (ares_txt_ext.length m)
  = Some (out ++ txt_text m)%string.
Proof.
  intros Hwf. pose proof (wf_text_in_buffer _ Hwf) as Hbuf.
  destruct Hwf as [[Hlo _] _].
  unfold append_bytes, txt_text.
  replace ((0 <=? ares_txt_ext.length m)
           && (0 + ares_txt_ext.length m
               <=? Z.of_nat (String.length (ares_txt_ext.txt m))))
    with true; [reflexivity|].
  symmetry. apply andb_true_iff. split; apply Z.leb_le; lia.
Qed.

Lemma string_append_assoc (a b c : string) :
  ((a ++ b) ++ c = a ++ (b ++ c))%string.
Proof. induction a as [|x a IH]; simpl; [reflexivity|]. f_equal. apply IH. Qed.

Lemma string_append_empty (a : string) : (a ++ "" = a)%string.
Proof. induction a as [|x a IH]; simpl; [reflexivity|]. f_equal. apply IH. Qed.

Lemma append_continuation_run (mid : list ares_txt_ext.t) :
  forall out rest, Forall txt_wf mid ->
  Forall (fun m => ares_txt_ext.record_start m = false) mid ->
  match rest with
  | [] => True
  | x :: _ => ares_txt_ext.record_start x = true
  end ->
  append_continuation out (mid ++ rest)
  = Some (out ++ String.concat "" (map txt_text mid))%string.
Proof.
  induction mid as [|m mid IH]; intros out rest Hwf Hns Hrest.
  - simpl. rewrite string_append_empty.
    destruct rest as [|x rest]; [reflexivity|]. simpl. rewrite Hrest. reflexivity.
  - inversion Hwf as [|? ? Hm Hwf']; inversion Hns as [|? ? Hn Hns']; subst.
    simpl app. simpl append_continuation. rewrite Hn, (append_text _ _ Hm).
    rewrite (IH _ _ Hwf' Hns' Hrest). f_equal.
    rewrite string_append_assoc. f_equal.
    destruct mid; simpl; [rewrite string_append_empty|]; reflexivity.
Qed.

Lemma find_service_config_total (reply : list ares_txt_ext.t) :
  Forall txt_wf reply ->
  find_service_config reply = Some [] \/
  exists r next, find_service_config reply = Some (r :: next) /\
                 is_config_start r = true /\ txt_wf r /\ Forall txt_wf next.
Proof.
  induction reply as [|p reply IH]; intros Hwf; [left; reflexivity|].
  inversion Hwf as [|? ? Hp Hwf']; subst.
  rewrite find_service_config_cons.
  pose proof (memcmp_prefix_defined _ Hp) as Hdef.
  destruct (ares_txt_ext.record_start p) eqn:Hs; [|apply IH, Hwf'].
  destruct (memcmp_eq _ _ _) as [[|]|] eqn:Hc; [|apply IH, Hwf'|congruence].
  right. exists p, reply.
  split; [reflexivity|]. split; [|split; assumption].
  unfold is_config_start. rewrite Hs, Hc. reflexivity.
Qed.

Lemma append_continuation_total (l : list ares_txt_ext.t) :
  forall out, Forall txt_wf l -> exists out', append_continuation out l = Some out'.
Proof.
  induction l as [|m l IH]; intros out Hwf; [eexists; reflexivity|].
  inversion Hwf as [|? ? Hm Hwf']; subst. simpl.
  destruct (ares_txt_ext.record_start m); [eexists; reflexivity|].
  rewrite (append_text _ _ Hm). apply IH, Hwf'.
Qed.

Lemma service_config_json_out_total (reply : list ares_txt_ext.t) :
  Forall txt_wf reply -> exists out, service_config_json_out reply = Some out.
Proof.
  intros Hwf. unfold service_config_json_out.
  destruct (find_service_config_total _ Hwf) as [E | (r & next & E & Hs & Hr & Hn)];
    rewrite E; [eexists; reflexivity|].
  rewrite (config_start_payload_in_bounds_aux r Hr Hs).
  apply append_continuation_total, Hn.
Qed.

Section TXT.

Context {env : Collaborators}.

(** C5. For a TXT reply that the stub parsed, the string handed to
    [OnResolve] is a success value: it is the payload of the first node
    that starts a record and begins with [grpc_config=], followed by the
    texts of the nodes after it that do not start a record, up to the
    next node that does; it is the empty string when no node is
    accepted. *)
Theorem txt_reply_service_config (reply : list ares_txt_ext.t) :
  Forall txt_wf reply ->
  exists out,
    (forall r, OnTXTDoneLocked ARES_SUCCESS ARES_SUCCESS reply r
               = GrpcAresTXTRequest_OnResolve (SoValue out) r) /\
    (forall pre c mid rest,
        reply = pre ++ c :: mid ++ rest ->
        Forall (fun p => is_config_start p = false) pre ->
        is_config_start c = true ->
        Forall (fun m => ares_txt_ext.record_start m = false) mid ->
        match rest with
        | [] => True
        | x :: _ => ares_txt_ext.record_start x = true
        end ->
        txt_text c = (g_service_config_attribute_prefix ++ txt_payload c)%string /\
        out = (txt_payload c ++ String.concat "" (map txt_text mid))%string) /\
    (Forall (fun p => is_config_start p = false) reply -> out = "").
Proof.
  intros Hwf.
  destruct (service_config_json_out_total _ Hwf) as [out Hout].
  exists out. split; [|split].
  - intros r. unfold OnTXTDoneLocked. simpl. rewrite Hout. reflexivity.
  - intros pre c mid rest -> Hpre Hc Hmid Hrest.
    apply Forall_app in Hwf. destruct Hwf as [Hwp Hwf].
    inversion Hwf as [|? ? Hwc Hwt]; subst.
    apply Forall_app in Hwt. destruct Hwt as [Hwm _].
    split; [apply config_start_text; assumption|].
    unfold service_config_json_out in Hout.
    rewrite (find_service_config_skips _ _ Hwp Hpre) in Hout.
    rewrite (find_service_config_start _ _ Hc) in Hout.
    rewrite (config_start_payload_in_bounds_aux _ Hwc Hc) in Hout.
    rewrite (append_continuation_run _ _ _ Hwm Hmid Hrest) in Hout.
    congruence.
  - intros Hno. unfold service_config_json_out in Hout.
    rewrite <- (app_nil_r reply) in Hout.
    rewrite (find_service_config_skips _ _ Hwf Hno) in Hout.
    simpl in Hout. congruence.
Qed.

End TXT.

(** ** Initialize and Create *)

Section Initialization.

Context {env : Collaborators}.

(** [Initialize] on a name whose port part is present and is not a
    numeral [SimpleAtoi] accepts: it returns a failure status only when
    the host part is empty; otherwise the assertion on the port stops
    the process. In both cases the stub has not been called and the
    request is not initialized. *)
Lemma initialize_bad_port (dns_server : string) (check_port : bool)
        (init_status set_status : Z) (r : Request) (host port : string) :
  SplitHostPort (name_ r) = (host, port) ->
  port <> "" ->
  SimpleAtoi port = None ->
  exists r',
    initialized_ r' = initialized_ r /\ trace_ r' = trace_ r /\
    Initialize dns_server check_port init_status set_status r
    = if String.eqb host "" then
        Ret (grpc_error_set_str (GRPC_ERROR_CREATE "unparseable host:port")
                                (name_ r)) r'
      else Abort r'.
Proof.
  intros Hsplit Hport Hatoi.
  exists (set_host_ host r). split; [reflexivity|]. split; [reflexivity|].
  apply String.eqb_neq in Hport.
  unfold Initialize. run_monad. rewrite Hsplit.
  destruct (String.eqb host ""); [reflexivity|]. run_monad.
  rewrite Hport, andb_false_r. cbn [andb]. rewrite Hport, Hatoi. reflexivity.
Qed.

(** C8, as the code has it. The errors [Initialize] returns for an empty
    host, for a missing port without a default when the port is checked,
    and for a server string neither parser takes, all carry the code
    [GRPC_ERROR_CREATE] gives, [Unknown], with the three messages. *)
Theorem initialize_error_codes (dns_server : string) (check_port : bool)
        (init_status set_status : Z) (r : Request) (host port : string)
        (st : Status) (r' : Request) :
  SplitHostPort (name_ r) = (host, port) ->
  Initialize dns_server check_port init_status set_status r = Ret st r' ->
  (host = "" ->
   st = grpc_error_set_str (GRPC_ERROR_CREATE "unparseable host:port") (name_ r)
   /\ status_code st = kUnknown /\ initialized_ r' = initialized_ r) /\
  (host <> "" -> check_port = true -> port = "" -> default_port_ r = "" ->
   st = grpc_error_set_str (GRPC_ERROR_CREATE "no port in name") (name_ r)
   /\ status_code st = kUnknown /\ initialized_ r' = initialized_ r) /\
  (host <> "" -> status_ok st = false -> init_status = ARES_SUCCESS ->
   dns_server <> "" ->
   grpc_parse_ipv4_hostport dns_server = None ->
   grpc_parse_ipv6_hostport dns_server = None ->
   (check_port = true -> port = "" -> default_port_ r <> "") ->
   st = GRPC_ERROR_CREATE ("cannot parse authority " ++ dns_server)%string
   /\ status_code st = kUnknown /\ initialized_ r' = initialized_ r).
Proof.
  intros Hsplit Hinit.
  unfold Initialize in Hinit. run_monad_in Hinit. rewrite Hsplit in Hinit.
  split; [|split].
  - intros ->. run_monad_in Hinit. inversion Hinit; subst. auto.
  - intros Hh -> -> Hd. apply String.eqb_neq in Hh.
    rewrite Hh in Hinit. run_monad_in Hinit. rewrite Hd in Hinit.
    run_monad_in Hinit. inversion Hinit; subst. auto.
  - intros Hh Hbad -> Hdns H4 H6 Hdef.
    apply String.eqb_neq in Hh. apply String.eqb_neq in Hdns.
    rewrite Hh in Hinit. run_monad_in Hinit.
    destruct (check_port && String.eqb port "" && String.eqb (default_port_ r) "")
             eqn:Hc.
    + exfalso. apply andb_true_iff in Hc. destruct Hc as [Hc Hd].
      apply andb_true_iff in Hc. destruct Hc as [Hc Hp].
      apply String.eqb_eq in Hd, Hp. exact (Hdef Hc Hp Hd).
    + run_monad_in Hinit. unfold SetRequestDNSServer in Hinit.
      rewrite Hdns, H4, H6 in Hinit. run_monad_in Hinit.
      change (negb (ARES_SUCCESS =? ARES_SUCCESS)) with false in Hinit.
      cbv beta iota in Hinit.
      destruct (String.eqb (if check_port && String.eqb port ""
                            then default_port_ r else port) "");
        [|destruct (SimpleAtoi _); [|discriminate]];
        cbn in Hinit; injection Hinit as <- <-; auto.
Qed.

End Initialization.

(** ** What the bookkeeping methods leave alone *)

Lemma same_core_refl (r : Request) : same_core r r.
Proof. reflexivity. Qed.

Lemma same_core_trans (a b c : Request) :
  same_core a b -> same_core b c -> same_core a c.
Proof. unfold same_core. congruence. Qed.

Lemma no_new_query_refl (r : Request) : no_new_query r r.
Proof. exists []. split; [symmetry; apply app_nil_r|reflexivity]. Qed.

Lemma no_new_query_trans (a b c : Request) :
  no_new_query a b -> no_new_query b c -> no_new_query a c.
Proof.
  intros (x & Hx & Fx) (y & Hy & Fy). exists (x ++ y). split.
  - rewrite Hy, Hx, app_assoc. reflexivity.
  - rewrite filter_app, Fx, Fy. reflexivity.
Qed.

Ltac same_core_leaf := reflexivity.

Ltac no_new_query_leaf :=
  unfold no_new_query; run_fields;
  first [ exists []; split; [symmetry; apply app_nil_r|reflexivity]
        | eexists [_]; split; reflexivity ].

Ltac frame_core := preserve_with same_core_refl same_core_trans same_core_leaf.
Ltac frame_query :=
  preserve_with no_new_query_refl no_new_query_trans no_new_query_leaf.

Section Frames.

Context {env : Collaborators}.

Lemma CancelTimers_core : returns same_core CancelTimers.
Proof. unfold CancelTimers, emit, Unref. frame_core. Qed.

Lemma StartTimers_core : returns same_core StartTimers.
Proof. unfold StartTimers, emit, Ref, fresh. frame_core. Qed.

Lemma shutdown_node_core (status : Status) (n : FdNode) :
  returns same_core (shutdown_node status n).
Proof. unfold shutdown_node, emit. frame_core. Qed.

Lemma shutdown_nodes_core (status : Status) (l : list FdNode) :
  returns same_core (shutdown_nodes status l).
Proof.
  induction l as [|n l IH]; simpl; frame_core.
  - apply shutdown_node_core.
  - exact IH.
Qed.

Lemma ShutdownPollerHandlesLocked_core (status : Status) :
  returns same_core (ShutdownPollerHandlesLocked status).
Proof.
  unfold ShutdownPollerHandlesLocked. frame_core. apply shutdown_nodes_core.
Qed.

Lemma work_slot_core (gs : GetSock) (new_list : list FdNode) (i : nat) :
  returns same_core (work_slot gs new_list i).
Proof.
  unfold work_slot, emit, Ref, fresh. frame_core.
Qed.

Lemma work_slots_core (gs : GetSock) (slots : list nat) :
  forall new_list, returns same_core (work_slots gs new_list slots).
Proof.
  induction slots as [|i slots IH]; intros new_list; simpl; frame_core.
  - apply work_slot_core.
  - apply IH.
Qed.

Lemma work_remaining_core (l : list FdNode) :
  forall new_list, returns same_core (work_remaining l new_list).
Proof.
  induction l as [|n l IH]; intros new_list; simpl; unfold emit; frame_core;
    try apply shutdown_node_core; apply IH.
Qed.

Lemma Work_core (gs : GetSock) : returns same_core (Work gs).
Proof.
  unfold Work, emit. frame_core;
    first [apply work_slots_core | apply work_remaining_core].
Qed.

Lemma CancelTimers_query : returns no_new_query CancelTimers.
Proof. unfold CancelTimers, emit, Unref. frame_query. Qed.

Lemma StartTimers_query : returns no_new_query StartTimers.
Proof. unfold StartTimers, emit, Ref, fresh. frame_query. Qed.

Lemma shutdown_node_query (status : Status) (n : FdNode) :
  returns no_new_query (shutdown_node status n).
Proof. unfold shutdown_node, emit. frame_query. Qed.

Lemma work_slot_query (gs : GetSock) (new_list : list FdNode) (i : nat) :
  returns no_new_query (work_slot gs new_list i).
Proof.
  unfold work_slot, emit, Ref, fresh. frame_query.
Qed.

Lemma work_slots_query (gs : GetSock) (slots : list nat) :
  forall new_list, returns no_new_query (work_slots gs new_list slots).
Proof.
  induction slots as [|i slots IH]; intros new_list; simpl; frame_query.
  - apply work_slot_query.
  - apply IH.
Qed.

Lemma work_remaining_query (l : list FdNode) :
  forall new_list, returns no_new_query (work_remaining l new_list).
Proof.
  induction l as [|n l IH]; intros new_list; simpl; unfold emit; frame_query;
    try apply shutdown_node_query; apply IH.
Qed.

Lemma Work_query (gs : GetSock) : returns no_new_query (Work gs).
Proof.
  unfold Work, emit. frame_query;
    first [apply work_slots_query | apply work_remaining_query].
Qed.

End Frames.

(** ** Start of an SRV or TXT request for localhost *)

Section Localhost.

Context {env : Collaborators}.



End Localhost.

(** ** The hostname request *)

Section Hostname.

Context {env : Collaborators}.

Lemma SortResolvedAddresses_query : returns no_new_query SortResolvedAddresses.
Proof. unfold SortResolvedAddresses. frame_query. Qed.

Lemma Hostname_OnResolve_query (result : StatusOr (list ResolvedAddress)) :
  stops no_new_query (GrpcAresHostnameRequest_OnResolve result).
Proof.
  unfold GrpcAresHostnameRequest_OnResolve, Run, Unref. frame_query;
    first [ apply (returns_ends _ _ _ CancelTimers_query)
          | apply (returns_ends _ _ _ SortResolvedAddresses_query) ].
Qed.

Lemma OnHostbynameDoneLocked_query (qtype : string) (status : Z) (h : hostent) :
  stops no_new_query (OnHostbynameDoneLocked qtype status h).
Proof.
  unfold OnHostbynameDoneLocked. frame_query; apply Hostname_OnResolve_query.
Qed.

(** What [OnResolve] of the hostname request does, case by case. *)
Lemma Hostname_OnResolve_asserts (result : StatusOr (list ResolvedAddress))
      (r : Request) :
  pending_queries_ r <= 0 ->
  GrpcAresHostnameRequest_OnResolve result r = Abort r.
Proof.
  intros Hp. unfold GrpcAresHostnameRequest_OnResolve. do 1 step.
  replace (0 <? pending_queries_ r) with false
    by (symmetry; apply Z.ltb_ge; exact Hp).
  reflexivity.
Qed.

Lemma Hostname_OnResolve_not_last (result : StatusOr (list ResolvedAddress))
      (r : Request) :
  1 < pending_queries_ r ->
  GrpcAresHostnameRequest_OnResolve result r = Ret tt (absorb result r).
Proof.
  intros Hp.
  assert (H1 : (0 <? pending_queries_ r) = true) by (apply Z.ltb_lt; lia).
  assert (H2 : (pending_queries_ r - 1 =? 0) = false) by (apply Z.eqb_neq; lia).
  unfold GrpcAresHostnameRequest_OnResolve, absorb.
  destruct result; run_monad; rewrite H1; run_monad; rewrite H2; reflexivity.
Qed.

Lemma Hostname_OnResolve_cancelled (result : StatusOr (list ResolvedAddress))
      (r : Request) :
  pending_queries_ r = 1 -> cancelled_ r = true ->
  GrpcAresHostnameRequest_OnResolve result r
  = Ret tt (set_refs_ (refs_ r - 1) (absorb result r)).
Proof.
  intros Hp Hc.
  unfold GrpcAresHostnameRequest_OnResolve, absorb.
  destruct result; run_monad; rewrite Hp; cbn [Z.ltb Z.compare Z.sub Z.eqb];
    run_monad; cbn; rewrite Hc; reflexivity.
Qed.

Lemma Hostname_OnResolve_last (result : StatusOr (list ResolvedAddress))
      (r : Request) :
  pending_queries_ r = 1 -> cancelled_ r = false ->
  exists r2,
    same_core (set_shutting_down_ true (absorb result r)) r2 /\
    GrpcAresHostnameRequest_OnResolve result r
    = match result_ (absorb result r) with
      | _ :: _ =>
        Ret tt
          (set_refs_ (refs_ r2 - 1)
             (set_result_ []
                (set_on_resolve_ false
                   (set_run_queue_
                      (run_queue_ r2
                         ++ [on_resolve_hostname
                               (SoValue (sorted_addresses
                                           (result_ (absorb result r))))])
                      (set_result_
                         (sorted_addresses (result_ (absorb result r))) r2)))))
      | [] =>
        if status_ok (error_ (absorb result r)) then Abort r2
        else
          Ret tt
            (set_refs_ (refs_ r2 - 1)
               (set_on_resolve_ false
                  (set_run_queue_
                     (run_queue_ r2
                        ++ [on_resolve_hostname
                              (SoError (error_ (absorb result r)))])
                     r2)))
      end.
Proof.
  intros Hp Hc.
  destruct (CancelTimers_core (set_shutting_down_ true (absorb result r)))
    as ([] & r2 & E & Hcore).
  exists r2. split; [exact Hcore|].
  assert (Hres : result_ r2 = result_ (absorb result r))
    by (unfold same_core, core in Hcore; run_fields_in Hcore; congruence).
  assert (Herr : error_ r2 = error_ (absorb result r))
    by (unfold same_core, core in Hcore; run_fields_in Hcore; congruence).
  unfold GrpcAresHostnameRequest_OnResolve.
  do 2 step. rewrite Hp. change (0 <? 1) with true. cbv beta iota.
  destruct result as [addrs|s]; cbn [absorb] in *; run_fields_in Hres;
    run_fields_in Herr; rewrite Hp in E |- *;
    do 3 step; change (1 - 1 =? 0) with true; cbv beta iota;
    step; rewrite Hc; step; rewrite bind_unfold, E.
  - step. rewrite Hres.
    destruct (result_ r ++ addrs) eqn:Hl; [|unfold SortResolvedAddresses];
      repeat step; rewrite ?Hres, ?Herr, ?Hl.
    + destruct (status_ok (error_ r)); reflexivity.
    + reflexivity.
  - step. rewrite Hres.
    destruct (result_ r) eqn:Hl; [|unfold SortResolvedAddresses];
      repeat step; rewrite ?Hres, ?Herr, ?Hl.
    + destruct (status_ok (grpc_error_add_child (error_ r) s)); reflexivity.
    + reflexivity.
Qed.

(** A completion that is not the last one only takes its result in. *)
Lemma OnHostbynameDoneLocked_not_last (qtype : string) (status : Z)
      (h : hostent) (r : Request) :
  1 < pending_queries_ r ->
  exists r',
    OnHostbynameDoneLocked qtype status h r = Ret tt r' /\
    trace_ r' = trace_ r /\
    pending_queries_ r' = pending_queries_ r - 1 /\
    host_ r' = host_ r /\
    run_queue_ r' = run_queue_ r /\
    shutting_down_ r' = shutting_down_ r.
Proof.
  intros Hp.
  assert (H1 : (0 <? pending_queries_ r) = true) by (apply Z.ltb_lt; lia).
  assert (H2 : (pending_queries_ r - 1 =? 0) = false) by (apply Z.eqb_neq; lia).
  unfold OnHostbynameDoneLocked, GrpcAresHostnameRequest_OnResolve.
  destruct (negb (status =? ARES_SUCCESS)); run_monad; rewrite H1; run_monad;
    rewrite H2; eexists; (split; [reflexivity|]); run_fields; repeat split.
Qed.

Lemma ResolveAsIPLiteralLocked_not_literal (r : Request) :
  grpc_parse_ipv4_hostport (JoinHostPort (host_ r) (port_ r)) = None ->
  grpc_parse_ipv6_hostport (JoinHostPort (host_ r) (port_ r)) = None ->
  ResolveAsIPLiteralLocked r = Ret false r.
Proof.
  intros H4 H6. unfold ResolveAsIPLiteralLocked. run_monad.
  rewrite H4, H6. reflexivity.
Qed.

(** The rest of [Start] from the A lookup on. *)
Lemma hostname_start_tail (inline_a : option (Z * hostent)) (gs : GetSock)
      (r : Request) :
  match (gethostbyname AF_INET "A" inline_a ;;
         sd <- gets shutting_down_ ;;
         when (negb sd) (Work gs ;; StartTimers) ;;
         Unref) r with
  | Ret _ r' | Abort r' =>
    exists added,
      trace_ r' = trace_ r ++ added /\
      filter is_query added
      = [ares_gethostbyname (c_str (host_ r)) AF_INET "A" (pending_queries_ r)]
  | Fault => False
  end.
Proof.
  unfold gethostbyname. do 3 step.
  assert (Hrest : stops no_new_query
            (deliver_inline
               (option_map (fun c => HostbynameDone "A" (fst c) (snd c)) inline_a) ;;
             sd <- gets shutting_down_ ;;
             when (negb sd) (Work gs ;; StartTimers) ;;
             Unref)).
  { destruct inline_a as [[st h]|];
      cbn [deliver_inline option_map deliver fst snd]; unfold Unref;
      frame_query;
      first [ apply OnHostbynameDoneLocked_query
            | apply (returns_ends _ _ _ (Work_query gs))
            | apply (returns_ends _ _ _ StartTimers_query) ]. }
  match goal with
  | |- match ?m ?s with _ => _ end =>
    pose proof (Hrest s) as H; change (match m s with
                                        | Ret _ r' => no_new_query s r'
                                        | Abort r' => no_new_query s r'
                                        | Fault => False
                                        end) in H;
      destruct (m s) as [a r'|r'|]
  end; try exact H;
    destruct H as (added & Ht & Hf); run_fields_in Ht;
      exists (ares_gethostbyname (c_str (host_ r)) AF_INET "A"
                                 (pending_queries_ r) :: added);
      (split; [rewrite Ht, <- app_assoc; reflexivity|cbn; rewrite Hf; reflexivity]).
Qed.

(** C4. On the path of [Start] that asks the stub, for a request that
    has no query pending: the first [ares_gethostbyname] call finds
    [pending_queries_] at the number of lookups [Start] issues, two when
    the IPv6 loopback is available and one otherwise; the AAAA lookup is
    issued exactly in the first case and before the A lookup, which is
    always issued; and the A lookup finds one query less only when the
    AAAA lookup completed inline. [Start] issues no other query. *)
Theorem hostname_start_queries (r : Request)
        (inline_aaaa inline_a : option (Z * hostent)) (gs : GetSock) :
  initialized_ r = true ->
  pending_queries_ r = 0 ->
  grpc_parse_ipv4_hostport (JoinHostPort (host_ r) (port_ r)) = None ->
  grpc_parse_ipv6_hostport (JoinHostPort (host_ r) (port_ r)) = None ->
  match GrpcAresHostnameRequest_Start inline_aaaa inline_a gs r with
  | Ret _ r' | Abort r' =>
    exists added,
      trace_ r' = trace_ r ++ added /\
      filter is_query added
      = if IsIpv6LoopbackAvailable then
          [ ares_gethostbyname (c_str (host_ r)) AF_INET6 "AAAA" 2;
            ares_gethostbyname (c_str (host_ r)) AF_INET "A"
              (match inline_aaaa with Some _ => 1 | None => 2 end) ]
        else [ ares_gethostbyname (c_str (host_ r)) AF_INET "A" 1 ]
  | Fault => False
  end.
Proof.
  intros Hinit Hpend H4 H6.
  unfold GrpcAresHostnameRequest_Start.
  do 2 step. rewrite Hinit. do 2 step.
  rewrite bind_unfold, ResolveAsIPLiteralLocked_not_literal
    by (run_fields; assumption).
  unfold hostname_lookups. step. rewrite Hpend.
  destruct IsIpv6LoopbackAvailable.
  - do 2 step. unfold gethostbyname at 1. do 3 step.
    destruct inline_aaaa as [[st h]|];
      cbn [deliver_inline option_map deliver fst snd].
    + match goal with
      | |- context [OnHostbynameDoneLocked _ _ _ ?s] =>
        destruct (OnHostbynameDoneLocked_not_last "AAAA" st h s
                    ltac:(run_fields; lia))
          as (r3 & E & Ht & Hp & Hh & _)
      end.
      rewrite E. run_fields_in Ht. run_fields_in Hp. run_fields_in Hh.
      pose proof (hostname_start_tail inline_a gs r3) as H.
      run_prims_in H. rewrite Ht, Hp, Hh in H.
      match goal with
      | |- match ?X with _ => _ end => destruct X
      end; try exact H;
        destruct H as (added & Hr & Hf); eexists; rewrite Hr, <- app_assoc;
          (split; [reflexivity|cbn; rewrite Hf; reflexivity]).
    + cbv [ret].
      match goal with
      | |- match _ ?s with _ => _ end =>
        pose proof (hostname_start_tail inline_a gs s) as H
      end.
      run_prims_in H.
      match goal with
      | |- match ?X with _ => _ end => destruct X
      end; try exact H;
        destruct H as (added & Hr & Hf); eexists; rewrite Hr, <- app_assoc;
          (split; [reflexivity|cbn; rewrite Hf; reflexivity]).
  - step.
    match goal with
    | |- match _ ?s with _ => _ end =>
      pose proof (hostname_start_tail inline_a gs s) as H
    end.
    run_prims_in H.
    match goal with
    | |- match ?X with _ => _ end => destruct X
    end; exact H.
Qed.

End Hostname.

(** ** The socket-tracking loop *)

Section SocketTracking.

Context {env : Collaborators}.

Lemma PopFdNode_spec (l : list FdNode) (s : Z) :
  forall found rest, PopFdNode l s = (found, rest) ->
  (forall n, In n rest -> In n l) /\
  (forall n, In n l -> as_ n <> s -> In n rest) /\
  (forall m, found = Some m -> as_ m = s /\ In m l).
Proof.
  induction l as [|x l IH]; intros found rest H; simpl in H.
  - inversion H; subst. repeat split; try contradiction; discriminate.
  - destruct (as_ x =? s) eqn:E.
    + inversion H; subst. apply Z.eqb_eq in E. repeat split.
      * intros n Hn. right. exact Hn.
      * intros n [->|Hn] Hne; [contradiction|exact Hn].
      * inversion H0; subst. reflexivity.
      * inversion H0; subst. left. reflexivity.
    + destruct (PopFdNode l s) as [f tl] eqn:Ep. inversion H; subst.
      destruct (IH _ _ eq_refl) as (I1 & I2 & I3). repeat split.
      * intros n [->|Hn]; [left; reflexivity|right; apply I1, Hn].
      * intros n [->|Hn] Hne; [left; reflexivity|right; apply I2; assumption].
      * apply (I3 _ H0).
      * right. apply (I3 _ H0).
Qed.

Lemma shut_already (n : FdNode) : already_shutdown n = true -> shut n = n.
Proof. destruct n; simpl; intros ->; reflexivity. Qed.

Lemma shutdown_node_ok (n : FdNode) (r : Request) :
  shutdown_node OkStatus n r
  = Ret (shut n)
        (set_trace_
           (trace_ r ++ (if already_shutdown n then []
                         else [ShutdownLocked n OkStatus])) r).
Proof.
  unfold shutdown_node. destruct (already_shutdown n) eqn:E; run_monad.
  - rewrite (shut_already _ E), app_nil_r. destruct r; reflexivity.
  - reflexivity.
Qed.

Lemma work_remaining_spec (l : list FdNode) :
  forall new_list r,
    work_remaining l new_list r
    = Ret (rev (filter registered (map shut l)) ++ new_list)
          (set_trace_ (trace_ r ++ flat_map remaining_calls l) r).
Proof.
  induction l as [|n l IH]; intros new_list r.
  - simpl. rewrite app_nil_r. destruct r; reflexivity.
  - cbn [work_remaining]. rewrite bind_unfold, shutdown_node_ok.
    change (negb (readable_registered (shut n)) && negb (writable_registered (shut n)))
      with (negb (readable_registered n) && negb (writable_registered n)).
    rewrite <- negb_orb. fold (registered n).
    cbn [map filter flat_map]. change (registered (shut n)) with (registered n).
    unfold remaining_calls at 1.
    destruct (registered n); cbn [negb].
    + rewrite IH. run_fields. unfold PushFdNode. cbn [rev].
      rewrite <- !app_assoc. cbn [app]. reflexivity.
    + step. rewrite IH. run_fields. rewrite <- !app_assoc. reflexivity.
Qed.

Lemma work_slot_spec (gs : GetSock) (new_list : list FdNode) (i : nat)
      (r : Request) :
  exists nl r',
    work_slot gs new_list i r = Ret nl r' /\
    slots_done gs [i] new_list nl r r'.
Proof.
  unfold work_slot, slots_done, slots_sockets. cbn [filter map].
  fold (slot_active gs i). fold (slot_socket gs i).
  destruct (slot_active gs i) eqn:Ha.
  - step. destruct (PopFdNode (fd_node_list_ r) (slot_socket gs i))
      as [found rest] eqn:Ep.
    destruct (PopFdNode_spec _ _ _ _ Ep) as (P1 & P2 & P3).
    assert (Hfound : forall m, found = Some m -> as_ m = slot_socket gs i)
      by (intros m Hm; apply (P3 m Hm)).
    destruct found as [m|];
      [specialize (Hfound m eq_refl); destruct m as [id s rr wr sh];
       cbn [as_] in Hfound; destruct rr, wr
      |clear Hfound];
      destruct (ARES_GETSOCK_READABLE (socks_bitmask gs) i);
      destruct (ARES_GETSOCK_WRITABLE (socks_bitmask gs) i);
      run_monad;
      cbn [andb negb readable_registered writable_registered
           set_readable_registered set_writable_registered];
      (eexists; eexists; split; [reflexivity|]);
      run_fields; unfold PushFdNode;
      (split; [intros n Hn Hne; apply P2; [exact Hn|];
               intros Heq; apply Hne; left; symmetry; exact Heq|]);
      (split; [exact P1|]);
      (split; [intros x [<-|Hx]; [right; left; cbn; congruence|left; exact Hx]|]);
      eexists;
      (split; [first [ rewrite <- ?app_assoc; reflexivity
                     | symmetry; apply app_nil_r ]|]);
      repeat constructor.
  - run_monad. exists new_list, r. split; [reflexivity|].
    split; [intros n Hn _; exact Hn|]. split; [auto|]. split; [auto|].
    exists []. split; [symmetry; apply app_nil_r|constructor].
Qed.

Lemma slots_sockets_cons (gs : GetSock) (i : nat) (slots : list nat) :
  slots_sockets gs (i :: slots) = slots_sockets gs [i] ++ slots_sockets gs slots.
Proof.
  unfold slots_sockets. cbn [filter].
  destruct (slot_active gs i); reflexivity.
Qed.

Lemma work_slots_spec (gs : GetSock) (slots : list nat) :
  forall new_list r,
  exists nl r',
    work_slots gs new_list slots r = Ret nl r' /\
    slots_done gs slots new_list nl r r'.
Proof.
  induction slots as [|i slots IH]; intros new_list r.
  - exists new_list, r. split; [reflexivity|].
    split; [auto|]. split; [auto|]. split; [auto|].
    exists []. split; [symmetry; apply app_nil_r|constructor].
  - destruct (work_slot_spec gs new_list i r)
      as (nl1 & r1 & E1 & A1 & B1 & C1 & (t1 & T1 & F1)).
    destruct (IH nl1 r1) as (nl & r' & E & A & B & C & (t2 & T2 & F2)).
    exists nl, r'. split.
    + cbn [work_slots]. rewrite bind_unfold, E1. exact E.
    + unfold slots_done. rewrite slots_sockets_cons.
      split; [|split; [|split]].
      * intros n Hn Hne. apply A.
        -- apply A1; [exact Hn|]. intros Hi. apply Hne, in_or_app. left. exact Hi.
        -- intros Hi. apply Hne, in_or_app. right. exact Hi.
      * intros n Hn. apply B1, B, Hn.
      * intros m Hm. destruct (C m Hm) as [Hm1|Hs].
        -- destruct (C1 m Hm1) as [Hm0|Hs]; [left; exact Hm0|].
           right. apply in_or_app. left. exact Hs.
        -- right. apply in_or_app. right. exact Hs.
      * exists (t1 ++ t2). split.
        -- rewrite T2, T1, app_assoc. reflexivity.
        -- apply Forall_app. split; assumption.
Qed.

Lemma shut_registered (m n : FdNode) :
  shut m = shut n -> registered m = registered n /\ as_ m = as_ n.
Proof.
  destruct m, n. unfold shut, registered. cbn. intros H.
  inversion H; subst. split; reflexivity.
Qed.

Lemma remaining_shutdown (l : list FdNode) (n : FdNode) (status : Status) :
  In (ShutdownLocked n status) (flat_map remaining_calls l)
  <-> In n l /\ already_shutdown n = false /\ status = OkStatus.
Proof.
  rewrite in_flat_map. unfold remaining_calls. split.
  - intros (m & Hm & Hin). apply in_app_or in Hin. destruct Hin as [Hin|Hin].
    + destruct (already_shutdown m) eqn:E; [contradiction|].
      destruct Hin as [Heq|[]]. inversion Heq; subst. auto.
    + destruct (registered m); [contradiction|].
      destruct Hin as [Heq|[]]. discriminate.
  - intros (Hn & Hs & ->). exists n. split; [exact Hn|].
    apply in_or_app. left. rewrite Hs. left. reflexivity.
Qed.

Lemma remaining_delete (l : list FdNode) (x : FdNode) :
  In (DeleteFdNode x) (flat_map remaining_calls l)
  <-> exists m, In m l /\ x = shut m /\ registered m = false.
Proof.
  rewrite in_flat_map. unfold remaining_calls. split.
  - intros (m & Hm & Hin). apply in_app_or in Hin. destruct Hin as [Hin|Hin].
    + destruct (already_shutdown m); [contradiction|].
      destruct Hin as [Heq|[]]. discriminate.
    + destruct (registered m) eqn:E; [contradiction|].
      destruct Hin as [Heq|[]]. inversion Heq; subst. exists m. auto.
  - intros (m & Hm & -> & Hr). exists m. split; [exact Hm|].
    apply in_or_app. right. rewrite Hr. left. reflexivity.
Qed.

Lemma remaining_kept (l nl : list FdNode) (x : FdNode) :
  In x (rev (filter registered (map shut l)) ++ nl)
  <-> (exists m, In m l /\ x = shut m /\ registered m = true) \/ In x nl.
Proof.
  rewrite in_app_iff, <- in_rev, filter_In, in_map_iff. split.
  - intros [((m & <- & Hm) & Hr)|Hx]; [left|right; exact Hx].
    exists m. repeat split; assumption.
  - intros [(m & Hm & -> & Hr)|Hx]; [left|right; exact Hx].
    split; [exists m; split; [reflexivity|exact Hm]|exact Hr].
Qed.

Lemma no_teardown_in (t : list Call) (c : Call) :
  Forall (fun c => is_teardown c = false) t -> is_teardown c = true ->
  ~ In c t.
Proof.
  intros Hf Hc Hin. rewrite Forall_forall in Hf.
  specialize (Hf _ Hin). congruence.
Qed.

(** C3. [Work] returns, and for each node of the old list whose socket
    is not among those the stub is interested in (none is asked for once
    the request shuts down): [ShutdownLocked] is called on it, with an
    ok status, exactly when it was not shut down already; it is deleted
    exactly when no readiness closure of it is outstanding, and it is in
    the new list, shut down, exactly when one is. The new list holds
    nothing but such nodes and the nodes of the sockets of interest. *)
Theorem work_reconciles (gs : GetSock) (r : Request) :
  exists r' added,
    Work gs r = Ret tt r' /\
    trace_ r' = trace_ r ++ added /\
    (forall n, In n (fd_node_list_ r) ->
       shutting_down_ r = true \/ ~ In (as_ n) (interesting gs) ->
       (In (ShutdownLocked n OkStatus) added <-> already_shutdown n = false) /\
       (forall status, In (ShutdownLocked n status) added -> status = OkStatus) /\
       (In (DeleteFdNode (shut n)) added <-> registered n = false) /\
       (In (shut n) (fd_node_list_ r') <-> registered n = true)) /\
    (forall m, In m (fd_node_list_ r') ->
       (exists n, In n (fd_node_list_ r) /\ m = shut n /\ registered n = true)
       \/ (shutting_down_ r = false /\ In (as_ m) (interesting gs))).
Proof.
  assert (Hphase : exists nl r1 pre,
             (sd <- gets shutting_down_ ;;
              (if sd then ret []
               else emit ares_getsock ;;
                    work_slots gs [] (seq 0 ARES_GETSOCK_MAXNUM))) r
             = Ret nl r1 /\
             trace_ r1 = trace_ r ++ pre /\
             Forall (fun c => is_teardown c = false) pre /\
             (forall n, In n (fd_node_list_ r) ->
                shutting_down_ r = true \/ ~ In (as_ n) (interesting gs) ->
                In n (fd_node_list_ r1)) /\
             (forall n, In n (fd_node_list_ r1) -> In n (fd_node_list_ r)) /\
             (forall m, In m nl ->
                shutting_down_ r = false /\ In (as_ m) (interesting gs))).
  { step. destruct (shutting_down_ r) eqn:Hsd.
    - exists [], r, []. split; [reflexivity|].
      split; [symmetry; apply app_nil_r|]. split; [constructor|].
      split; [auto|]. split; [auto|]. intros m [].
    - step.
      match goal with
      | |- context [work_slots gs [] ?slots ?s] =>
        destruct (work_slots_spec gs slots [] s)
          as (nl & r1 & E & A & B & C & (t & T & Ft))
      end.
      run_fields_in A. run_fields_in B. run_fields_in T.
      exists nl, r1, (ares_getsock :: t). split; [exact E|].
      split; [rewrite T, <- app_assoc; reflexivity|].
      split; [constructor; [reflexivity|exact Ft]|].
      split; [intros n Hn [Hc|Hni]; [discriminate|apply A; assumption]|].
      split; [exact B|].
      intros m Hm. split; [reflexivity|].
      destruct (C m Hm) as [[]|Hs]. exact Hs. }
  destruct Hphase as (nl & r1 & pre & E1 & T1 & Fpre & Hkeep & Hsub & Hnl).
  unfold Work. rewrite <- bind_assoc, bind_unfold, E1.
  eexists. exists (pre ++ flat_map remaining_calls (fd_node_list_ r1)).
  split.
  { do 2 step. rewrite bind_unfold, work_remaining_spec. reflexivity. }
  run_fields.
  split; [rewrite T1, app_assoc; reflexivity|]. split.
  - intros n Hn Hout. specialize (Hkeep n Hn Hout).
    split; [|split; [|split]].
    + rewrite in_app_iff, remaining_shutdown. split.
      * intros [Hp|(_ & H & _)]; [|exact H].
        exfalso. eapply (no_teardown_in _ _ Fpre); [|exact Hp]. reflexivity.
      * intros H. right. auto.
    + intros status Hin. apply in_app_or in Hin. destruct Hin as [Hp|Hr].
      * exfalso. eapply (no_teardown_in _ _ Fpre); [|exact Hp]. reflexivity.
      * apply remaining_shutdown in Hr. apply Hr.
    + rewrite in_app_iff, remaining_delete. split.
      * intros [Hp|(m & Hm & Heq & Hr)].
        -- exfalso. eapply (no_teardown_in _ _ Fpre); [|exact Hp]. reflexivity.
        -- symmetry in Heq. destruct (shut_registered _ _ Heq) as [Hreg _].
           congruence.
      * intros H. right. exists n. auto.
    + rewrite remaining_kept. split.
      * intros [(m & Hm & Heq & Hr)|Hin].
        -- symmetry in Heq. destruct (shut_registered _ _ Heq) as [Hreg _].
           congruence.
        -- exfalso. destruct (Hnl _ Hin) as [Hsd Hint].
           destruct Hout as [Hc|Hni]; [congruence|].
           apply Hni. exact Hint.
      * intros H. left. exists n. auto.
  - intros m Hm. apply remaining_kept in Hm.
    destruct Hm as [(n & Hn & Heq & Hr)|Hin].
    + left. exists n. split; [apply Hsub, Hn|]. split; assumption.
    + right. apply Hnl, Hin.
Qed.

End SocketTracking.

(** ** What the callbacks preserve *)

Section Handlers.

Context {env : Collaborators}.

Variable R : Request -> Request -> Prop.
Hypothesis R_refl : forall r, R r r.
Hypothesis R_trans : forall a b c, R a b -> R b c -> R a c.
Hypothesis R_core : forall r r', same_core r r' -> R r r'.
Hypothesis R_shutting_down : forall r, R r (set_shutting_down_ true r).
Hypothesis R_cancelled : forall r, R r (set_cancelled_ true r).
Hypothesis R_on_resolve : forall b r, R r (set_on_resolve_ b r).
Hypothesis R_pending : forall v r, R r (set_pending_queries_ v r).
Hypothesis R_service_name : forall v r, R r (set_service_name_ v r).
Hypothesis R_config_name : forall v r, R r (set_config_name_ v r).
Hypothesis R_deliver : forall c, preserves R (deliver c).

Lemma core_ends {A} (m : M A) : returns same_core m -> preserves R m.
Proof.
  intros H r. destruct (H r) as (a & r' & E & Hc). rewrite E.
  apply R_core, Hc.
Qed.

Ltac handler_leaf :=
  first [ apply R_core; reflexivity
        | apply R_shutting_down
        | apply R_cancelled
        | apply R_on_resolve
        | apply R_pending
        | apply R_service_name
        | apply R_config_name ].

Ltac handler :=
  preserve_with R_refl R_trans handler_leaf;
  try first [ apply R_deliver
            | apply core_ends;
              first [ apply Work_core | apply StartTimers_core
                    | apply CancelTimers_core
                    | apply ShutdownPollerHandlesLocked_core ] ].

Lemma deliver_all_ends (cs : list Completion) : preserves R (deliver_all cs).
Proof. apply (ends_for_each _ _ R_refl R_trans), R_deliver. Qed.

Lemma deliver_inline_ends (c : option Completion) :
  preserves R (deliver_inline c).
Proof. destruct c; [apply R_deliver|apply (ends_ret _ _ R_refl)]. Qed.

Lemma process_readable_ends (s : Z) (rounds : list (list Completion)) :
  forall first, preserves R (process_readable s first rounds).
Proof.
  induction rounds as [|next rounds IH]; intros first; cbn [process_readable];
    unfold emit; handler; try apply deliver_all_ends. apply IH.
Qed.

Lemma OnReadable_ends (id : nat) (status : Status) (first : list Completion)
      (rounds : list (list Completion)) (gs : GetSock) :
  preserves R (OnReadable id status first rounds gs).
Proof.
  unfold OnReadable, captured_node, emit, Unref. handler;
    first [apply process_readable_ends | apply deliver_all_ends].
Qed.

Lemma OnWritable_ends (id : nat) (status : Status) (stub : list Completion)
      (gs : GetSock) :
  preserves R (OnWritable id status stub gs).
Proof.
  unfold OnWritable, captured_node, emit, Unref. handler;
    apply deliver_all_ends.
Qed.

Lemma OnQueryTimeout_ends : preserves R OnQueryTimeout.
Proof. unfold OnQueryTimeout, Unref. handler. Qed.

Lemma backup_poll_ends (l : list FdNode) :
  forall rounds, preserves R (backup_poll l rounds).
Proof.
  induction l as [|n l IH]; intros rounds; cbn [backup_poll]; unfold emit;
    handler; first [apply IH | apply deliver_all_ends].
Qed.

Lemma OnAresBackupPollAlarm_ends (rounds : list (list Completion))
      (gs : GetSock) :
  preserves R (OnAresBackupPollAlarm rounds gs).
Proof.
  unfold OnAresBackupPollAlarm, emit, Ref, Unref, fresh. handler.
  apply backup_poll_ends.
Qed.

Lemma Cancel_ends : preserves R Cancel.
Proof. unfold Cancel. handler. Qed.

Lemma on_object_ends {A} (m : M A) : preserves R m -> preserves R (on_object m).
Proof.
  intros H r. unfold on_object. destruct (0 <? refs_ r); [apply H|exact I].
Qed.

Lemma gethostbyname_ends (family : Z) (qtype : string)
      (inline : option (Z * hostent)) :
  preserves R (gethostbyname family qtype inline).
Proof. unfold gethostbyname, emit. handler. apply deliver_inline_ends. Qed.

Lemma hostname_lookups_ends (inline_aaaa inline_a : option (Z * hostent))
      (gs : GetSock) :
  preserves R (hostname_lookups inline_aaaa inline_a gs).
Proof.
  unfold hostname_lookups, Unref. handler; apply gethostbyname_ends.
Qed.

Lemma srv_query_ends (host : string) (inline : option (Z * Z * list SRVRecord))
      (gs : GetSock) :
  preserves R (srv_query host inline gs).
Proof. unfold srv_query, emit, Unref. handler. apply deliver_inline_ends. Qed.

Lemma txt_query_ends (host : string)
      (inline : option (Z * Z * list ares_txt_ext.t)) (gs : GetSock) :
  preserves R (txt_query host inline gs).
Proof. unfold txt_query, emit, Unref. handler. apply deliver_inline_ends. Qed.

End Handlers.

(** ** Cancellation *)

Lemma quiet_refl (r : Request) : quiet r r.
Proof. unfold quiet. auto. Qed.

Lemma quiet_trans (a b c : Request) : quiet a b -> quiet b c -> quiet a c.
Proof.
  intros (A1 & A2 & A3 & A4) (B1 & B2 & B3 & B4). unfold quiet.
  split; [auto|]. split; [|split].
  - intros Hc. destruct (A2 Hc) as [Hb Hq]. destruct (B2 Hb) as [Hc' Hq'].
    split; [exact Hc'|congruence].
  - intros Hs. assert (Hb : shutting_down_ b = false).
    { destruct (shutting_down_ b) eqn:E; [|reflexivity].
      rewrite (B1 eq_refl) in Hs. discriminate. }
    rewrite (B3 Hs), (A3 Hb). reflexivity.
  - congruence.
Qed.

Lemma same_core_fields (r r' : Request) :
  same_core r r' ->
  shutting_down_ r' = shutting_down_ r /\
  cancelled_ r' = cancelled_ r /\
  run_queue_ r' = run_queue_ r /\
  invoked_ r' = invoked_ r /\
  host_ r' = host_ r /\
  port_ r' = port_ r /\
  result_ r' = result_ r /\
  error_ r' = error_ r /\
  pending_queries_ r' = pending_queries_ r /\
  initialized_ r' = initialized_ r.
Proof.
  unfold same_core, core. intros H. inversion H. repeat split; assumption.
Qed.

Lemma quiet_core (r r' : Request) : same_core r r' -> quiet r r'.
Proof.
  unfold same_core, core, quiet. intros H. inversion H as [H'].
  repeat split; congruence.
Qed.

(** A method that ends with the request shut down, its queue extended,
    and that was not entered on a cancelled request. *)
Lemma quiet_posted (r r' : Request) :
  cancelled_ r = false -> shutting_down_ r' = true ->
  invoked_ r' = invoked_ r -> quiet r r'.
Proof.
  intros Hc Hs Hi. unfold quiet. repeat split; try congruence.
Qed.

Section Cancellation.

Context {env : Collaborators}.

Lemma SRV_OnResolve_spec (result : StatusOr (list SRVRecord)) (r : Request) :
  (cancelled_ r = true ->
   GrpcAresSRVRequest_OnResolve result r = Ret tt (set_refs_ (refs_ r - 1) r)) /\
  (cancelled_ r = false ->
   exists r2,
     same_core (set_shutting_down_ true r) r2 /\
     GrpcAresSRVRequest_OnResolve result r
     = Ret tt (set_refs_ (refs_ r2 - 1)
                 (set_on_resolve_ false
                    (set_run_queue_ (run_queue_ r2 ++ [on_resolve_srv result])
                                    r2)))).
Proof.
  unfold GrpcAresSRVRequest_OnResolve. split; intros Hc.
  - step. rewrite Hc. reflexivity.
  - destruct (CancelTimers_core (set_shutting_down_ true r))
      as ([] & r2 & E & Hcore).
    exists r2. split; [exact Hcore|].
    step. rewrite Hc. step. rewrite bind_unfold, E. repeat step. reflexivity.
Qed.

Lemma TXT_OnResolve_spec (result : StatusOr string) (r : Request) :
  (cancelled_ r = true ->
   GrpcAresTXTRequest_OnResolve result r = Ret tt (set_refs_ (refs_ r - 1) r)) /\
  (cancelled_ r = false ->
   exists r2,
     same_core (set_shutting_down_ true r) r2 /\
     GrpcAresTXTRequest_OnResolve result r
     = Ret tt (set_refs_ (refs_ r2 - 1)
                 (set_on_resolve_ false
                    (set_run_queue_ (run_queue_ r2 ++ [on_resolve_txt result])
                                    r2)))).
Proof.
  unfold GrpcAresTXTRequest_OnResolve. split; intros Hc.
  - step. rewrite Hc. reflexivity.
  - destruct (CancelTimers_core (set_shutting_down_ true r))
      as ([] & r2 & E & Hcore).
    exists r2. split; [exact Hcore|].
    step. rewrite Hc. step. rewrite bind_unfold, E. repeat step. reflexivity.
Qed.

Lemma SRV_OnResolve_quiet (result : StatusOr (list SRVRecord)) :
  preserves quiet (GrpcAresSRVRequest_OnResolve result).
Proof.
  intros r. destruct (SRV_OnResolve_spec result r) as [Hyes Hno].
  destruct (cancelled_ r) eqn:Hc.
  - rewrite (Hyes eq_refl). apply quiet_core. reflexivity.
  - destruct (Hno eq_refl) as (r2 & Hcore & E). rewrite E.
    apply same_core_fields in Hcore. run_fields_in Hcore.
    apply quiet_posted; run_fields; [exact Hc|apply Hcore|apply Hcore].
Qed.

Lemma TXT_OnResolve_quiet (result : StatusOr string) :
  preserves quiet (GrpcAresTXTRequest_OnResolve result).
Proof.
  intros r. destruct (TXT_OnResolve_spec result r) as [Hyes Hno].
  destruct (cancelled_ r) eqn:Hc.
  - rewrite (Hyes eq_refl). apply quiet_core. reflexivity.
  - destruct (Hno eq_refl) as (r2 & Hcore & E). rewrite E.
    apply same_core_fields in Hcore. run_fields_in Hcore.
    apply quiet_posted; run_fields; [exact Hc|apply Hcore|apply Hcore].
Qed.

Lemma absorb_fields (result : StatusOr (list ResolvedAddress)) (r : Request) :
  shutting_down_ (absorb result r) = shutting_down_ r /\
  cancelled_ (absorb result r) = cancelled_ r /\
  run_queue_ (absorb result r) = run_queue_ r /\
  invoked_ (absorb result r) = invoked_ r /\
  host_ (absorb result r) = host_ r /\
  port_ (absorb result r) = port_ r.
Proof. destruct result; repeat split. Qed.

Lemma Hostname_OnResolve_quiet (result : StatusOr (list ResolvedAddress)) :
  preserves quiet (GrpcAresHostnameRequest_OnResolve result).
Proof.
  intros r. destruct (absorb_fields result r) as (As & Ac & Aq & Ai & _).
  destruct (Z_le_gt_dec (pending_queries_ r) 0) as [Hle|Hgt].
  { rewrite (Hostname_OnResolve_asserts _ _ Hle). apply quiet_refl. }
  destruct (Z.eq_dec (pending_queries_ r) 1) as [H1|Hne].
  2:{ rewrite (Hostname_OnResolve_not_last result r ltac:(lia)).
      unfold quiet. rewrite As, Ac, Aq, Ai. auto. }
  destruct (cancelled_ r) eqn:Hc.
  { rewrite (Hostname_OnResolve_cancelled _ _ H1 Hc).
    unfold quiet. run_fields. rewrite As, Ac, Aq, Ai. auto. }
  destruct (Hostname_OnResolve_last result r H1 Hc) as (r2 & Hcore & E).
  rewrite E. apply same_core_fields in Hcore. run_fields_in Hcore.
  destruct Hcore as (Hs & Hcc & Hq & Hi & _). rewrite Ai in Hi.
  destruct (result_ (absorb result r)).
  - destruct (status_ok (error_ (absorb result r)));
      apply quiet_posted; run_fields; assumption.
  - apply quiet_posted; run_fields; assumption.
Qed.

Lemma deliver_quiet (c : Completion) : preserves quiet (deliver c).
Proof.
  destruct c; cbn [deliver].
  - unfold OnHostbynameDoneLocked.
    preserve_with quiet_refl quiet_trans idtac;
      apply Hostname_OnResolve_quiet.
  - unfold OnSRVQueryDoneLocked.
    preserve_with quiet_refl quiet_trans idtac; apply SRV_OnResolve_quiet.
  - unfold OnTXTDoneLocked.
    preserve_with quiet_refl quiet_trans idtac; apply TXT_OnResolve_quiet.
Qed.

Lemma Event_is_engine (e : Event) : e = EvEngineRuns \/ e <> EvEngineRuns.
Proof. destruct e; [right|right|right|right|right|left]; congruence. Qed.

Lemma quiet_shutting_down (r : Request) : quiet r (set_shutting_down_ true r).
Proof. unfold quiet. run_fields. repeat split; auto; discriminate. Qed.

Lemma quiet_cancelled (r : Request) : quiet r (set_cancelled_ true r).
Proof. unfold quiet. run_fields. repeat split; auto. Qed.

Lemma quiet_on_resolve (b : bool) (r : Request) : quiet r (set_on_resolve_ b r).
Proof. unfold quiet. run_fields. repeat split; auto. Qed.

Lemma quiet_pending (v : Z) (r : Request) : quiet r (set_pending_queries_ v r).
Proof. unfold quiet. run_fields. repeat split; auto. Qed.

Lemma quiet_service_name (v : string) (r : Request) :
  quiet r (set_service_name_ v r).
Proof. unfold quiet. run_fields. repeat split; auto. Qed.

Lemma quiet_config_name (v : string) (r : Request) :
  quiet r (set_config_name_ v r).
Proof. unfold quiet. run_fields. repeat split; auto. Qed.

Create HintDb quiet.

#[local] Hint Resolve quiet_refl quiet_trans quiet_core quiet_shutting_down
  quiet_cancelled quiet_on_resolve quiet_pending quiet_service_name
  quiet_config_name deliver_quiet : quiet.

(** Every callback of a started request is quiet. *)
Lemma handler_quiet (e : Event) :
  e <> EvEngineRuns -> preserves quiet (step e).
Proof.
  intros He. destruct e; cbn [step]; try congruence; apply on_object_ends.
  - apply (ends_bind _ _ quiet_trans);
      [eapply Cancel_ends; eauto with quiet
      |intros _; apply (ends_ret _ _ quiet_refl)].
  - eapply OnReadable_ends; eauto with quiet.
  - eapply OnWritable_ends; eauto with quiet.
  - eapply OnQueryTimeout_ends; eauto with quiet.
  - eapply OnAresBackupPollAlarm_ends; eauto with quiet.
Qed.

Lemma Cancel_spec (r : Request) :
  (shutting_down_ r = true ->
   Cancel r = Ret false (set_shutting_down_ true r)) /\
  (shutting_down_ r = false ->
   exists r2,
     Cancel r = Ret true r2 /\
     same_core (set_cancelled_ true (set_shutting_down_ true r)) r2).
Proof.
  unfold Cancel. split; intros Hs.
  - do 2 step. rewrite Hs. reflexivity.
  - destruct (CancelTimers_core (set_cancelled_ true (set_shutting_down_ true r)))
      as ([] & ra & Ea & Ha).
    destruct (ShutdownPollerHandlesLocked_core
                (StatusCreate kCancelled "Cancel" []) ra)
      as ([] & rb & Eb & Hb).
    exists rb. split; [|eapply same_core_trans; eassumption].
    do 2 step. rewrite Hs. step. rewrite bind_unfold, Ea, bind_unfold, Eb.
    reflexivity.
Qed.

Lemma ResolveAsIPLiteralLocked_spec (r : Request) :
  ResolveAsIPLiteralLocked r = Ret false r \/
  exists addr,
    (grpc_parse_ipv4_hostport (JoinHostPort (host_ r) (port_ r)) = Some addr \/
     grpc_parse_ipv6_hostport (JoinHostPort (host_ r) (port_ r)) = Some addr) /\
    ResolveAsIPLiteralLocked r
    = Ret true
          (set_on_resolve_ false
             (set_run_queue_
                (run_queue_ r ++ [on_resolve_hostname (SoValue [addr])]) r)).
Proof.
  unfold ResolveAsIPLiteralLocked. do 2 step.
  destruct (grpc_parse_ipv4_hostport _) as [a|] eqn:E4.
  - right. exists a. split; [left; reflexivity|]. repeat step. reflexivity.
  - destruct (grpc_parse_ipv6_hostport _) as [a|] eqn:E6.
    + right. exists a. split; [right; reflexivity|]. repeat step. reflexivity.
    + left. reflexivity.
Qed.

(** [Start] leaves nothing waiting in the engine on a request that is
    still referenced: on its early outs it releases the reference the
    request was created with. *)
Lemma Start_nothing_waiting (s : StartCall) (r0 r : Request) :
  refs_ r0 = 1 -> run_queue_ r0 = [] ->
  Start s r0 = Ret tt r -> nothing_waiting r.
Proof.
  intros Hrefs Hq Hrun. destruct s as [ia i4 gs|i gs|i gs]; cbn [Start] in Hrun.
  - unfold GrpcAresHostnameRequest_Start in Hrun.
    rewrite bind_unfold in Hrun. run_prims_in Hrun.
    rewrite bind_unfold in Hrun. run_prims_in Hrun.
    destruct (initialized_ r0); [|rewrite bind_unfold in Hrun; discriminate].
    do 2 (rewrite bind_unfold in Hrun; run_prims_in Hrun).
    rewrite bind_unfold in Hrun.
    match type of Hrun with
    | context [ResolveAsIPLiteralLocked ?x] =>
      destruct (ResolveAsIPLiteralLocked_spec x) as [E|(addr & _ & E)];
        rewrite E in Hrun
    end.
    + pose proof (hostname_lookups_ends quiet quiet_refl quiet_trans quiet_core
                    quiet_pending deliver_quiet ia i4 gs
                    (set_on_resolve_ true (set_refs_ (refs_ r0 + 1) r0))) as H.
      rewrite Hrun in H. destruct H as (_ & _ & H & _).
      intros _ Hs. rewrite (H Hs). exact Hq.
    + run_monad_in Hrun. inversion Hrun; subst.
      intros Halive. run_fields_in Halive. lia.
  - unfold GrpcAresSRVRequest_Start in Hrun.
    rewrite bind_unfold in Hrun. run_prims_in Hrun.
    rewrite bind_unfold in Hrun. run_prims_in Hrun.
    destruct (initialized_ r0); [|rewrite bind_unfold in Hrun; discriminate].
    do 2 (rewrite bind_unfold in Hrun; run_prims_in Hrun).
    destruct (gpr_stricmp _ _ =? 0).
    + run_monad_in Hrun. inversion Hrun; subst.
      intros Halive. run_fields_in Halive. lia.
    + pose proof (srv_query_ends quiet quiet_refl quiet_trans quiet_core
                    quiet_on_resolve quiet_service_name deliver_quiet
                    (host_ r0) i gs (set_refs_ (refs_ r0 + 1) r0)) as H.
      rewrite Hrun in H. destruct H as (_ & _ & H & _).
      intros _ Hs. rewrite (H Hs). exact Hq.
  - unfold GrpcAresTXTRequest_Start in Hrun.
    rewrite bind_unfold in Hrun. run_prims_in Hrun.
    rewrite bind_unfold in Hrun. run_prims_in Hrun.
    destruct (initialized_ r0); [|rewrite bind_unfold in Hrun; discriminate].
    do 2 (rewrite bind_unfold in Hrun; run_prims_in Hrun).
    destruct (gpr_stricmp _ _ =? 0).
    + run_monad_in Hrun. inversion Hrun; subst.
      intros Halive. run_fields_in Halive. lia.
    + pose proof (txt_query_ends quiet quiet_refl quiet_trans quiet_core
                    quiet_on_resolve quiet_config_name deliver_quiet
                    (host_ r0) i gs (set_refs_ (refs_ r0 + 1) r0)) as H.
      rewrite Hrun in H. destruct H as (_ & _ & H & _).
      intros _ Hs. rewrite (H Hs). exact Hq.
Qed.

Lemma engine_runs_spec (r : Request) :
  engine_runs r
  = Ret tt match run_queue_ r with
           | [] => r
           | c :: q => set_invoked_ (invoked_ r ++ [c]) (set_run_queue_ q r)
           end.
Proof.
  unfold engine_runs. step. destruct (run_queue_ r); [reflexivity|].
  repeat step. reflexivity.
Qed.

Lemma step_nothing_waiting (e : Event) (r r' : Request) :
  nothing_waiting r -> step e r = Ret tt r' -> nothing_waiting r'.
Proof.
  intros Hnw Hstep.
  destruct (Event_is_engine e) as [->|He].
  - cbn [step] in Hstep. rewrite engine_runs_spec in Hstep.
    inversion Hstep; subst. clear Hstep. intros Halive Hs.
    destruct (run_queue_ r) as [|c q] eqn:Hq; [exact Hq|].
    run_fields_in Halive. run_fields_in Hs.
    rewrite (Hnw Halive Hs) in Hq. discriminate.
  - pose proof (handler_quiet e He r) as Hquiet. rewrite Hstep in Hquiet.
    assert (Halive : 0 < refs_ r).
    { destruct e; cbn [step] in Hstep; try congruence;
        unfold on_object in Hstep;
        destruct (0 <? refs_ r) eqn:E; try discriminate;
          apply Z.ltb_lt; exact E. }
    destruct Hquiet as (Hmono & _ & Hsame & _).
    intros _ Hs. rewrite (Hsame Hs). apply Hnw; [exact Halive|].
    destruct (shutting_down_ r); [|reflexivity].
    rewrite (Hmono eq_refl) in Hs. discriminate.
Qed.

Lemma run_events_nothing_waiting (evs : list Event) :
  forall r r', nothing_waiting r -> run_events evs r = Ret tt r' ->
               nothing_waiting r'.
Proof.
  induction evs as [|e evs IH]; intros r r' Hnw Hrun.
  - inversion Hrun; subst. exact Hnw.
  - cbn [run_events for_each] in Hrun.
    apply bind_ret_inv in Hrun. destruct Hrun as ([] & r1 & E1 & E2).
    eapply IH; [|exact E2]. eapply step_nothing_waiting; eassumption.
Qed.

Lemma step_silenced (delivered : list Closure) (e : Event) :
  preserves (keeps (silenced delivered)) (step e).
Proof.
  intros r. destruct (Event_is_engine e) as [->|He].
  - cbn [step]. rewrite engine_runs_spec. intros (Hc & Hq & Hi).
    rewrite Hq. repeat split; assumption.
  - pose proof (handler_quiet e He r) as Hquiet.
    destruct (step e r) as [[] r'|r'|]; [| |exact I];
      destruct Hquiet as (_ & Hcanc & _ & Hinv);
      intros (Hc & Hq & Hi); destruct (Hcanc Hc) as [Hc' Hq'];
      repeat split; congruence.
Qed.

Lemma keeps_refl (I : Request -> Prop) (r : Request) : keeps I r r.
Proof. intros H. exact H. Qed.

Lemma keeps_trans (I : Request -> Prop) (a b c : Request) :
  keeps I a b -> keeps I b c -> keeps I a c.
Proof. unfold keeps. auto. Qed.

Lemma run_events_silenced (delivered : list Closure) (evs : list Event) :
  preserves (keeps (silenced delivered)) (run_events evs).
Proof.
  apply (ends_for_each _ _ (keeps_refl _) (keeps_trans _)).
  apply step_silenced.
Qed.

(** X23. A request is created with one reference and started, and any
    callbacks run. A call of [Cancel] then returns true exactly when
    [shutting_down_] was still false, and leaves it true, so that a
    later [Cancel] returns false. When it has returned true, nothing was
    waiting in the event engine, and whatever runs afterwards, every
    completion finds [cancelled_] set and hands nothing to the engine:
    the user callback is invoked no more. *)
Theorem cancel_first_and_silent (r0 : Request) (s : StartCall)
        (before : list Event) (r1 r2 : Request) (b : bool) :
  refs_ r0 = 1 ->
  run_queue_ r0 = [] ->
  (Start s ;; run_events before) r0 = Ret tt r1 ->
  on_object Cancel r1 = Ret b r2 ->
  (b = true <-> shutting_down_ r1 = false) /\
  shutting_down_ r2 = true /\
  (forall r3, on_object Cancel r2 <> Ret true r3) /\
  (b = true ->
   cancelled_ r2 = true /\
   forall after,
     match run_events after r2 with
     | Ret _ r3 | Abort r3 =>
       invoked_ r3 = invoked_ r1 /\ run_queue_ r3 = [] /\ cancelled_ r3 = true
     | Fault => True
     end).
Proof.
  intros Hrefs Hq Hrun Hcancel.
  apply bind_ret_inv in Hrun. destruct Hrun as ([] & ra & Estart & Ebefore).
  pose proof (Start_nothing_waiting _ _ _ Hrefs Hq Estart) as Hnw.
  pose proof (run_events_nothing_waiting _ _ _ Hnw Ebefore) as Hnw1.
  unfold on_object in Hcancel.
  destruct (0 <? refs_ r1) eqn:Halive; [|discriminate].
  apply Z.ltb_lt in Halive.
  destruct (Cancel_spec r1) as [Hwas Hfirst].
  assert (Hs2 : shutting_down_ r2 = true).
  { destruct (shutting_down_ r1) eqn:Hs.
    - rewrite (Hwas eq_refl) in Hcancel. inversion Hcancel; subst. reflexivity.
    - destruct (Hfirst eq_refl) as (rc & Ec & Hcore).
      rewrite Ec in Hcancel. inversion Hcancel; subst.
      apply same_core_fields in Hcore. apply Hcore. }
  split; [|split; [exact Hs2|split]].
  - destruct (shutting_down_ r1) eqn:Hs.
    + rewrite (Hwas eq_refl) in Hcancel. inversion Hcancel; subst.
      split; discriminate.
    + destruct (Hfirst eq_refl) as (rc & Ec & _).
      rewrite Ec in Hcancel. inversion Hcancel; subst. split; reflexivity.
  - intros r3 H. unfold on_object in H. destruct (0 <? refs_ r2); [|discriminate].
    rewrite (proj1 (Cancel_spec r2) Hs2) in H. discriminate.
  - intros ->. destruct (shutting_down_ r1) eqn:Hs.
    { rewrite (Hwas eq_refl) in Hcancel. discriminate. }
    destruct (Hfirst eq_refl) as (rc & Ec & Hcore).
    rewrite Ec in Hcancel. inversion Hcancel; subst. clear Hcancel.
    apply same_core_fields in Hcore. run_fields_in Hcore.
    destruct Hcore as (_ & Hc & Hqueue & Hinv & _).
    assert (Hsil : silenced (invoked_ r1) r2).
    { repeat split; try assumption. rewrite Hqueue. apply Hnw1; assumption. }
    split; [exact Hc|]. intros after.
    pose proof (run_events_silenced (invoked_ r1) after r2) as H.
    destruct (run_events after r2) as [[] r3|r3|]; [| |exact I];
      destruct (H Hsil) as (H1 & H2 & H3); auto.
Qed.

End Cancellation.

(** ** The port of the delivered addresses *)

Lemma hostent_addresses_port (port : Z) (h : hostent) :
  Forall (fun a => sin_port a = htons port) (hostent_addresses port h).
Proof.
  unfold hostent_addresses. apply Forall_forall. intros a Ha.
  apply in_flat_map in Ha. destruct Ha as (raw & _ & Ha).
  unfold hostent_address in Ha.
  destruct (h_addrtype h =? AF_INET6);
    [|destruct (h_addrtype h =? AF_INET)];
    try (destruct Ha as [<-|[]]; reflexivity).
  contradiction.
Qed.

Lemma In_firstn {A} (n : nat) (l : list A) (x : A) :
  In x (firstn n l) -> In x l.
Proof.
  intros H. rewrite <- (firstn_skipn n l). apply in_or_app. left. exact H.
Qed.

Lemma In_combine_seq (res : list ResolvedAddress) :
  forall k x i, In (x, i) (combine res (seq k (List.length res))) ->
                In x res /\ nth (i - k) res x = x.
Proof.
  induction res as [|y res IH]; intros k x i Hin; [contradiction|].
  cbn [List.length seq combine] in Hin. destruct Hin as [Heq|Hin].
  - inversion Heq; subst. rewrite Nat.sub_diag. split; [left|]; reflexivity.
  - assert (Hi : (S k <= i)%nat).
    { apply in_combine_r in Hin. apply in_seq in Hin. lia. }
    destruct (IH _ _ _ Hin) as [Hx Hnth]. split; [right; exact Hx|].
    replace (i - k)%nat with (S (i - S k)) by lia. exact Hnth.
Qed.

Lemma keeps_ports_step (host : string) (port : Z) (r r' : Request) :
  host_ r' = host_ r -> port_ r' = port_ r -> result_ r' = result_ r ->
  run_queue_ r' = run_queue_ r -> invoked_ r' = invoked_ r ->
  keeps (ports_ok host port) r r'.
Proof.
  intros Hh Hp Hr Hq Hi (J1 & J2 & J3 & J4 & J5). unfold ports_ok.
  rewrite Hh, Hp, Hr, Hq, Hi. auto.
Qed.

Lemma keeps_ports_core (host : string) (port : Z) (r r' : Request) :
  same_core r r' -> keeps (ports_ok host port) r r'.
Proof.
  intros H. apply same_core_fields in H.
  apply keeps_ports_step; apply H.
Qed.

Section Ports.

Context {env : Collaborators}.

Variable host : string.
Variable port : Z.

(** The sort returns the sortables it was given, in some order. *)
Hypothesis sort_permutes :
  forall l, Permutation (address_sorting_rfc_6724_sort l) l.

(** The literal parsers put the port of the text into the address. *)
Hypothesis literal_port :
  forall addr,
    grpc_parse_ipv4_hostport (JoinHostPort host port) = Some addr \/
    grpc_parse_ipv6_hostport (JoinHostPort host port) = Some addr ->
    sin_port addr = htons port.

Lemma sorted_addresses_incl (res : list ResolvedAddress) (a : ResolvedAddress) :
  In a (sorted_addresses res) -> In a res.
Proof.
  unfold sorted_addresses. intros Ha. apply in_map_iff in Ha.
  destruct Ha as ([x i] & <- & Hs). apply In_firstn in Hs.
  apply (Permutation_in _ (sort_permutes _)) in Hs.
  destruct (In_combine_seq _ _ _ _ Hs) as [Hx Hnth].
  cbn [fst snd]. rewrite Nat.sub_0_r in Hnth. rewrite Hnth. exact Hx.
Qed.

Lemma sorted_addresses_port (res : list ResolvedAddress) :
  Forall (fun a => sin_port a = htons port) res ->
  Forall (fun a => sin_port a = htons port) (sorted_addresses res).
Proof.
  rewrite !Forall_forall. intros H a Ha. apply H, sorted_addresses_incl, Ha.
Qed.

Lemma absorb_ports (result : StatusOr (list ResolvedAddress)) (r : Request) :
  (forall addrs, result = SoValue addrs ->
                 Forall (fun a => sin_port a = htons (port_ r)) addrs) ->
  ports_ok host port r ->
  ports_ok host port (absorb result r).
Proof.
  intros Hres (J1 & J2 & J3 & J4 & J5). unfold ports_ok.
  destruct result as [addrs|s]; cbn [absorb]; run_fields;
    repeat split; try assumption.
  apply Forall_app. split; [exact J3|].
  rewrite <- J2. apply Hres. reflexivity.
Qed.

Lemma Hostname_OnResolve_ports (result : StatusOr (list ResolvedAddress))
      (r : Request) :
  (forall addrs, result = SoValue addrs ->
                 Forall (fun a => sin_port a = htons (port_ r)) addrs) ->
  match GrpcAresHostnameRequest_OnResolve result r with
  | Ret _ r' | Abort r' => keeps (ports_ok host port) r r'
  | Fault => True
  end.
Proof.
  intros Hres.
  destruct (Z_le_gt_dec (pending_queries_ r) 0) as [Hle|Hgt].
  { rewrite (Hostname_OnResolve_asserts _ _ Hle). apply keeps_refl. }
  destruct (Z.eq_dec (pending_queries_ r) 1) as [H1|Hne].
  2:{ rewrite (Hostname_OnResolve_not_last result r ltac:(lia)).
      intros J. apply absorb_ports; assumption. }
  destruct (cancelled_ r) eqn:Hc.
  { rewrite (Hostname_OnResolve_cancelled _ _ H1 Hc).
    intros J. pose proof (absorb_ports _ _ Hres J) as Ja.
    revert Ja. apply keeps_ports_step; reflexivity. }
  destruct (Hostname_OnResolve_last result r H1 Hc) as (r2 & Hcore & E).
  rewrite E. clear E.
  assert (Hstep : keeps (ports_ok host port) r r2).
  { intros J. apply (keeps_ports_core _ _ _ _ Hcore).
    pose proof (absorb_ports _ _ Hres J) as Ja.
    revert Ja. apply keeps_ports_step; reflexivity. }
  apply same_core_fields in Hcore. run_fields_in Hcore.
  destruct Hcore as (_ & _ & _ & _ & _ & _ & Hr2 & _).
  destruct (result_ (absorb result r)) as [|a l] eqn:Hl.
  - destruct (status_ok (error_ (absorb result r))); [exact Hstep|].
    intros J. destruct (Hstep J) as (J1 & J2 & J3 & J4 & J5).
    unfold ports_ok. run_fields. repeat split; try assumption.
    apply Forall_app. split; [exact J4|]. repeat constructor.
  - intros J. destruct (Hstep J) as (J1 & J2 & J3 & J4 & J5).
    rewrite Hr2 in J3.
    unfold ports_ok. run_fields. repeat split; try assumption.
    + constructor.
    + apply Forall_app. split; [exact J4|]. constructor; [|constructor].
      cbn [port_carried]. apply sorted_addresses_port, J3.
Qed.

Lemma ports_posted (c : Closure) (r r2 : Request) :
  port_carried port c ->
  same_core (set_shutting_down_ true r) r2 ->
  keeps (ports_ok host port) r
        (set_refs_ (refs_ r2 - 1)
           (set_on_resolve_ false
              (set_run_queue_ (run_queue_ r2 ++ [c]) r2))).
Proof.
  intros Hc Hcore J. apply (keeps_ports_core host port) in Hcore.
  assert (J2 : ports_ok host port r2).
  { apply Hcore. revert J. apply keeps_ports_step; reflexivity. }
  destruct J2 as (J1 & J2 & J3 & J4 & J5).
  unfold ports_ok. run_fields. repeat split; try assumption.
  apply Forall_app. split; [exact J4|]. constructor; [exact Hc|constructor].
Qed.

Lemma deliver_ports (c : Completion) :
  preserves (keeps (ports_ok host port)) (deliver c).
Proof.
  intros r. destruct c as [qtype status h|status ps reply|status ps reply];
    cbn [deliver].
  - unfold OnHostbynameDoneLocked.
    destruct (negb (status =? ARES_SUCCESS)); step.
    + apply Hostname_OnResolve_ports. discriminate.
    + apply Hostname_OnResolve_ports. intros addrs H. inversion H; subst.
      apply hostent_addresses_port.
  - unfold OnSRVQueryDoneLocked.
    destruct (negb (status =? ARES_SUCCESS)); [step|];
      match goal with
      | |- context [GrpcAresSRVRequest_OnResolve ?x ?s] =>
        destruct (SRV_OnResolve_spec x s) as [Hyes Hno]
      end;
      (destruct (cancelled_ r) eqn:Hc;
       [ rewrite (Hyes eq_refl); apply keeps_ports_step; reflexivity
       | destruct (Hno eq_refl) as (r2 & Hcore & E); rewrite E;
         apply ports_posted; [exact I|exact Hcore] ]).
  - unfold OnTXTDoneLocked. cbv zeta.
    destruct (negb (status =? ARES_SUCCESS)
              || negb ((if status =? ARES_SUCCESS then ps else ARES_SUCCESS)
                       =? ARES_SUCCESS));
      [step|destruct (service_config_json_out reply); [|exact I]];
      match goal with
      | |- context [GrpcAresTXTRequest_OnResolve ?x ?s] =>
        destruct (TXT_OnResolve_spec x s) as [Hyes Hno]
      end;
      (destruct (cancelled_ r) eqn:Hc;
       [ rewrite (Hyes eq_refl); apply keeps_ports_step; reflexivity
       | destruct (Hno eq_refl) as (r2 & Hcore & E); rewrite E;
         apply ports_posted; [exact I|exact Hcore] ]).
Qed.

Lemma keeps_ports_set (f : Request -> Request) :
  (forall r, host_ (f r) = host_ r) -> (forall r, port_ (f r) = port_ r) ->
  (forall r, result_ (f r) = result_ r) ->
  (forall r, run_queue_ (f r) = run_queue_ r) ->
  (forall r, invoked_ (f r) = invoked_ r) ->
  forall r, keeps (ports_ok host port) r (f r).
Proof. intros. apply keeps_ports_step; auto. Qed.

Lemma step_ports (e : Event) : preserves (keeps (ports_ok host port)) (step e).
Proof.
  assert (Hrefl := keeps_refl (ports_ok host port)).
  assert (Htrans := keeps_trans (ports_ok host port)).
  assert (Hcore := keeps_ports_core host port).
  assert (Hsd : forall r, keeps (ports_ok host port) r (set_shutting_down_ true r))
    by (apply keeps_ports_set; reflexivity).
  assert (Hcan : forall r, keeps (ports_ok host port) r (set_cancelled_ true r))
    by (apply keeps_ports_set; reflexivity).
  destruct e; cbn [step]; try apply on_object_ends.
  - apply (ends_bind _ _ Htrans);
      [eapply Cancel_ends; eauto|intros _; apply (ends_ret _ _ Hrefl)].
  - eapply OnReadable_ends; eauto using deliver_ports.
  - eapply OnWritable_ends; eauto using deliver_ports.
  - eapply OnQueryTimeout_ends; eauto.
  - eapply OnAresBackupPollAlarm_ends; eauto using deliver_ports.
  - intros r. rewrite engine_runs_spec. intros (J1 & J2 & J3 & J4 & J5).
    destruct (run_queue_ r) as [|c q] eqn:Hq;
      unfold ports_ok; run_fields; rewrite ?Hq; repeat split; try assumption.
    + inversion J4; assumption.
    + apply Forall_app. split; [exact J5|].
      inversion J4; subst. constructor; [assumption|constructor].
Qed.

Lemma ResolveAsIPLiteralLocked_ports :
  preserves (keeps (ports_ok host port)) ResolveAsIPLiteralLocked.
Proof.
  intros r. destruct (ResolveAsIPLiteralLocked_spec r) as [E|(addr & Hp & E)];
    rewrite E; [apply keeps_refl|].
  intros (J1 & J2 & J3 & J4 & J5). unfold ports_ok. run_fields.
  repeat split; try assumption.
  apply Forall_app. split; [exact J4|]. constructor; [|constructor].
  cbn [port_carried]. constructor; [|constructor].
  apply literal_port. rewrite <- J1, <- J2. exact Hp.
Qed.

Lemma Start_ports (s : StartCall) :
  preserves (keeps (ports_ok host port)) (Start s).
Proof.
  assert (Hrefl := keeps_refl (ports_ok host port)).
  assert (Htrans := keeps_trans (ports_ok host port)).
  assert (Hcore := keeps_ports_core host port).
  assert (Hon : forall b r, keeps (ports_ok host port) r (set_on_resolve_ b r))
    by (intros b; apply keeps_ports_set; reflexivity).
  assert (Hpend : forall v r,
             keeps (ports_ok host port) r (set_pending_queries_ v r))
    by (intros v; apply keeps_ports_set; reflexivity).
  assert (Hsrv : forall v r,
             keeps (ports_ok host port) r (set_service_name_ v r))
    by (intros v; apply keeps_ports_set; reflexivity).
  assert (Htxt : forall v r,
             keeps (ports_ok host port) r (set_config_name_ v r))
    by (intros v; apply keeps_ports_set; reflexivity).
  assert (Hrun : forall c, port_carried port c ->
             preserves (keeps (ports_ok host port)) (Run c)).
  { intros c Hc r (J1 & J2 & J3 & J4 & J5). unfold ports_ok. run_fields.
    repeat split; try assumption.
    apply Forall_app. split; [exact J4|]. constructor; [exact Hc|constructor]. }
  assert (Hleaf : forall f, (forall r, same_core r (f r)) ->
             preserves (keeps (ports_ok host port)) (modify f)).
  { intros f Hf r. apply Hcore, Hf. }
  destruct s as [ia i4 gs|i gs|i gs]; cbn [Start].
  - unfold GrpcAresHostnameRequest_Start, Ref, Unref.
    preserve_with Hrefl Htrans ltac:(first [apply Hon | apply Hcore; reflexivity]).
    + apply ResolveAsIPLiteralLocked_ports.
    + eapply hostname_lookups_ends; eauto using deliver_ports.
  - unfold GrpcAresSRVRequest_Start, Ref, Unref.
    preserve_with Hrefl Htrans ltac:(first [apply Hon | apply Hcore; reflexivity]).
    + apply Hrun. exact I.
    + eapply srv_query_ends; eauto using deliver_ports.
  - unfold GrpcAresTXTRequest_Start, Ref, Unref.
    preserve_with Hrefl Htrans ltac:(first [apply Hon | apply Hcore; reflexivity]).
    + apply Hrun. exact I.
    + eapply txt_query_ends; eauto using deliver_ports.
Qed.

(** C6. For a request about [host] and [port] that has delivered
    nothing yet, whatever is started and whatever runs afterwards: every
    address of every sequence the request hands to the event engine for
    the user callback, and of every sequence the callback is invoked
    with, has [htons port] in its port field. This covers the lookups
    through the stub, where [OnHostbynameDoneLocked] writes the field,
    and the address literal, given that the literal parser writes it and
    that the sort only reorders. *)
Theorem delivered_addresses_carry_port (r0 : Request) (s : StartCall)
        (evs : list Event) :
  host_ r0 = host -> port_ r0 = port ->
  result_ r0 = [] -> run_queue_ r0 = [] -> invoked_ r0 = [] ->
  match (Start s ;; run_events evs) r0 with
  | Ret _ r | Abort r =>
    forall addrs,
      In (on_resolve_hostname (SoValue addrs)) (run_queue_ r ++ invoked_ r) ->
      Forall (fun a => sin_port a = htons port) addrs
  | Fault => True
  end.
Proof.
  intros Hh Hp Hr Hq Hi.
  assert (J0 : ports_ok host port r0).
  { unfold ports_ok. rewrite Hr, Hq, Hi. repeat split; auto. }
  assert (H : preserves (keeps (ports_ok host port))
                        (Start s ;; run_events evs)).
  { apply (ends_bind _ _ (keeps_trans _)); [apply Start_ports|intros _].
    apply (ends_for_each _ _ (keeps_refl _) (keeps_trans _)), step_ports. }
  specialize (H r0).
  destruct ((Start s ;; run_events evs) r0) as [[] r|r|]; [| |exact I];
    destruct (H J0) as (_ & _ & _ & J4 & J5);
    intros addrs Hin; apply in_app_or in Hin;
    rewrite Forall_forall in J4, J5;
    (destruct Hin as [Hin|Hin]; [apply (J4 _ Hin)|apply (J5 _ Hin)]).
Qed.

End Ports.

(** ** The properties on the examples *)

Lemma sample_reply_wf : Forall txt_wf sample_reply.
Proof.
  repeat constructor; try (vm_compute; discriminate).
Defined.

Lemma txt_reply_service_config_witness :
  Forall txt_wf sample_reply /\
  exists out,
    (forall r, OnTXTDoneLocked (env := reference true) ARES_SUCCESS ARES_SUCCESS
                               sample_reply r
               = GrpcAresTXTRequest_OnResolve (env := reference true)
                                              (SoValue out) r) /\
    out = "{a:1}".
Proof.
  split; [exact sample_reply_wf|].
  destruct (txt_reply_service_config (env := reference true) sample_reply
              sample_reply_wf) as (out & Hdeliver & Hsplit & _).
  exists out. split; [exact Hdeliver|].
  apply (Hsplit [txt_node "v=spf1 -all" true]
                (txt_node "grpc_config={a:" true)
                [txt_node "1}" false]
                [txt_node "grpc_config=other" true] eq_refl).
  - repeat constructor.
  - reflexivity.
  - repeat constructor.
  - reflexivity.
Defined.

(** C7, where the code departs from it. For [example.test], whose port
    is missing, [Initialize] returns a failure status. The port part of
    [example.test:abc] is present and is no numeral: [Initialize]
    returns no status, it stops at the assertion on the port. And the
    port part of [example.test:65536] is a numeral that fits no 16 bits:
    [Initialize] returns ok and the request is initialized, with that
    number as its port. *)
Theorem initialize_port_not_checked :
  (exists st r',
      Initialize (env := reference true) "" true ARES_SUCCESS ARES_SUCCESS
                 no_port_request = Ret st r' /\
      status_ok st = false /\ initialized_ r' = false) /\
  SplitHostPort (Collaborators := reference true) (name_ bad_port_request)
  = ("example.test", "abc") /\
  SimpleAtoi (Collaborators := reference true) "abc" = None /\
  (exists r',
      Initialize (env := reference true) "" true ARES_SUCCESS ARES_SUCCESS
                 bad_port_request = Abort r' /\
      initialized_ r' = false /\ trace_ r' = []) /\
  ~ (exists st r',
        Initialize (env := reference true) "" true ARES_SUCCESS ARES_SUCCESS
                   bad_port_request = Ret st r') /\
  SplitHostPort (Collaborators := reference true) (name_ wide_port_request)
  = ("example.test", "65536") /\
  exists r',
    Initialize (env := reference true) "" true ARES_SUCCESS ARES_SUCCESS
               wide_port_request = Ret OkStatus r' /\
    initialized_ r' = true /\ port_ r' = 65536.
Proof.
  split; [do 2 eexists; split; [vm_compute; reflexivity|split; reflexivity]|].
  split; [reflexivity|]. split; [reflexivity|].
  split; [eexists; split; [vm_compute; reflexivity|split; reflexivity]|].
  split; [intros (st & r' & H); vm_compute in H; discriminate|].
  split; [reflexivity|].
  eexists. split; [vm_compute; reflexivity|split; reflexivity].
Qed.

Lemma initialize_bad_port_witness :
  exists r',
    initialized_ r' = false /\ trace_ r' = [] /\
    Initialize (env := reference true) "" true ARES_SUCCESS ARES_SUCCESS
               bad_port_request = Abort r'.
Proof.
  destruct (initialize_bad_port (env := reference true) "" true
              ARES_SUCCESS ARES_SUCCESS bad_port_request
              "example.test" "abc" eq_refl ltac:(discriminate) eq_refl)
    as (r' & Hi & Ht & Hrun).
  exists r'. split; [exact Hi|]. split; [exact Ht|exact Hrun].
Defined.

(** C8 fails as stated: the three errors are returned with the code
    [Unknown]. *)
Lemma initialize_errors_not_invalid_argument :
  (exists st r',
      Initialize (env := reference true) "" true ARES_SUCCESS ARES_SUCCESS
                 (new_request ":80" "" 0) = Ret st r' /\
      status_message st = "unparseable host:port" /\
      status_code st <> kInvalidArgument) /\
  (exists st r',
      Initialize (env := reference true) "" true ARES_SUCCESS ARES_SUCCESS
                 (new_request "example.test" "" 0) = Ret st r' /\
      status_message st = "no port in name" /\
      status_code st <> kInvalidArgument) /\
  (exists st r',
      Initialize (env := reference true) "no-address" true
                 ARES_SUCCESS ARES_SUCCESS
                 (new_request "example.test:80" "" 0) = Ret st r' /\
      status_message st = "cannot parse authority no-address" /\
      status_code st <> kInvalidArgument).
Proof.
  repeat split; eexists; eexists;
    (split; [vm_compute; reflexivity|split; [reflexivity|discriminate]]).
Qed.

Lemma initialize_error_codes_witness :
  status_code
    (grpc_error_set_str (GRPC_ERROR_CREATE "unparseable host:port") ":80")
  = kUnknown.
Proof.
  exact (proj1 (proj2
           (proj1 (initialize_error_codes (env := reference true) "" true
                     ARES_SUCCESS ARES_SUCCESS (new_request ":80" "" 0)
                     "" "80" _ (set_host_ "" (new_request ":80" "" 0))
                     eq_refl eq_refl)
                  eq_refl))).
Defined.



Lemma hostname_start_queries_witness :
  match GrpcAresHostnameRequest_Start (env := reference true) None None
                                      no_socks hostname_request with
  | Ret _ r' | Abort r' =>
    exists added,
      trace_ r' = trace_ hostname_request ++ added /\
      filter is_query added
      = [ ares_gethostbyname "example.test" AF_INET6 "AAAA" 2;
          ares_gethostbyname "example.test" AF_INET "A" 2 ]
  | Fault => False
  end.
Proof.
  exact (hostname_start_queries (env := reference true) hostname_request
           None None no_socks eq_refl eq_refl eq_refl eq_refl).
Defined.

(** C1, where the code departs from it. Both lookups of the started
    request for [example.test] are answered with success and no
    address. The second answer finds no query pending, no address and no
    error accumulated on a request that is not cancelled: [OnResolve]
    stops at its assertion that the error is not ok, and no callback is
    handed to the event engine. *)
Theorem hostname_empty_answers_abort :
  Start (env := reference true) (StartHostname None None one_sock)
        hostname_request = Ret tt started_request /\
  exists r',
    step (env := reference true) empty_answers started_request = Abort r' /\
    pending_queries_ r' = 0 /\ cancelled_ r' = false /\
    result_ r' = [] /\ status_ok (error_ r') = true /\
    run_queue_ r' = [] /\ invoked_ r' = [].
Proof.
  split; [vm_compute; reflexivity|].
  eexists. split; [vm_compute; reflexivity|].
  repeat split.
Qed.

(** C2, where the code departs from it. [Cancel] on a created request
    that has not been started is the first transition of
    [shutting_down_]: it returns true and sets [cancelled_]; nothing has
    been invoked. [Start] then takes the early way out for a literal
    address, or for the host localhost, where neither [cancelled_] nor
    [shutting_down_] is read: the callback is handed to the event
    engine, which invokes it, whereas every [OnResolve] tests
    [cancelled_] and says that [Cancel] does not invoke the callback. *)
Theorem cancel_before_start_not_silent :
  on_object (Cancel (env := reference true)) literal_request
  = Ret true cancelled_literal /\
  shutting_down_ literal_request = false /\
  shutting_down_ cancelled_literal = true /\
  cancelled_ cancelled_literal = true /\
  invoked_ cancelled_literal = [] /\
  (Start (env := reference true) (StartHostname None None no_socks) ;;
   run_events (env := reference true) [EvEngineRuns]) cancelled_literal
  = Ret tt cancelled_literal_delivered /\
  invoked_ cancelled_literal_delivered
  = [on_resolve_hostname (SoValue [MkAddress AF_INET 20480 [1; 2; 3; 4] 16])] /\
  on_object (Cancel (env := reference true)) localhost_request
  = Ret true cancelled_localhost /\
  cancelled_ cancelled_localhost = true /\
  invoked_ cancelled_localhost = [] /\
  (Start (env := reference true) (StartSRV None no_socks) ;;
   run_events (env := reference true) [EvEngineRuns]) cancelled_localhost
  = Ret tt cancelled_localhost_delivered /\
  exists st,
    invoked_ cancelled_localhost_delivered = [on_resolve_srv (SoError st)].
Proof.
  repeat (split; [vm_compute; reflexivity|]).
  eexists. vm_compute. reflexivity.
Qed.

Lemma cancel_first_and_silent_witness :
  shutting_down_ cancelled_request = true /\
  (forall r3, on_object (Cancel (env := reference true)) cancelled_request
              <> Ret true r3) /\
  cancelled_ cancelled_request = true /\
  forall after,
    match run_events (env := reference true) after cancelled_request with
    | Ret _ r3 | Abort r3 =>
      invoked_ r3 = [] /\ run_queue_ r3 = [] /\ cancelled_ r3 = true
    | Fault => True
    end.
Proof.
  destruct (cancel_first_and_silent (env := reference true) hostname_request
              (StartHostname None None one_sock) [] started_request
              cancelled_request true
              ltac:(vm_compute; reflexivity) ltac:(vm_compute; reflexivity)
              ltac:(vm_compute; reflexivity) ltac:(vm_compute; reflexivity))
    as (_ & Hsd & Hsecond & Hsilent).
  destruct (Hsilent eq_refl) as [Hc Hafter].
  split; [exact Hsd|]. split; [exact Hsecond|]. split; [exact Hc|].
  exact Hafter.
Defined.

Lemma ipv6_first_permutes (l : list (ResolvedAddress * nat)) :
  Permutation (ipv6_first l) l.
Proof.
  unfold ipv6_first. induction l as [|a l IH]; cbn [filter]; [constructor|].
  destruct (sa_family (fst a) =? AF_INET6); cbn [negb app].
  - constructor. exact IH.
  - symmetry. apply Permutation_cons_app. symmetry. exact IH.
Qed.

Lemma literal_request_port (addr : ResolvedAddress) :
  grpc_parse_ipv4_hostport (Collaborators := reference true)
    (JoinHostPort (Collaborators := reference true) "1.2.3.4" 80) = Some addr \/
  grpc_parse_ipv6_hostport (Collaborators := reference true)
    (JoinHostPort (Collaborators := reference true) "1.2.3.4" 80) = Some addr ->
  sin_port addr = htons 80.
Proof.
  intros [H|H]; vm_compute in H; [|discriminate].
  injection H as <-. reflexivity.
Qed.

Lemma hostname_request_port (addr : ResolvedAddress) :
  grpc_parse_ipv4_hostport (Collaborators := reference true)
    (JoinHostPort (Collaborators := reference true) "example.test" 8080)
  = Some addr \/
  grpc_parse_ipv6_hostport (Collaborators := reference true)
    (JoinHostPort (Collaborators := reference true) "example.test" 8080)
  = Some addr ->
  sin_port addr = htons 8080.
Proof.
  intros [H|H]; vm_compute in H; discriminate.
Qed.

Lemma delivered_addresses_carry_port_witness :
  (Start (env := reference true) (StartHostname None None no_socks) ;;
   run_events (env := reference true) [EvEngineRuns]) literal_request
  = Ret tt literal_delivered /\
  invoked_ literal_delivered
  = [on_resolve_hostname (SoValue [MkAddress AF_INET 20480 [1; 2; 3; 4] 16])] /\
  Forall (fun a => sin_port a = htons 80)
         [MkAddress AF_INET 20480 [1; 2; 3; 4] 16] /\
  (Start (env := reference true) (StartHostname None None one_sock) ;;
   run_events (env := reference true) [one_answer; EvEngineRuns])
    hostname_request
  = Ret tt hostname_delivered /\
  invoked_ hostname_delivered
  = [on_resolve_hostname
       (SoValue [MkAddress AF_INET 36895 [93; 184; 216; 34] 16])] /\
  Forall (fun a => sin_port a = htons 8080)
         [MkAddress AF_INET 36895 [93; 184; 216; 34] 16].
Proof.
  assert (E1 : (Start (env := reference true)
                      (StartHostname None None no_socks) ;;
                run_events (env := reference true) [EvEngineRuns])
                 literal_request
               = Ret tt literal_delivered) by (vm_compute; reflexivity).
  assert (E2 : (Start (env := reference true)
                      (StartHostname None None one_sock) ;;
                run_events (env := reference true) [one_answer; EvEngineRuns])
                 hostname_request
               = Ret tt hostname_delivered) by (vm_compute; reflexivity).
  split; [exact E1|]. split; [vm_compute; reflexivity|].
  split; [|split; [exact E2|split; [vm_compute; reflexivity|]]].
  - pose proof (delivered_addresses_carry_port (env := reference true)
                  "1.2.3.4" 80
                  ipv6_first_permutes literal_request_port literal_request
                  (StartHostname None None no_socks) [EvEngineRuns]
                  ltac:(vm_compute; reflexivity) ltac:(vm_compute; reflexivity)
                  ltac:(vm_compute; reflexivity) ltac:(vm_compute; reflexivity)
                  ltac:(vm_compute; reflexivity)) as H.
    rewrite E1 in H. apply H. vm_compute. left. reflexivity.
  - pose proof (delivered_addresses_carry_port (env := reference true)
                  "example.test" 8080
                  ipv6_first_permutes hostname_request_port hostname_request
                  (StartHostname None None one_sock) [one_answer; EvEngineRuns]
                  ltac:(vm_compute; reflexivity) ltac:(vm_compute; reflexivity)
                  ltac:(vm_compute; reflexivity) ltac:(vm_compute; reflexivity)
                  ltac:(vm_compute; reflexivity)) as H.
    rewrite E2 in H. apply H. vm_compute. left. reflexivity.
Defined.

(** * Further properties of the driver *)

(** ** The fd node list *)

(** X1. [PopFdNode] unlinks the first node that wraps the socket and keeps
    the others in their order; without such a node the list is left as
    it is. *)
Theorem PopFdNode_unlinks_first (l : list FdNode) (s : Z) :
  match PopFdNode l s with
  | (Some n, rest) =>
    as_ n = s /\
    exists pre post,
      l = pre ++ n :: post /\ rest = pre ++ post /\
      Forall (fun m => as_ m <> s) pre
  | (None, rest) => rest = l /\ Forall (fun m => as_ m <> s) l
  end.
Proof.
  induction l as [|x l IH]; cbn [PopFdNode].
  - split; [reflexivity|constructor].
  - destruct (as_ x =? s) eqn:E.
    + apply Z.eqb_eq in E. split; [exact E|].
      exists [], l. repeat split. constructor.
    + apply Z.eqb_neq in E. destruct (PopFdNode l s) as [[n|] rest].
      * destruct IH as (Hn & pre & post & Hl & Hr & Hp).
        split; [exact Hn|]. exists (x :: pre), post. subst.
        repeat split. constructor; assumption.
      * destruct IH as [Hr Hl]. subst.
        split; [reflexivity|constructor; assumption].
Qed.

Lemma set_trace_same (r : Request) : set_trace_ (trace_ r ++ []) r = r.
Proof. rewrite app_nil_r. destruct r; reflexivity. Qed.

Lemma shut_shut (n : FdNode) : shut (shut n) = shut n.
Proof. reflexivity. Qed.

Lemma live_nodes_shut (l : list FdNode) : live_nodes (map shut l) = [].
Proof. induction l as [|n l IH]; [reflexivity|exact IH]. Qed.

Section Shutdown.

Context {env : Collaborators}.

Lemma shutdown_node_spec (status : Status) (n : FdNode) (r : Request) :
  shutdown_node status n r
  = Ret (shut n) (set_trace_ (trace_ r ++ shutdown_calls status [n]) r).
Proof.
  unfold shutdown_node, shutdown_calls, live_nodes. cbn [filter].
  destruct (already_shutdown n) eqn:E; cbn [negb map]; run_monad.
  - rewrite (shut_already _ E), set_trace_same. reflexivity.
  - reflexivity.
Qed.

Lemma shutdown_calls_cons (status : Status) (n : FdNode) (l : list FdNode) :
  shutdown_calls status (n :: l)
  = shutdown_calls status [n] ++ shutdown_calls status l.
Proof.
  unfold shutdown_calls, live_nodes. cbn [filter].
  destruct (negb (already_shutdown n)); reflexivity.
Qed.

Lemma shutdown_nodes_spec (status : Status) (l : list FdNode) :
  forall r,
    shutdown_nodes status l r
    = Ret (map shut l) (set_trace_ (trace_ r ++ shutdown_calls status l) r).
Proof.
  induction l as [|n l IH]; intros r; cbn [shutdown_nodes map].
  - run_monad. change (shutdown_calls status []) with (@nil Call).
    rewrite set_trace_same. reflexivity.
  - rewrite bind_unfold, shutdown_node_spec, bind_unfold, IH. run_monad.
    rewrite (shutdown_calls_cons status n l), app_assoc. reflexivity.
Qed.

(** X2. [ShutdownPollerHandlesLocked] shuts down, with the status it is
    given, exactly the nodes that were not shut down, each once and in
    the order of the list; afterwards every node is marked, and nothing
    else of the request has changed. A second call asks nothing of the
    polled fds. *)
Theorem ShutdownPollerHandlesLocked_shuts_all (status : Status) (r : Request) :
  exists r',
    ShutdownPollerHandlesLocked status r = Ret tt r' /\
    fd_node_list_ r' = map shut (fd_node_list_ r) /\
    trace_ r' = trace_ r ++ shutdown_calls status (fd_node_list_ r) /\
    same_core r r' /\ refs_ r' = refs_ r /\
    query_timeout_handle_ r' = query_timeout_handle_ r /\
    ares_backup_poll_alarm_handle_ r' = ares_backup_poll_alarm_handle_ r /\
    forall status', ShutdownPollerHandlesLocked status' r' = Ret tt r'.
Proof.
  eexists. split.
  { unfold ShutdownPollerHandlesLocked. step.
    rewrite bind_unfold, shutdown_nodes_spec. run_monad. reflexivity. }
  run_fields. do 6 (split; [reflexivity|]).
  intros status'. unfold ShutdownPollerHandlesLocked. step.
  rewrite bind_unfold, shutdown_nodes_spec. run_monad.
  unfold shutdown_calls. rewrite live_nodes_shut. cbn [map].
  rewrite app_nil_r, map_map. f_equal.
Qed.

End Shutdown.

(** ** The timers *)

Section Timers.

Context {env : Collaborators}.

Lemma CancelTimers_spec (r : Request) :
  CancelTimers r
  = Ret tt
      (set_ares_backup_poll_alarm_handle_ None
         (set_query_timeout_handle_ None
            (set_refs_
               (refs_ r - released (query_timeout_handle_ r)
                - released (ares_backup_poll_alarm_handle_ r))
               (set_trace_
                  (trace_ r ++ cancel_calls (query_timeout_handle_ r)
                     ++ cancel_calls (ares_backup_poll_alarm_handle_ r))
                  r)))).
Proof.
  unfold CancelTimers, released, cancel_calls. destruct r. run_monad.
  destruct query_timeout_handle_0 as [h|], ares_backup_poll_alarm_handle_0 as [h'|];
    run_monad;
    repeat (match goal with
            | |- context [engine_cancel ?h] => destruct (engine_cancel h)
            end; run_monad);
    rewrite <- ?app_assoc, ?app_nil_r; cbv -[Z.add Z.sub];
    do 2 f_equal; lia.
Qed.

(** X3. [CancelTimers] asks the engine to cancel each timer that is armed,
    the query timeout first, forgets both handles and gives back one
    reference for each timer the engine could still cancel. It leaves
    the rest of the request alone, and called again it does nothing. *)
Theorem CancelTimers_releases (r : Request) :
  exists r',
    CancelTimers r = Ret tt r' /\
    query_timeout_handle_ r' = None /\
    ares_backup_poll_alarm_handle_ r' = None /\
    refs_ r' = refs_ r - released (query_timeout_handle_ r)
               - released (ares_backup_poll_alarm_handle_ r) /\
    trace_ r' = trace_ r ++ cancel_calls (query_timeout_handle_ r)
                  ++ cancel_calls (ares_backup_poll_alarm_handle_ r) /\
    fd_node_list_ r' = fd_node_list_ r /\ same_core r r' /\
    CancelTimers r' = Ret tt r'.
Proof.
  eexists. split; [apply CancelTimers_spec|]. run_fields.
  do 6 (split; [reflexivity|]).
  rewrite CancelTimers_spec. run_fields. cbn [released cancel_calls app].
  rewrite app_nil_r. destruct r; cbv -[Z.add Z.sub released]. do 2 f_equal. lia.
Qed.

Lemma StartTimers_spec (r : Request) :
  StartTimers r
  = Ret tt
      (set_ares_backup_poll_alarm_handle_ (Some (S (next_id_ r)))
         (set_query_timeout_handle_ (Some (next_id_ r))
            (set_refs_ (refs_ r + 2)
               (set_next_id_ (S (S (next_id_ r)))
                  (set_trace_
                     (trace_ r ++ [RunAfter QueryTimeout (next_id_ r);
                                   RunAfter BackupPoll (S (next_id_ r))])
                     r))))).
Proof.
  unfold StartTimers. destruct r. run_monad. rewrite <- app_assoc.
  cbv -[Z.add Z.sub]. do 2 f_equal. lia.
Qed.

(** X4. Arming the timers and cancelling them: [StartTimers] takes one
    reference for each of the two timers it arms, and [CancelTimers]
    gives back the reference of each timer the engine can still cancel;
    a timer that is already running keeps its reference, which its
    callback releases. *)
Theorem timers_start_then_cancel (r : Request) :
  exists r1 r2 h1 h2,
    StartTimers r = Ret tt r1 /\ CancelTimers r1 = Ret tt r2 /\
    query_timeout_handle_ r1 = Some h1 /\
    ares_backup_poll_alarm_handle_ r1 = Some h2 /\
    refs_ r1 = refs_ r + 2 /\
    trace_ r2 = trace_ r ++ [RunAfter QueryTimeout h1; RunAfter BackupPoll h2;
                             EngineCancel h1; EngineCancel h2] /\
    query_timeout_handle_ r2 = None /\
    ares_backup_poll_alarm_handle_ r2 = None /\
    refs_ r2 = refs_ r + (if engine_cancel h1 then 0 else 1)
               + (if engine_cancel h2 then 0 else 1).
Proof.
  eexists. eexists. exists (next_id_ r), (S (next_id_ r)).
  split; [apply StartTimers_spec|]. split; [apply CancelTimers_spec|].
  run_fields. cbn [released cancel_calls].
  do 3 (split; [reflexivity|]).
  split; [rewrite <- app_assoc; reflexivity|].
  do 2 (split; [reflexivity|]).
  destruct (engine_cancel (next_id_ r)), (engine_cancel (S (next_id_ r))); lia.
Qed.

End Timers.

(** ** Cancellation and the query timeout *)

Section Stopping.

Context {env : Collaborators}.

Lemma ShutdownPollerHandlesLocked_spec (status : Status) (r : Request) :
  ShutdownPollerHandlesLocked status r
  = Ret tt (set_fd_node_list_ (map shut (fd_node_list_ r))
              (set_trace_ (trace_ r ++ shutdown_calls status (fd_node_list_ r))
                          r)).
Proof.
  unfold ShutdownPollerHandlesLocked. step.
  rewrite bind_unfold, shutdown_nodes_spec. run_monad. reflexivity.
Qed.

(** X5. [Cancel] on a request that is already shutting down returns false
    and changes nothing. Otherwise it returns true, marks the request
    cancelled, cancels the timers, and shuts every polled fd that is
    not shut down yet with the status [Cancelled]; it hands nothing to
    the event engine and leaves the callback and the number of pending
    queries as they are. *)
Theorem Cancel_shuts_down (r : Request) :
  if shutting_down_ r then Cancel r = Ret false r
  else
    exists r',
      Cancel r = Ret true r' /\
      shutting_down_ r' = true /\ cancelled_ r' = true /\
      query_timeout_handle_ r' = None /\
      ares_backup_poll_alarm_handle_ r' = None /\
      refs_ r' = refs_ r - released (query_timeout_handle_ r)
                 - released (ares_backup_poll_alarm_handle_ r) /\
      fd_node_list_ r' = map shut (fd_node_list_ r) /\
      trace_ r' = trace_ r ++ cancel_calls (query_timeout_handle_ r)
                    ++ cancel_calls (ares_backup_poll_alarm_handle_ r)
                    ++ shutdown_calls (StatusCreate kCancelled "Cancel" [])
                                      (fd_node_list_ r) /\
      run_queue_ r' = run_queue_ r /\ invoked_ r' = invoked_ r /\
      on_resolve_ r' = on_resolve_ r /\
      pending_queries_ r' = pending_queries_ r.
Proof.
  destruct (shutting_down_ r) eqn:E.
  - unfold Cancel. run_monad. rewrite E.
    destruct r; cbn in E; subst; reflexivity.
  - eexists. split.
    { unfold Cancel. do 2 step. rewrite E. step.
      rewrite bind_unfold, CancelTimers_spec.
      rewrite bind_unfold, ShutdownPollerHandlesLocked_spec. reflexivity. }
    run_fields. do 6 (split; [reflexivity|]).
    split; [rewrite <- !app_assoc; reflexivity|].
    repeat split.
Qed.


End Stopping.

(** ** Initialization *)

Section Initializing.

Context {env : Collaborators}.

(** X7. [Initialize] and the stub's channel. When it returns, the request
    is initialized exactly when the status is ok. With an ok status the
    channel was created and is alive. With a failure no channel is left
    behind: it was destroyed if it had been created, and it had not been
    created if the failure came before or from [ares_init_options]. *)
Theorem Initialize_channel (dns_server : string) (check_port : bool)
        (init_status set_status : Z) (r : Request) (st : Status)
        (r' : Request) :
  Initialize dns_server check_port init_status set_status r = Ret st r' ->
  exists added,
    trace_ r' = trace_ r ++ added /\
    initialized_ r' = (if status_ok st then true else initialized_ r) /\
    (if status_ok st then
       init_status = ARES_SUCCESS /\ In ares_init_options added /\
       ~ In ares_destroy added
     else
       In ares_destroy added
       <-> In ares_init_options added /\ init_status = ARES_SUCCESS).
Proof.
  intros H. unfold Initialize in H. run_monad_in H.
  destruct (SplitHostPort (name_ r)) as [host port]. run_monad_in H.
  destruct (String.eqb host "").
  { injection H as <- <-. exists []. run_fields.
    split; [symmetry; apply app_nil_r|]. split; [reflexivity|].
    cbn. split; [contradiction|intros [[] _]]. }
  run_monad_in H.
  destruct (check_port && String.eqb port "" && String.eqb (default_port_ r) "").
  { injection H as <- <-. exists []. run_fields.
    split; [symmetry; apply app_nil_r|]. split; [reflexivity|].
    cbn. split; [contradiction|intros [[] _]]. }
  run_monad_in H.
  set (chosen := if check_port && String.eqb port "" then default_port_ r
                 else port) in H.
  destruct (String.eqb chosen "");
    [|destruct (SimpleAtoi chosen) as [v|]; [|discriminate]];
    run_fields_in H;
    (destruct (init_status =? ARES_SUCCESS) eqn:Einit; cbn [negb] in H;
     [apply Z.eqb_eq in Einit
     |injection H as <- <-; exists [ares_init_options]; run_fields;
      split; [reflexivity|]; split; [reflexivity|];
      cbn; apply Z.eqb_neq in Einit;
      split; [intros [Hd|[]]; discriminate|intros [_ Hs]; contradiction]]);
    unfold SetRequestDNSServer, set_servers_ports in H;
    (destruct (String.eqb dns_server ""); cbn [negb] in H; run_monad_in H;
     [injection H as <- <-; exists [ares_init_options]; run_fields;
      split; [reflexivity|]; split; [reflexivity|]; cbn;
      split; [exact Einit|]; split; [left; reflexivity|];
      intros [Hd|[]]; discriminate|]);
    (destruct (grpc_parse_ipv4_hostport dns_server) as [addr|];
      [|destruct (grpc_parse_ipv6_hostport dns_server) as [addr|]]);
    run_monad_in H;
    try (destruct (set_status =? ARES_SUCCESS); cbn [negb] in H;
         run_monad_in H);
    injection H as <- <-; run_fields;
    eexists; (split; [rewrite <- !app_assoc; reflexivity|]);
    (split; [reflexivity|]); cbn;
    first [ split; [exact Einit|];
            split; [left; reflexivity|];
            intros [Hd|[Hd|[]]]; discriminate
          | split; [intros _; split; [left; reflexivity|exact Einit]
                   |intros _; auto] ].
Qed.

(** X8. What a successful [Initialize] has parsed. The host is the host part
    of the name and is not empty. The port is the number [SimpleAtoi]
    reads from the port part of the name; the default port stands in for
    an empty port part only when the port is checked, and with no port
    text to read [port_] is left as it was. *)
Theorem Initialize_parses (dns_server : string) (check_port : bool)
        (init_status set_status : Z) (r : Request) (st : Status)
        (r' : Request) :
  Initialize dns_server check_port init_status set_status r = Ret st r' ->
  status_ok st = true ->
  host_ r' = fst (SplitHostPort (name_ r)) /\ host_ r' <> "" /\
  let port := snd (SplitHostPort (name_ r)) in
  let chosen :=
    if check_port && String.eqb port "" then default_port_ r else port in
  (if String.eqb chosen "" then port_ r' = port_ r
   else SimpleAtoi chosen = Some (port_ r')) /\
  (check_port = true -> chosen <> "").
Proof.
  intros H Hok. unfold Initialize in H. run_monad_in H.
  destruct (SplitHostPort (name_ r)) as [host port]. run_monad_in H.
  cbn [fst snd].
  destruct (String.eqb host "") eqn:Eh.
  { injection H as <- <-. discriminate. }
  run_monad_in H.
  destruct (check_port && String.eqb port "" && String.eqb (default_port_ r) "")
           eqn:Ec.
  { injection H as <- <-. discriminate. }
  run_monad_in H.
  set (chosen := if check_port && String.eqb port "" then default_port_ r
                 else port) in *.
  assert (Hr' : host_ r' = host /\
                (if String.eqb chosen "" then port_ r' = port_ r
                 else SimpleAtoi chosen = Some (port_ r'))).
  { destruct (String.eqb chosen "");
      [|destruct (SimpleAtoi chosen) as [v|]; [|discriminate]];
      run_fields_in H;
      (destruct (negb (init_status =? ARES_SUCCESS));
       [injection H as <- <-; discriminate|]);
      unfold SetRequestDNSServer, set_servers_ports in H;
      (destruct (negb (String.eqb dns_server "")); run_monad_in H;
       [destruct (grpc_parse_ipv4_hostport dns_server) as [addr|];
        [|destruct (grpc_parse_ipv6_hostport dns_server) as [addr|]];
        run_monad_in H;
        try (destruct (negb (set_status =? ARES_SUCCESS)); run_monad_in H)|]);
      injection H as <- <-; try discriminate; split; reflexivity. }
  destruct Hr' as [-> Hp].
  split; [reflexivity|]. split; [apply String.eqb_neq, Eh|].
  split; [exact Hp|].
  intros ->. subst chosen. cbn [andb] in *.
  destruct (String.eqb port "") eqn:Ep.
  - cbn [andb] in Ec. apply String.eqb_neq. exact Ec.
  - apply String.eqb_neq. exact Ep.
Qed.

End Initializing.

(** ** The completion callbacks of the SRV and TXT queries *)

Section Completions.

Context {env : Collaborators}.

(** What the SRV and TXT [OnResolve] do with a result, on a request
    that is not cancelled. *)
Lemma SRV_OnResolve_posts (result : StatusOr (list SRVRecord)) (r : Request) :
  cancelled_ r = false ->
  GrpcAresSRVRequest_OnResolve result r
  = Ret tt
      (set_refs_
         (refs_ r - released (query_timeout_handle_ r)
          - released (ares_backup_poll_alarm_handle_ r) - 1)
         (set_on_resolve_ false
            (set_run_queue_ (run_queue_ r ++ [on_resolve_srv result])
               (set_ares_backup_poll_alarm_handle_ None
                  (set_query_timeout_handle_ None
                     (set_trace_
                        (trace_ r ++ cancel_calls (query_timeout_handle_ r)
                           ++ cancel_calls (ares_backup_poll_alarm_handle_ r))
                        (set_shutting_down_ true r))))))).
Proof.
  intros Hc. unfold GrpcAresSRVRequest_OnResolve. step. rewrite Hc. step.
  rewrite bind_unfold, CancelTimers_spec. run_monad. reflexivity.
Qed.

Lemma TXT_OnResolve_posts (result : StatusOr string) (r : Request) :
  cancelled_ r = false ->
  GrpcAresTXTRequest_OnResolve result r
  = Ret tt
      (set_refs_
         (refs_ r - released (query_timeout_handle_ r)
          - released (ares_backup_poll_alarm_handle_ r) - 1)
         (set_on_resolve_ false
            (set_run_queue_ (run_queue_ r ++ [on_resolve_txt result])
               (set_ares_backup_poll_alarm_handle_ None
                  (set_query_timeout_handle_ None
                     (set_trace_
                        (trace_ r ++ cancel_calls (query_timeout_handle_ r)
                           ++ cancel_calls (ares_backup_poll_alarm_handle_ r))
                        (set_shutting_down_ true r))))))).
Proof.
  intros Hc. unfold GrpcAresTXTRequest_OnResolve. step. rewrite Hc. step.
  rewrite bind_unfold, CancelTimers_spec. run_monad. reflexivity.
Qed.

(** X9. The completion of the SRV query. On a cancelled request it only
    releases the reference of the request. Otherwise it hands the user
    callback to the event engine, once, marks the request shutting down
    and cancels the timers. The callback gets an error when the stub
    reports a failure, and the records when it reports success; a reply
    that the stub then fails to parse is delivered as a success with no
    record. *)
Theorem OnSRVQueryDoneLocked_delivers (status parse_status : Z)
        (reply : list SRVRecord) (r : Request) :
  exists r',
    OnSRVQueryDoneLocked status parse_status reply r = Ret tt r' /\
    if cancelled_ r then r' = set_refs_ (refs_ r - 1) r
    else
      run_queue_ r'
      = run_queue_ r ++
        [on_resolve_srv
           (if status =? ARES_SUCCESS then
              SoValue (if parse_status =? ARES_SUCCESS then reply else [])
            else
              SoError
                (GRPC_ERROR_CREATE
                   ("c-ares status is not ARES_SUCCESS qtype=SRV name="
                      ++ service_name_ r ++ ": " ++ ares_strerror status)%string))]
      /\ shutting_down_ r' = true /\ on_resolve_ r' = false /\
      query_timeout_handle_ r' = None /\
      ares_backup_poll_alarm_handle_ r' = None /\
      refs_ r' = refs_ r - released (query_timeout_handle_ r)
                 - released (ares_backup_poll_alarm_handle_ r) - 1 /\
      invoked_ r' = invoked_ r.
Proof.
  unfold OnSRVQueryDoneLocked. destruct (cancelled_ r) eqn:Hc.
  - exists (set_refs_ (refs_ r - 1) r). split; [|reflexivity].
    destruct (status =? ARES_SUCCESS); cbn [negb]; run_monad;
      unfold GrpcAresSRVRequest_OnResolve; run_monad; rewrite Hc; reflexivity.
  - destruct (status =? ARES_SUCCESS); cbn [negb]; eexists;
      (split; [try step; rewrite (SRV_OnResolve_posts _ _ Hc); reflexivity|]);
      run_fields; repeat split.
Qed.

(** X10. The completion of the TXT query, when the stub reports a failure or
    fails to parse the reply it reported as a success: on a request that
    is not cancelled the user callback is handed to the event engine
    with an error, and the text of the error names the status of the
    query, also when it is the parse that failed, and the name of the
    query up to its first NUL. *)
Theorem OnTXTDoneLocked_failure (status parse_status : Z)
        (reply : list ares_txt_ext.t) (r : Request) :
  cancelled_ r = false ->
  status <> ARES_SUCCESS \/ parse_status <> ARES_SUCCESS ->
  exists r',
    OnTXTDoneLocked status parse_status reply r = Ret tt r' /\
    run_queue_ r'
    = run_queue_ r ++
      [on_resolve_txt
         (SoError
            (GRPC_ERROR_CREATE
               ("c-ares status is not ARES_SUCCESS qtype=TXT name="
                  ++ c_str (config_name_ r) ++ ": "
                  ++ ares_strerror status)%string))]
    /\ shutting_down_ r' = true /\ on_resolve_ r' = false /\
    query_timeout_handle_ r' = None /\
    ares_backup_poll_alarm_handle_ r' = None.
Proof.
  intros Hc Hfail. unfold OnTXTDoneLocked.
  assert (E : negb (status =? ARES_SUCCESS)
              || negb ((if status =? ARES_SUCCESS then parse_status
                        else ARES_SUCCESS) =? ARES_SUCCESS) = true).
  { destruct (status =? ARES_SUCCESS) eqn:Es; [|reflexivity]. cbn [negb orb].
    destruct Hfail as [Hs|Hp].
    - apply Z.eqb_eq in Es. contradiction.
    - apply Z.eqb_neq in Hp. rewrite Hp. reflexivity. }
  rewrite E. eexists. split.
  { step. rewrite (TXT_OnResolve_posts _ _ Hc). reflexivity. }
  run_fields. repeat split.
Qed.

End Completions.

Lemma OnTXTDoneLocked_failure_witness :
  exists r',
    OnTXTDoneLocked (env := reference true) ARES_SUCCESS 10 [] txt_started
    = Ret tt r' /\
    run_queue_ r'
    = [on_resolve_txt
         (SoError
            (GRPC_ERROR_CREATE
               "c-ares status is not ARES_SUCCESS qtype=TXT name=_grpc_config.example.test: 0"))].
Proof.
  destruct (OnTXTDoneLocked_failure (env := reference true) ARES_SUCCESS 10 []
              txt_started ltac:(vm_compute; reflexivity)
              ltac:(right; discriminate))
    as (r' & Hrun & Hq & _).
  exists r'. split; [exact Hrun|]. rewrite Hq. vm_compute. reflexivity.
Defined.

Lemma Initialize_channel_witness : initialized_ hostname_request = true.
Proof.
  destruct (Initialize_channel (env := reference true) "" true
              ARES_SUCCESS ARES_SUCCESS
              (new_request "example.test:8080" "" 0) OkStatus hostname_request
              ltac:(vm_compute; reflexivity))
    as (added & _ & Hi & _).
  exact Hi.
Defined.

Lemma Initialize_parses_witness :
  host_ hostname_request = "example.test" /\
  SimpleAtoi (Collaborators := reference true) "8080"
  = Some (port_ hostname_request).
Proof.
  destruct (Initialize_parses (env := reference true) "" true
              ARES_SUCCESS ARES_SUCCESS
              (new_request "example.test:8080" "" 0) OkStatus hostname_request
              ltac:(vm_compute; reflexivity) ltac:(reflexivity))
    as (Hh & _ & Hp & _).
  split; [rewrite Hh; vm_compute; reflexivity|].
  vm_compute in Hp. vm_compute. exact Hp.
Defined.

(** ** The hostname request *)

Section HostnameDelivery.

Context {env : Collaborators}.

(** X11. The last of the lookups to report, on a request that is not
    cancelled. With an address accumulated, by this lookup or by the
    other one, the user callback is handed to the event engine with the
    sorted addresses, whatever error the other lookup left. With no
    address and an error accumulated it is handed over with that error.
    Either way this happens once, the request is marked shutting down,
    the timers are cancelled and the reference of the request is
    released. *)
Theorem Hostname_OnResolve_completes
        (result : StatusOr (list ResolvedAddress)) (r : Request) :
  pending_queries_ r = 1 -> cancelled_ r = false ->
  result_ (absorb result r) <> [] \/
  status_ok (error_ (absorb result r)) = false ->
  exists r',
    GrpcAresHostnameRequest_OnResolve result r = Ret tt r' /\
    run_queue_ r'
    = run_queue_ r ++
      [on_resolve_hostname
         (match result_ (absorb result r) with
          | [] => SoError (error_ (absorb result r))
          | _ :: _ => SoValue (sorted_addresses (result_ (absorb result r)))
          end)] /\
    shutting_down_ r' = true /\ pending_queries_ r' = 0 /\
    on_resolve_ r' = false /\
    query_timeout_handle_ r' = None /\
    ares_backup_poll_alarm_handle_ r' = None /\
    refs_ r' = refs_ r - released (query_timeout_handle_ r)
               - released (ares_backup_poll_alarm_handle_ r) - 1 /\
    invoked_ r' = invoked_ r.
Proof.
  intros Hp Hc Hsome.
  unfold GrpcAresHostnameRequest_OnResolve. step. rewrite Hp.
  cbn [Z.ltb Z.compare GPR_ASSERT]. do 2 step.
  assert (E : forall (k : M unit),
             bind
               (match result with
                | SoValue addrs =>
                  modify (fun r => set_result_ (result_ r ++ addrs) r)
                | SoError s =>
                  modify (fun r =>
                            set_error_ (grpc_error_add_child (error_ r) s) r)
                end) (fun _ => k)
               (set_pending_queries_ (1 - 1) r)
             = k (absorb result r)).
  { intros k. unfold absorb. rewrite Hp. destruct result; reflexivity. }
  rewrite E. clear E.
  assert (Hp' : pending_queries_ (absorb result r) = 0)
    by (unfold absorb; destruct result; run_fields; lia).
  assert (Hc' : cancelled_ (absorb result r) = false)
    by (destruct (absorb_fields result r) as (_ & -> & _); exact Hc).
  assert (Hq : run_queue_ (absorb result r) = run_queue_ r)
    by (destruct (absorb_fields result r) as (_ & _ & -> & _); reflexivity).
  assert (Hi : invoked_ (absorb result r) = invoked_ r)
    by (destruct (absorb_fields result r) as (_ & _ & _ & -> & _); reflexivity).
  assert (Hqt : query_timeout_handle_ (absorb result r)
                = query_timeout_handle_ r)
    by (destruct result; reflexivity).
  assert (Hbp : ares_backup_poll_alarm_handle_ (absorb result r)
                = ares_backup_poll_alarm_handle_ r)
    by (destruct result; reflexivity).
  assert (Hrefs : refs_ (absorb result r) = refs_ r)
    by (destruct result; reflexivity).
  set (r1 := absorb result r) in *. clearbody r1.
  step. rewrite Hp'. cbn [Z.eqb]. step. rewrite Hc'. step.
  rewrite bind_unfold, CancelTimers_spec. step.
  destruct (result_ r1) as [|a l] eqn:Eres.
  - destruct Hsome as [Hs|Hs]; [contradiction|].
    step. rewrite Hs. cbn [negb]. run_monad.
    eexists. split; [reflexivity|]. run_fields.
    rewrite Hq, Hi, Hqt, Hbp, Hrefs. repeat split; exact Hp'.
  - unfold SortResolvedAddresses. run_monad. rewrite Eres.
    eexists. split; [reflexivity|]. run_fields.
    rewrite Hq, Hi, Hqt, Hbp, Hrefs. repeat split; exact Hp'.
Qed.


End HostnameDelivery.

Lemma Hostname_OnResolve_completes_witness :
  exists r',
    GrpcAresHostnameRequest_OnResolve (env := reference true)
      (SoValue [MkAddress AF_INET (htons 8080) [93; 184; 216; 34] 16]) half_done
    = Ret tt r' /\
    run_queue_ r'
    = [on_resolve_hostname
         (SoValue [MkAddress AF_INET (htons 8080) [93; 184; 216; 34] 16])].
Proof.
  destruct (Hostname_OnResolve_completes (env := reference true)
              (SoValue [MkAddress AF_INET (htons 8080) [93; 184; 216; 34] 16])
              half_done ltac:(vm_compute; reflexivity)
              ltac:(vm_compute; reflexivity)
              ltac:(left; vm_compute; discriminate))
    as (r' & Hrun & Hq & _).
  exists r'. split; [exact Hrun|]. rewrite Hq. vm_compute. reflexivity.
Defined.


(** ** Sorting the addresses *)

Section Sorting.

Context {env : Collaborators}.

Hypothesis sort_permutes :
  forall l, Permutation (address_sorting_rfc_6724_sort l) l.

Lemma map_fst_combine_seq (res : list ResolvedAddress) (k : nat) :
  map fst (combine res (seq k (List.length res))) = res.
Proof.
  revert k. induction res as [|a res IH]; intros k; [reflexivity|].
  cbn [List.length seq combine map fst]. rewrite IH. reflexivity.
Qed.

(** X13. [SortResolvedAddresses] reads the sorted addresses back through the
    pointers of the sortables. When the sort only reorders the array it
    is given, the request holds after it the addresses it held before,
    each as often as before: none is lost, repeated or altered. *)
Theorem sorted_addresses_permutes (res : list ResolvedAddress) :
  Permutation (sorted_addresses res) res.
Proof.
  unfold sorted_addresses.
  set (c := combine res (seq 0 (List.length res))).
  assert (Hlen : List.length (address_sorting_rfc_6724_sort c)
                 = List.length res).
  { rewrite (Permutation_length (sort_permutes c)). subst c.
    rewrite length_combine, length_seq. apply Nat.min_id. }
  rewrite <- Hlen, firstn_all.
  transitivity (map fst (address_sorting_rfc_6724_sort c)).
  - apply Permutation_refl'. apply map_ext_in. intros [x i] Hin.
    apply (Permutation_in _ (sort_permutes c)) in Hin.
    destruct (In_combine_seq _ _ _ _ Hin) as [_ Hnth].
    cbn [fst snd]. rewrite Nat.sub_0_r in Hnth. exact Hnth.
  - rewrite (Permutation_map fst (sort_permutes c)). subst c.
    rewrite map_fst_combine_seq. reflexivity.
Qed.

End Sorting.

Lemma sorted_addresses_permutes_witness :
  Permutation
    (sorted_addresses (env := reference true)
       [MkAddress AF_INET 20480 [1; 2; 3; 4] 16;
        MkAddress AF_INET6 20480 [0; 0; 0; 0; 0; 0; 0; 0; 0; 0; 0; 0; 0; 0; 0; 1]
                  28])
    [MkAddress AF_INET 20480 [1; 2; 3; 4] 16;
     MkAddress AF_INET6 20480 [0; 0; 0; 0; 0; 0; 0; 0; 0; 0; 0; 0; 0; 0; 0; 1]
               28].
Proof.
  exact (sorted_addresses_permutes (env := reference true) ipv6_first_permutes
           _).
Defined.

(** ** What the callbacks never ask of the stub *)

Section NoQuery.

Context {env : Collaborators}.

Lemma stops_preserves {A} (R : Request -> Request -> Prop) (m : M A) :
  stops R m -> preserves R m.
Proof.
  intros H r. specialize (H r). destruct (m r); try exact H. exact I.
Qed.

Ltac query_frame :=
  frame_query;
  try first [ apply (returns_ends _ _ _ CancelTimers_query)
            | apply (returns_ends _ _ _ StartTimers_query)
            | apply (returns_ends _ _ _ (Work_query _))
            | apply (returns_ends _ _ _ (shutdown_node_query _ _)) ].

Lemma shutdown_nodes_query (status : Status) (l : list FdNode) :
  returns no_new_query (shutdown_nodes status l).
Proof.
  induction l as [|n l IH]; cbn [shutdown_nodes]; frame_query.
  - apply shutdown_node_query.
  - exact IH.
Qed.

Lemma ShutdownPollerHandlesLocked_query (status : Status) :
  returns no_new_query (ShutdownPollerHandlesLocked status).
Proof.
  unfold ShutdownPollerHandlesLocked. frame_query. apply shutdown_nodes_query.
Qed.

Lemma deliver_query (c : Completion) : preserves no_new_query (deliver c).
Proof.
  destruct c; cbn [deliver].
  - apply stops_preserves, OnHostbynameDoneLocked_query.
  - unfold OnSRVQueryDoneLocked, GrpcAresSRVRequest_OnResolve, Run, Unref.
    query_frame.
  - unfold OnTXTDoneLocked, GrpcAresTXTRequest_OnResolve, Run, Unref.
    query_frame.
Qed.

Lemma deliver_all_query (cs : list Completion) :
  preserves no_new_query (deliver_all cs).
Proof.
  apply (ends_for_each _ _ no_new_query_refl no_new_query_trans).
  apply deliver_query.
Qed.

Lemma process_readable_query (s : Z) (rounds : list (list Completion)) :
  forall first, preserves no_new_query (process_readable s first rounds).
Proof.
  induction rounds as [|next rounds IH]; intros first;
    cbn [process_readable]; unfold emit; query_frame;
      first [apply deliver_all_query | apply IH].
Qed.

Lemma backup_poll_query (l : list FdNode) :
  forall rounds, preserves no_new_query (backup_poll l rounds).
Proof.
  induction l as [|n l IH]; intros rounds; cbn [backup_poll]; unfold emit;
    query_frame; first [apply deliver_all_query | apply IH].
Qed.

Lemma step_query (e : Event) : preserves no_new_query (step e).
Proof.
  destruct e; cbn [step];
    try (intros r; unfold on_object; destruct (0 <? refs_ r); [|exact I];
         revert r;
         match goal with
         | |- forall r, match ?m r with _ => _ end =>
           change (preserves no_new_query m)
         end).
  - unfold Cancel. query_frame.
    apply (returns_ends _ _ _ (ShutdownPollerHandlesLocked_query _)).
  - unfold OnReadable, captured_node, emit, Unref. query_frame;
      first [apply process_readable_query | apply deliver_all_query].
  - unfold OnWritable, captured_node, emit, Unref. query_frame;
      apply deliver_all_query.
  - unfold OnQueryTimeout, Unref. query_frame.
    apply (returns_ends _ _ _ (ShutdownPollerHandlesLocked_query _)).
  - unfold OnAresBackupPollAlarm, emit, Ref, Unref, fresh. query_frame.
    apply backup_poll_query.
  - unfold engine_runs. query_frame.
Qed.

(** X14. Queries are issued by [Start] alone. Whatever happens to a request
    afterwards, a socket becoming ready, a timer firing, a cancellation,
    the engine running a closure, and whatever the stub completes in
    the course of it, the driver makes no call of [ares_gethostbyname],
    [ares_query] or [ares_search]. *)
Theorem events_issue_no_query (evs : list Event) (r : Request) :
  match run_events evs r with
  | Ret _ r' | Abort r' =>
    exists added,
      trace_ r' = trace_ r ++ added /\ filter is_query added = []
  | Fault => True
  end.
Proof.
  apply (ends_for_each _ _ no_new_query_refl no_new_query_trans).
  apply step_query.
Qed.

End NoQuery.

(** ** The references and the sockets of [Work] *)

Section WorkAccounting.

Context {env : Collaborators}.

Lemma registrations_app (a b : list FdNode) :
  registrations (a ++ b) = registrations a + registrations b.
Proof.
  induction a as [|n a IH]; cbn [app registrations fold_right]; [reflexivity|].
  fold (registrations (a ++ b)). fold (registrations a). rewrite IH. lia.
Qed.

Lemma registrations_cons (n : FdNode) (l : list FdNode) :
  registrations (n :: l) = node_registrations n + registrations l.
Proof. reflexivity. Qed.

Lemma PopFdNode_registrations (l : list FdNode) (s : Z) :
  forall found rest, PopFdNode l s = (found, rest) ->
  registrations l
  = registrations rest + match found with
                         | Some n => node_registrations n
                         | None => 0
                         end.
Proof.
  induction l as [|x l IH]; intros found rest E; cbn [PopFdNode] in E.
  - injection E as <- <-. reflexivity.
  - destruct (as_ x =? s).
    + injection E as <- <-. rewrite registrations_cons. lia.
    + destruct (PopFdNode l s) as [f tl]. injection E as <- <-.
      rewrite !registrations_cons, (IH f tl eq_refl). lia.
Qed.

Lemma registrations_kept (l : list FdNode) :
  registrations (rev (filter registered (map shut l))) = registrations l.
Proof.
  induction l as [|n l IH]; [reflexivity|].
  cbn [map filter]. change (registered (shut n)) with (registered n).
  rewrite registrations_cons.
  destruct (registered n) eqn:E.
  - cbn [rev]. rewrite registrations_app, IH, registrations_cons.
    change (node_registrations (shut n)) with (node_registrations n).
    cbn [registrations fold_right]. lia.
  - rewrite IH. unfold registered in E. apply orb_false_iff in E.
    destruct E as [Er Ew]. unfold node_registrations. rewrite Er, Ew. cbn. lia.
Qed.

Lemma remaining_calls_no_registration (l : list FdNode) :
  filter is_registration (flat_map remaining_calls l) = [].
Proof.
  induction l as [|n l IH]; [reflexivity|].
  cbn [flat_map]. rewrite filter_app, IH, app_nil_r.
  unfold remaining_calls.
  destruct (already_shutdown n), (registered n); reflexivity.
Qed.

Lemma work_slot_account (gs : GetSock) (new_list : list FdNode) (i : nat)
      (r : Request) :
  exists nl r' added,
    work_slot gs new_list i r = Ret nl r' /\
    trace_ r' = trace_ r ++ added /\
    refs_ r' = refs_ r + Z.of_nat (List.length (filter is_registration added)) /\
    refs_ r' - registrations (fd_node_list_ r') - registrations nl
    = refs_ r - registrations (fd_node_list_ r) - registrations new_list /\
    (forall m, In m new_list -> In m nl) /\
    (slot_active gs i = true -> slot_watched gs i nl).
Proof.
  unfold work_slot, slot_watched.
  fold (slot_active gs i). fold (slot_socket gs i).
  destruct (slot_active gs i) eqn:Ha.
  - step. destruct (PopFdNode (fd_node_list_ r) (slot_socket gs i))
      as [found rest] eqn:Ep.
    pose proof (PopFdNode_registrations _ _ _ _ Ep) as Hregs.
    destruct (PopFdNode_spec _ _ _ _ Ep) as (_ & _ & P3).
    assert (Hfound : forall m, found = Some m -> as_ m = slot_socket gs i)
      by (intros m Hm; apply (P3 m Hm)).
    destruct found as [m|];
      [specialize (Hfound m eq_refl); destruct m as [id s rr wr sh];
       cbn [as_] in Hfound; destruct rr, wr
      |clear Hfound];
      destruct (ARES_GETSOCK_READABLE (socks_bitmask gs) i);
      destruct (ARES_GETSOCK_WRITABLE (socks_bitmask gs) i);
      run_monad;
      cbn [andb negb readable_registered writable_registered
           set_readable_registered set_writable_registered];
      (eexists; eexists; eexists; split; [reflexivity|]);
      run_fields; unfold PushFdNode;
      (split; [first [ rewrite <- ?app_assoc; reflexivity
                     | symmetry; apply app_nil_r ]|]);
      (split; [cbn; lia|]);
      (split; [rewrite registrations_cons, Hregs; unfold node_registrations;
               cbn [readable_registered writable_registered Z.b2z
                    set_readable_registered set_writable_registered]; lia|]);
      (split; [intros x Hx; right; exact Hx|]);
      intros _; eexists; (split; [left; reflexivity|]);
      cbn [as_ readable_registered writable_registered];
      repeat split; try assumption; try reflexivity; intros; discriminate.
  - run_monad. exists new_list, r, []. split; [reflexivity|].
    split; [symmetry; apply app_nil_r|]. split; [cbn; lia|].
    split; [reflexivity|]. split; [auto|]. intros H. discriminate.
Qed.

Lemma slot_watched_incl (gs : GetSock) (i : nat) (l l' : list FdNode) :
  (forall m, In m l -> In m l') -> slot_watched gs i l -> slot_watched gs i l'.
Proof.
  intros Hincl (m & Hm & H). exists m. split; [apply Hincl, Hm|exact H].
Qed.

Lemma work_slots_account (gs : GetSock) (slots : list nat) :
  forall new_list r,
  exists nl r' added,
    work_slots gs new_list slots r = Ret nl r' /\
    trace_ r' = trace_ r ++ added /\
    refs_ r' = refs_ r + Z.of_nat (List.length (filter is_registration added)) /\
    refs_ r' - registrations (fd_node_list_ r') - registrations nl
    = refs_ r - registrations (fd_node_list_ r) - registrations new_list /\
    (forall m, In m new_list -> In m nl) /\
    (forall i, In i slots -> slot_active gs i = true -> slot_watched gs i nl).
Proof.
  induction slots as [|i slots IH]; intros new_list r.
  - exists new_list, r, []. split; [reflexivity|].
    split; [symmetry; apply app_nil_r|]. split; [cbn; lia|].
    split; [reflexivity|]. split; [auto|]. intros i [].
  - destruct (work_slot_account gs new_list i r)
      as (nl1 & r1 & t1 & E1 & T1 & R1 & B1 & I1 & W1).
    destruct (IH nl1 r1) as (nl & r' & t2 & E & T2 & R2 & B2 & I2 & W2).
    exists nl, r', (t1 ++ t2). split.
    { cbn [work_slots]. rewrite bind_unfold, E1. exact E. }
    split; [rewrite T2, T1, app_assoc; reflexivity|].
    split; [rewrite filter_app, length_app; lia|].
    split; [lia|]. split; [auto|].
    intros j [<-|Hj] Hact.
    + apply (slot_watched_incl gs i nl1 nl I2), W1, Hact.
    + apply W2; assumption.
Qed.

Lemma Work_account (gs : GetSock) (r : Request) :
  exists r' added,
    Work gs r = Ret tt r' /\
    trace_ r' = trace_ r ++ added /\
    shutting_down_ r' = shutting_down_ r /\
    refs_ r' = refs_ r + Z.of_nat (List.length (filter is_registration added)) /\
    refs_ r' - registrations (fd_node_list_ r')
    = refs_ r - registrations (fd_node_list_ r) /\
    (shutting_down_ r = true -> refs_ r' = refs_ r) /\
    (shutting_down_ r = false ->
     forall i, (i < ARES_GETSOCK_MAXNUM)%nat -> slot_active gs i = true ->
               slot_watched gs i (fd_node_list_ r')).
Proof.
  unfold Work. step. destruct (shutting_down_ r) eqn:Hsd.
  - do 3 step. rewrite bind_unfold, work_remaining_spec. run_monad.
    eexists. eexists. split; [reflexivity|]. run_fields.
    split; [reflexivity|]. split; [exact Hsd|].
    rewrite remaining_calls_no_registration, app_nil_r, registrations_kept.
    cbn. repeat split; lia.
  - do 1 step.
    destruct (work_slots_account gs (seq 0 ARES_GETSOCK_MAXNUM) []
                (set_trace_ (trace_ r ++ [ares_getsock]) r))
      as (nl & r1 & t & E & T & R & B & _ & W).
    run_fields_in T. run_fields_in R. run_fields_in B.
    rewrite bind_unfold, E. do 2 step.
    rewrite bind_unfold, work_remaining_spec. run_monad.
    eexists. eexists. split; [reflexivity|]. run_fields.
    split; [rewrite T, <- !app_assoc; reflexivity|].
    assert (Hs1 : shutting_down_ r1 = false).
    { destruct (work_slots_core gs (seq 0 ARES_GETSOCK_MAXNUM) []
                  (set_trace_ (trace_ r ++ [ares_getsock]) r))
        as (a & r1' & E' & Hc).
      rewrite E in E'. injection E' as _ <-.
      destruct (same_core_fields _ _ Hc) as (-> & _). exact Hsd. }
    split; [exact Hs1|].
    split.
    { rewrite !filter_app, remaining_calls_no_registration, app_nil_r.
      cbn [filter is_registration app]. exact R. }
    split.
    { rewrite registrations_app, registrations_kept. cbn in B. lia. }
    split; [discriminate|].
    intros _ i Hi Hact.
    apply (slot_watched_incl gs i nl); [|apply W; [apply in_seq; lia|exact Hact]].
    intros m Hm. apply in_or_app. right. exact Hm.
Qed.

(** X15. [Work] and the references. [Work] takes one reference for each
    readiness closure it registers and none otherwise, and it deletes
    only nodes with no closure outstanding: the difference between the
    reference count and the number of closures outstanding on the nodes
    of the list is the same after [Work] as before. On a request that is
    shutting down it registers nothing. *)
Theorem Work_references (gs : GetSock) (r : Request) :
  exists r' added,
    Work gs r = Ret tt r' /\
    trace_ r' = trace_ r ++ added /\
    refs_ r' = refs_ r + Z.of_nat (List.length (filter is_registration added)) /\
    refs_ r' - registrations (fd_node_list_ r')
    = refs_ r - registrations (fd_node_list_ r) /\
    (if shutting_down_ r then filter is_registration added = [] else True).
Proof.
  destruct (Work_account gs r) as (r' & added & E & T & _ & R & B & S & _).
  exists r', added. split; [exact E|]. split; [exact T|].
  split; [exact R|]. split; [exact B|].
  destruct (shutting_down_ r); [|exact I].
  specialize (S eq_refl). apply length_zero_iff_nil. lia.
Qed.

(** X16. [Work] and the sockets. On a request that is not shutting down,
    every socket the stub names as readable or writable is, after
    [Work], wrapped by a node of the list, with a readiness closure
    registered for each direction the stub asked for. *)
Theorem Work_watches (gs : GetSock) (r : Request) (i : nat) :
  shutting_down_ r = false ->
  (i < ARES_GETSOCK_MAXNUM)%nat -> slot_active gs i = true ->
  exists r',
    Work gs r = Ret tt r' /\ slot_watched gs i (fd_node_list_ r').
Proof.
  intros Hsd Hi Hact.
  destruct (Work_account gs r) as (r' & added & E & _ & _ & _ & _ & _ & W).
  exists r'. split; [exact E|]. apply W; assumption.
Qed.

End WorkAccounting.

Lemma Work_watches_witness :
  exists r',
    Work one_sock hostname_request = Ret tt r' /\
    slot_watched one_sock 0 (fd_node_list_ r').
Proof.
  exact (Work_watches one_sock hostname_request 0
           ltac:(vm_compute; reflexivity) ltac:(vm_compute; lia)
           ltac:(vm_compute; reflexivity)).
Defined.

(** ** The callback of a hostname request *)

Section HostnameEvents.

Context {env : Collaborators}.

Variable R : Request -> Request -> Prop.
Hypothesis R_refl : forall r, R r r.
Hypothesis R_trans : forall a b c, R a b -> R b c -> R a c.
Hypothesis R_core : forall r r', same_core r r' -> R r r'.
Hypothesis R_shutting_down : forall r, R r (set_shutting_down_ true r).
Hypothesis R_cancelled : forall r, R r (set_cancelled_ true r).
Hypothesis R_lookup :
  forall qtype status h, preserves R (OnHostbynameDoneLocked qtype status h).
Hypothesis R_engine : preserves R engine_runs.

Ltac lookup_leaf :=
  first [ apply R_core; reflexivity
        | apply R_shutting_down
        | apply R_cancelled ].

Ltac lookup_handler :=
  preserve_with R_refl R_trans lookup_leaf;
  try (apply (core_ends R R_core);
       first [ apply Work_core | apply StartTimers_core
             | apply CancelTimers_core
             | apply ShutdownPollerHandlesLocked_core ]).

Lemma deliver_all_lookups (cs : list Completion) :
  forallb hostname_completion cs = true -> preserves R (deliver_all cs).
Proof.
  induction cs as [|c cs IH]; cbn [forallb deliver_all for_each]; intros H.
  - apply (ends_ret _ _ R_refl).
  - apply andb_true_iff in H. destruct H as [Hc Hcs].
    apply (ends_bind _ _ R_trans); [|intros _; apply IH, Hcs].
    destruct c; try discriminate. apply R_lookup.
Qed.

Lemma process_readable_lookups (s : Z) (rounds : list (list Completion)) :
  forall first,
    forallb hostname_completion first = true ->
    forallb (forallb hostname_completion) rounds = true ->
    preserves R (process_readable s first rounds).
Proof.
  induction rounds as [|next rounds IH]; intros first Hf Hr;
    cbn [process_readable]; unfold emit; lookup_handler;
      try (apply deliver_all_lookups; exact Hf).
  cbn [forallb] in Hr. apply andb_true_iff in Hr. destruct Hr as [Hn Hr].
  apply IH; assumption.
Qed.

Lemma concat_lookups (rounds : list (list Completion)) :
  forallb (forallb hostname_completion) rounds = true ->
  forallb hostname_completion (List.concat rounds) = true.
Proof.
  induction rounds as [|x rounds IH]; cbn [forallb List.concat];
    [reflexivity|].
  intros H. apply andb_true_iff in H. destruct H as [Hx Hr].
  rewrite forallb_app, Hx, (IH Hr). reflexivity.
Qed.

Lemma backup_poll_lookups (l : list FdNode) :
  forall rounds,
    forallb (forallb hostname_completion) rounds = true ->
    preserves R (backup_poll l rounds).
Proof.
  induction l as [|n l IH]; intros rounds Hr; cbn [backup_poll]; unfold emit;
    lookup_handler.
  - apply IH, Hr.
  - apply deliver_all_lookups. destruct rounds as [|x rounds]; [reflexivity|].
    cbn [forallb] in Hr. apply andb_true_iff in Hr. apply Hr.
  - apply IH. destruct rounds as [|x rounds]; [reflexivity|].
    cbn [forallb] in Hr. apply andb_true_iff in Hr. apply Hr.
Qed.

Lemma step_lookups (e : Event) :
  hostname_event e = true -> preserves R (step e).
Proof.
  destruct e; cbn [step hostname_event]; intros He;
    try (apply (on_object_ends R)).
  - unfold Cancel. lookup_handler.
  - apply andb_true_iff in He. destruct He as [Hf Hr].
    unfold OnReadable, captured_node, emit, Unref. lookup_handler.
    + apply process_readable_lookups; assumption.
    + apply deliver_all_lookups. rewrite forallb_app, Hf.
      apply concat_lookups, Hr.
  - unfold OnWritable, captured_node, emit, Unref. lookup_handler;
      apply deliver_all_lookups, He.
  - unfold OnQueryTimeout, Unref. lookup_handler.
  - unfold OnAresBackupPollAlarm, emit, Ref, Unref, fresh. lookup_handler.
    apply backup_poll_lookups, He.
  - apply R_engine.
Qed.

Lemma run_events_lookups (evs : list Event) :
  forallb hostname_event evs = true -> preserves R (run_events evs).
Proof.
  induction evs as [|e evs IH]; cbn [forallb run_events for_each]; intros H.
  - apply (ends_ret _ _ R_refl).
  - apply andb_true_iff in H. destruct H as [He Hevs].
    apply (ends_bind _ _ R_trans); [apply step_lookups, He|].
    intros _. apply IH, Hevs.
Qed.

Lemma lookups_tail (inline : option (Z * hostent))
      (qtype : string) (family : Z) {A} (rest : M A) :
  preserves R rest ->
  preserves R (gethostbyname family qtype inline ;; rest).
Proof.
  intros Hrest. unfold gethostbyname, emit. lookup_handler; try exact Hrest.
  destruct inline as [[st h]|]; cbn [option_map deliver_inline deliver];
    [apply R_lookup|apply (ends_ret _ _ R_refl)].
Qed.

End HostnameEvents.

Section CallbackOnce.

Context {env : Collaborators}.

Lemma once_core (r r' : Request) : same_core r r' -> keeps once r r'.
Proof.
  unfold same_core, core, keeps, once, handed_over. intros H. inversion H.
  congruence.
Qed.

Lemma once_engine : preserves (keeps once) engine_runs.
Proof.
  intros r. rewrite engine_runs_spec. unfold keeps, once, handed_over.
  destruct (run_queue_ r) as [|c q] eqn:Eq; [rewrite Eq; auto|]. run_fields.
  rewrite <- app_assoc. auto.
Qed.

Lemma once_lookup (qtype : string) (status : Z) (h : hostent) :
  preserves (keeps once) (OnHostbynameDoneLocked qtype status h).
Proof.
  assert (E : forall r, exists result,
               OnHostbynameDoneLocked qtype status h r
               = GrpcAresHostnameRequest_OnResolve result r).
  { intros r. unfold OnHostbynameDoneLocked.
    destruct (negb (status =? ARES_SUCCESS)); eexists; step; reflexivity. }
  intros r. destruct (E r) as (result & ->). clear E.
  destruct (absorb_fields result r) as (_ & _ & Aq & Ai & _).
  assert (Ah : handed_over (absorb result r) = handed_over r)
    by (unfold handed_over; rewrite Aq, Ai; reflexivity).
  assert (Ap : pending_queries_ (absorb result r) = pending_queries_ r - 1)
    by (destruct result; reflexivity).
  destruct (Z_le_gt_dec (pending_queries_ r) 0) as [Hle|Hgt].
  { rewrite (Hostname_OnResolve_asserts _ _ Hle). intros H. exact H. }
  destruct (Z.eq_dec (pending_queries_ r) 1) as [H1|Hn1].
  2:{ rewrite (Hostname_OnResolve_not_last result r ltac:(lia)).
      intros [H|[_ H]]; [|lia]. left. rewrite Ah. exact H. }
  destruct (cancelled_ r) eqn:Hc.
  { rewrite (Hostname_OnResolve_cancelled _ _ H1 Hc).
    intros [H|[_ H]]; [|lia]. left. unfold handed_over in *. run_fields.
    exact (eq_trans Ah H). }
  destruct (Hostname_OnResolve_last result r H1 Hc) as (r2 & Hcore & ->).
  assert (H2 : handed_over r2 = handed_over r /\ pending_queries_ r2 = 0).
  { unfold same_core, core in Hcore. run_fields_in Hcore.
    inversion Hcore. unfold handed_over in *. split; [congruence|lia]. }
  destruct H2 as [Hh Hp].
  destruct (result_ (absorb result r));
    [destruct (status_ok (error_ (absorb result r)))|];
    (intros [H|[_ H]]; [|lia]); unfold once, handed_over in *; run_fields;
      first [ left; congruence
            | right; split; [|exact Hp];
              rewrite app_assoc, Hh, H; eexists; reflexivity ].
Qed.

Lemma start_rest_once (gs : GetSock) :
  preserves (keeps once)
            (sd <- gets shutting_down_ ;;
             when (negb sd) (Work gs ;; StartTimers) ;;
             Unref).
Proof.
  unfold Unref.
  preserve_with (keeps_refl once) (keeps_trans once)
                ltac:(apply once_core; reflexivity);
    apply (core_ends _ once_core);
    first [apply Work_core | apply StartTimers_core].
Qed.

(** X17. A hostname request hands its callback to the event engine at most
    once. From [Start] on a request that has handed over nothing, and
    through any events during which the stub completes lookups, however
    many and whenever, the closures handed over, run or waiting, are at
    most one. *)
Theorem hostname_callback_once (r0 : Request)
        (inline_aaaa inline_a : option (Z * hostent)) (gs : GetSock)
        (evs : list Event) :
  pending_queries_ r0 = 0 -> run_queue_ r0 = [] -> invoked_ r0 = [] ->
  forallb hostname_event evs = true ->
  match (Start (StartHostname inline_aaaa inline_a gs) ;; run_events evs) r0
  with
  | Ret _ r | Abort r => (List.length (handed_over r) <= 1)%nat
  | Fault => True
  end.
Proof.
  intros Hp Hq Hi Hevs.
  assert (Hlen : forall r, once r -> (List.length (handed_over r) <= 1)%nat).
  { intros r [->|[(c & ->) _]]; cbn; lia. }
  assert (Hlookup2 :
            forall inline qtype family,
              preserves (keeps once)
                (gethostbyname family qtype inline ;;
                 sd <- gets shutting_down_ ;;
                 when (negb sd) (Work gs ;; StartTimers) ;;
                 Unref)).
  { intros. apply (lookups_tail _ (keeps_refl once) (keeps_trans once)
                                once_core once_lookup).
    apply start_rest_once. }
  assert (Hstart : match Start (StartHostname inline_aaaa inline_a gs) r0 with
                   | Ret _ r | Abort r => once r
                   | Fault => True
                   end).
  { cbn [Start]. unfold GrpcAresHostnameRequest_Start. do 2 step.
    destruct (initialized_ r0); [|left; unfold handed_over; run_fields;
                                   rewrite Hq, Hi; reflexivity].
    do 2 step.
    set (s := set_on_resolve_ true (set_refs_ (refs_ r0 + 1) r0)).
    rewrite bind_unfold.
    destruct (ResolveAsIPLiteralLocked_spec s) as [E|(addr & _ & E)];
      rewrite E; clear E; subst s.
    - unfold hostname_lookups. step.
      destruct IsIpv6LoopbackAvailable; cbn [when].
      + step.
        match goal with
        | |- match ?m ?s with _ => _ end =>
          assert (H : match m s with
                      | Ret _ r | Abort r => keeps once s r
                      | Fault => True
                      end)
            by exact (lookups_tail _ (keeps_refl once) (keeps_trans once)
                        once_core once_lookup inline_aaaa "AAAA" AF_INET6 _
                        (Hlookup2 inline_a "A" AF_INET) s);
            destruct (m s) as [[] r|r|]; try exact I;
              apply H; left; unfold handed_over; run_fields;
                rewrite Hq, Hi; reflexivity
        end.
      + step.
        match goal with
        | |- match ?m ?s with _ => _ end =>
          assert (H : match m s with
                      | Ret _ r | Abort r => keeps once s r
                      | Fault => True
                      end)
            by exact (Hlookup2 inline_a "A" AF_INET s);
            destruct (m s) as [[] r|r|]; try exact I;
              apply H; left; unfold handed_over; run_fields;
                rewrite Hq, Hi; reflexivity
        end.
    - run_monad. right. unfold handed_over. run_fields.
      rewrite Hq, Hi. split; [eexists; reflexivity|exact Hp]. }
  pose proof (run_events_lookups _ (keeps_refl once) (keeps_trans once)
                once_core
                ltac:(intros r He; exact He) ltac:(intros r He; exact He)
                once_lookup once_engine evs Hevs) as Hrun.
  rewrite bind_unfold.
  destruct (Start (StartHostname inline_aaaa inline_a gs) r0) as [[] r1|r1|];
    [|apply Hlen, Hstart|exact I].
  specialize (Hrun r1).
  destruct (run_events evs r1) as [[] r|r|]; [| |exact I];
    apply Hlen, Hrun, Hstart.
Qed.

End CallbackOnce.

Lemma hostname_callback_once_witness :
  (List.length (handed_over hostname_delivered) <= 1)%nat.
Proof.
  assert (E : (Start (env := reference true)
                     (StartHostname None None one_sock) ;;
               run_events (env := reference true) [one_answer; EvEngineRuns])
                hostname_request
              = Ret tt hostname_delivered) by (vm_compute; reflexivity).
  pose proof (hostname_callback_once (env := reference true) hostname_request
                None None one_sock [one_answer; EvEngineRuns]
                ltac:(vm_compute; reflexivity) ltac:(vm_compute; reflexivity)
                ltac:(vm_compute; reflexivity) ltac:(vm_compute; reflexivity))
    as H.
  rewrite E in H. exact H.
Defined.

(** ** Arming the timers *)

Lemma same_timers_refl (r : Request) : same_timers r r.
Proof. unfold same_timers. auto. Qed.

Lemma same_timers_trans (a b c : Request) :
  same_timers a b -> same_timers b c -> same_timers a c.
Proof. unfold same_timers. intros (A1 & A2 & A3) (B1 & B2 & B3). repeat split; congruence. Qed.

Lemma unarmed_refl (r : Request) : unarmed r r.
Proof. unfold unarmed. auto. Qed.

Lemma unarmed_trans (a b c : Request) :
  unarmed a b -> unarmed b c -> unarmed a c.
Proof. unfold unarmed. intros (A1 & A2 & A3) (B1 & B2 & B3). auto. Qed.

Ltac same_timers_leaf := unfold same_timers; run_fields; auto.
Ltac unarmed_leaf := unfold unarmed; run_fields; auto.

Ltac frame_timers :=
  preserve_with same_timers_refl same_timers_trans same_timers_leaf.
Ltac frame_unarmed :=
  preserve_with unarmed_refl unarmed_trans unarmed_leaf.

Section ArmingTimers.

Context {env : Collaborators}.

Lemma work_slots_timers (gs : GetSock) (slots : list nat) :
  forall new_list, returns same_timers (work_slots gs new_list slots).
Proof.
  induction slots as [|i slots IH]; intros new_list; cbn [work_slots];
    frame_timers; [|apply IH].
  unfold work_slot, emit, Ref, fresh. frame_timers.
Qed.

Lemma work_remaining_timers (l : list FdNode) :
  forall new_list, returns same_timers (work_remaining l new_list).
Proof.
  induction l as [|n l IH]; intros new_list; cbn [work_remaining];
    unfold shutdown_node, emit; frame_timers; apply IH.
Qed.

Lemma Work_timers (gs : GetSock) : returns same_timers (Work gs).
Proof.
  unfold Work, emit. frame_timers;
    first [apply work_slots_timers | apply work_remaining_timers].
Qed.

Lemma CancelTimers_unarmed : preserves unarmed CancelTimers.
Proof.
  intros r. rewrite CancelTimers_spec. unfold unarmed. run_fields. auto.
Qed.

Lemma deliver_unarmed (c : Completion) : preserves unarmed (deliver c).
Proof.
  destruct c; cbn [deliver].
  - unfold OnHostbynameDoneLocked, GrpcAresHostnameRequest_OnResolve,
      SortResolvedAddresses, Run, Unref.
    frame_unarmed; try apply CancelTimers_unarmed; discriminate.
  - unfold OnSRVQueryDoneLocked, GrpcAresSRVRequest_OnResolve, Run, Unref.
    frame_unarmed; try apply CancelTimers_unarmed; discriminate.
  - unfold OnTXTDoneLocked, GrpcAresTXTRequest_OnResolve, Run, Unref.
    frame_unarmed; try apply CancelTimers_unarmed; discriminate.
Qed.

Lemma deliver_inline_unarmed (c : option Completion) :
  preserves unarmed (deliver_inline c).
Proof.
  destruct c; [apply deliver_unarmed|apply (ends_ret _ _ unarmed_refl)].
Qed.



Lemma unarmed_bind_inv {A B} (m : M A) (k : A -> M B) (r r' : Request)
      (b : B) :
  preserves unarmed m ->
  query_timeout_handle_ r = None /\ ares_backup_poll_alarm_handle_ r = None ->
  bind m k r = Ret b r' ->
  exists a r1,
    (query_timeout_handle_ r1 = None /\
     ares_backup_poll_alarm_handle_ r1 = None) /\
    k a r1 = Ret b r'.
Proof.
  intros Hm [Hq Hb] H. apply bind_ret_inv in H.
  destruct H as (a & r1 & E1 & H). specialize (Hm r). rewrite E1 in Hm.
  destruct Hm as (U1 & U2 & _). exists a, r1. auto.
Qed.

(** The end of the three [Start] methods, entered with no timer armed:
    the timers are armed exactly when the queries just issued have not
    completed the request. *)
Lemma start_tail_timers (gs : GetSock) (r r' : Request) :
  query_timeout_handle_ r = None /\ ares_backup_poll_alarm_handle_ r = None ->
  (sd <- gets shutting_down_ ;;
   when (negb sd) (Work gs ;; StartTimers) ;; Unref) r = Ret tt r' ->
  if shutting_down_ r' then
    query_timeout_handle_ r' = None /\ ares_backup_poll_alarm_handle_ r' = None
  else
    query_timeout_handle_ r' <> None /\
    ares_backup_poll_alarm_handle_ r' <> None.
Proof.
  intros [U1 U2]. step.
  destruct (shutting_down_ r) eqn:Hsd; cbn [negb when].
  - run_monad. intros H. injection H as <-. run_fields. rewrite Hsd. auto.
  - destruct (Work_timers gs r) as ([] & r2 & E2 & T1 & T2 & T3).
    rewrite bind_assoc, bind_unfold, E2, bind_unfold, StartTimers_spec.
    run_monad. intros H. injection H as <-. run_fields.
    rewrite T3, Hsd. split; discriminate.
Qed.

Lemma gethostbyname_unarmed (family : Z) (qtype : string)
      (inline : option (Z * hostent)) :
  preserves unarmed (gethostbyname family qtype inline).
Proof.
  unfold gethostbyname, emit. frame_unarmed. apply deliver_inline_unarmed.
Qed.

(** X18. [Start] and the timers. On the path of [Start] that asks the stub,
    entered with no timer armed: when [Start] returns with the request
    not shutting down, both the query timeout and the backup poll alarm
    are armed; when the queries completed inside the stub calls, so that
    the request is shutting down already, no timer is left armed. *)
Theorem start_arms_timers (s : StartCall) (r r' : Request) :
  query_timeout_handle_ r = None ->
  ares_backup_poll_alarm_handle_ r = None ->
  asks_stub s r ->
  Start s r = Ret tt r' ->
  if shutting_down_ r' then
    query_timeout_handle_ r' = None /\ ares_backup_poll_alarm_handle_ r' = None
  else
    query_timeout_handle_ r' <> None /\
    ares_backup_poll_alarm_handle_ r' <> None.
Proof.
  intros Hq Hb Hask H.
  assert (U : forall f : Request -> Request,
             (forall x, unarmed x (f x)) -> preserves unarmed (modify f))
    by (intros f Hf x; apply Hf).
  destruct s as [ia i4 gs|i gs|i gs]; cbn [Start asks_stub] in *.
  - destruct Hask as [H4 H6].
    unfold GrpcAresHostnameRequest_Start in H. revert H. do 2 step.
    destruct (initialized_ r); [|discriminate]. do 2 step.
    rewrite bind_unfold,
      (ResolveAsIPLiteralLocked_not_literal
         (set_on_resolve_ true (set_refs_ (refs_ r + 1) r)) H4 H6).
    unfold hostname_lookups. intros H.
    apply unarmed_bind_inv in H;
      [|apply U; intros x; unarmed_leaf|split; [exact Hq|exact Hb]].
    destruct H as (_ & r1 & U1 & H).
    apply unarmed_bind_inv in H; [| |exact U1].
    2:{ destruct IsIpv6LoopbackAvailable; cbn [when];
          [|apply (ends_ret _ _ unarmed_refl)].
        apply (ends_bind _ _ unarmed_trans);
          [apply U; intros x; unarmed_leaf|intros _].
        apply gethostbyname_unarmed. }
    destruct H as (_ & r2 & U2 & H).
    apply unarmed_bind_inv in H; [|apply gethostbyname_unarmed|exact U2].
    destruct H as (_ & r3 & U3 & H).
    exact (start_tail_timers gs r3 r' U3 H).
  - unfold GrpcAresSRVRequest_Start in H. revert H. do 2 step.
    destruct (initialized_ r); [|discriminate]. do 2 step.
    apply Z.eqb_neq in Hask. rewrite Hask. unfold srv_query. do 2 step.
    intros H.
    apply unarmed_bind_inv in H;
      [|unfold emit; apply U; intros x; unarmed_leaf
       |split; [exact Hq|exact Hb]].
    destruct H as (_ & r1 & U1 & H).
    apply unarmed_bind_inv in H; [|apply deliver_inline_unarmed|exact U1].
    destruct H as (_ & r2 & U2 & H).
    exact (start_tail_timers gs r2 r' U2 H).
  - unfold GrpcAresTXTRequest_Start in H. revert H. do 2 step.
    destruct (initialized_ r); [|discriminate]. do 2 step.
    apply Z.eqb_neq in Hask. rewrite Hask. unfold txt_query. do 2 step.
    intros H.
    apply unarmed_bind_inv in H;
      [|unfold emit; apply U; intros x; unarmed_leaf
       |split; [exact Hq|exact Hb]].
    destruct H as (_ & r1 & U1 & H).
    apply unarmed_bind_inv in H; [|apply deliver_inline_unarmed|exact U1].
    destruct H as (_ & r2 & U2 & H).
    exact (start_tail_timers gs r2 r' U2 H).
Qed.


End ArmingTimers.

Lemma start_arms_timers_witness :
  query_timeout_handle_ started_request <> None /\
  ares_backup_poll_alarm_handle_ started_request <> None.
Proof.
  pose proof (start_arms_timers (env := reference true)
                (StartHostname None None one_sock) hostname_request
                started_request
                ltac:(vm_compute; reflexivity) ltac:(vm_compute; reflexivity)
                ltac:(split; vm_compute; reflexivity)
                ltac:(vm_compute; reflexivity)) as H.
  assert (E : shutting_down_ started_request = false)
    by (vm_compute; reflexivity).
  rewrite E in H. exact H.
Defined.


(** ** The queries of the SRV and TXT requests *)

Section OtherQueries.

Context {env : Collaborators}.

Lemma start_rest_query (inline : option Completion) (gs : GetSock) :
  preserves no_new_query
            (deliver_inline inline ;;
             sd <- gets shutting_down_ ;;
             when (negb sd) (Work gs ;; StartTimers) ;;
             Unref).
Proof.
  unfold Unref. frame_query;
    first [ apply (returns_ends _ _ _ (Work_query gs))
          | apply (returns_ends _ _ _ StartTimers_query)
          | idtac ].
  destruct inline; [apply deliver_query|apply (ends_ret _ _ no_new_query_refl)].
Qed.

(** X20. [Start] of an SRV or TXT request whose host is not localhost issues
    one query and no other: [ares_query] for the name [_grpclb._tcp.]
    followed by the host, or [ares_search] for [_grpc_config.] followed
    by the host, as the stub reads the name, up to its first NUL. *)
Theorem srv_txt_start_queries (r : Request) (gs : GetSock) :
  initialized_ r = true ->
  gpr_stricmp (c_str (host_ r)) "localhost" <> 0 ->
  (forall inline,
      match GrpcAresSRVRequest_Start inline gs r with
      | Ret _ r' | Abort r' =>
        exists added,
          trace_ r' = trace_ r ++ added /\
          filter is_query added
          = [ares_query (c_str ("_grpclb._tcp." ++ host_ r)%string)]
      | Fault => True
      end) /\
  (forall inline,
      match GrpcAresTXTRequest_Start inline gs r with
      | Ret _ r' | Abort r' =>
        exists added,
          trace_ r' = trace_ r ++ added /\
          filter is_query added
          = [ares_search (c_str ("_grpc_config." ++ host_ r)%string)]
      | Fault => True
      end).
Proof.
  intros Hi Hl. apply Z.eqb_neq in Hl. split; intros inline.
  - unfold GrpcAresSRVRequest_Start. do 2 step. rewrite Hi. do 2 step.
    rewrite Hl. unfold srv_query. do 3 step.
    match goal with
    | |- match ?m ?s with _ => _ end =>
      assert (H : match m s with
                  | Ret _ r' | Abort r' => no_new_query s r'
                  | Fault => True
                  end)
        by exact (start_rest_query
                    (option_map
                       (fun c => SRVQueryDone (fst (fst c)) (snd (fst c))
                                              (snd c)) inline) gs s);
        destruct (m s) as [[] r'|r'|]; try exact I
    end;
      destruct H as (added & Ht & Hf); run_fields_in Ht;
        eexists; (split; [rewrite Ht, <- app_assoc; reflexivity|]);
          cbn [app filter is_query]; rewrite Hf; reflexivity.
  - unfold GrpcAresTXTRequest_Start. do 2 step. rewrite Hi. do 2 step.
    rewrite Hl. unfold txt_query. do 3 step.
    match goal with
    | |- match ?m ?s with _ => _ end =>
      assert (H : match m s with
                  | Ret _ r' | Abort r' => no_new_query s r'
                  | Fault => True
                  end)
        by exact (start_rest_query
                    (option_map
                       (fun c => TXTDone (fst (fst c)) (snd (fst c)) (snd c))
                       inline) gs s);
        destruct (m s) as [[] r'|r'|]; try exact I
    end;
      destruct H as (added & Ht & Hf); run_fields_in Ht;
        eexists; (split; [rewrite Ht, <- app_assoc; reflexivity|]);
          cbn [app filter is_query]; rewrite Hf; reflexivity.
Qed.

Lemma emit_then_query (c : Call) (m : M unit) (s : Request) :
  preserves no_new_query m ->
  match (emit c ;; m) s with
  | Ret _ r' | Abort r' => exists added, trace_ r' = trace_ s ++ c :: added
  | Fault => True
  end.
Proof.
  intros Hm. step.
  match goal with
  | |- match m ?s1 with _ => _ end =>
    specialize (Hm s1); destruct (m s1) as [[] r'|r'|]; try exact I
  end;
    destruct Hm as (added & Ht & _); run_fields_in Ht;
      exists added; rewrite Ht, <- app_assoc; reflexivity.
Qed.

(** X21. The readiness closures and the stub. [OnReadable] and [OnWritable]
    let the stub process the socket only when the status they are called
    with is ok and the request is not shutting down. Called with an
    error, or on a request that is shutting down, the first thing they
    ask of the stub is [ares_cancel], which completes every query of the
    request. *)
Theorem readiness_error_cancels (id : nat) (status : Status)
        (first : list Completion) (rounds : list (list Completion))
        (gs : GetSock) (r : Request) (n : FdNode) :
  find_node id (fd_node_list_ r) = Some n ->
  (readable_registered n = true ->
   match OnReadable id status first rounds gs r with
   | Ret _ r' | Abort r' =>
     exists added,
       trace_ r' = trace_ r ++
                   (if status_ok status && negb (shutting_down_ r)
                    then ares_process_fd (as_ n) ARES_SOCKET_BAD
                    else ares_cancel) :: added
   | Fault => True
   end) /\
  (writable_registered n = true ->
   match OnWritable id status first gs r with
   | Ret _ r' | Abort r' =>
     exists added,
       trace_ r' = trace_ r ++
                   (if status_ok status && negb (shutting_down_ r)
                    then ares_process_fd ARES_SOCKET_BAD (as_ n)
                    else ares_cancel) :: added
   | Fault => True
   end).
Proof.
  intros Hn.
  assert (Hrest : forall m : M unit,
             preserves no_new_query m ->
             preserves no_new_query (m ;; Work gs ;; Unref)).
  { intros m Hm. unfold Unref. frame_query;
      first [exact Hm | apply (returns_ends _ _ _ (Work_query gs))]. }
  split; intros Hr.
  - unfold OnReadable, captured_node. step. rewrite Hn.
    step. rewrite Hr. do 3 step.
    destruct (status_ok status && negb (shutting_down_ r)).
    + destruct rounds as [|next rounds].
      * refine (emit_then_query _ ((deliver_all first ;; ret tt) ;;
                                   Work gs ;; Unref) _ _).
        apply Hrest. frame_query. apply deliver_all_query.
      * refine (emit_then_query _ ((deliver_all first ;;
                                    process_readable (as_ n) next rounds) ;;
                                   Work gs ;; Unref) _ _).
        apply Hrest. frame_query;
          first [apply deliver_all_query | apply process_readable_query].
    + refine (emit_then_query _ (deliver_all (first ++ List.concat rounds) ;;
                                 Work gs ;; Unref) _ _).
      apply Hrest, deliver_all_query.
  - unfold OnWritable, captured_node. step. rewrite Hn.
    step. rewrite Hr. do 3 step.
    destruct (status_ok status && negb (shutting_down_ r));
      refine (emit_then_query _ (deliver_all first ;; Work gs ;; Unref) _ _);
      apply Hrest, deliver_all_query.
Qed.

End OtherQueries.

Lemma srv_txt_start_queries_witness :
  match GrpcAresSRVRequest_Start (env := reference true) None one_sock
                                 (created true false "example.test" "") with
  | Ret _ r' | Abort r' =>
    exists added,
      trace_ r' = trace_ (created true false "example.test" "") ++ added /\
      filter is_query added = [ares_query "_grpclb._tcp.example.test"]
  | Fault => True
  end.
Proof.
  exact (proj1 (srv_txt_start_queries (env := reference true)
                  (created true false "example.test" "") one_sock
                  ltac:(vm_compute; reflexivity)
                  ltac:(vm_compute; discriminate)) None).
Defined.

Lemma readiness_error_cancels_witness :
  match OnReadable (env := reference true) 0
                   (StatusCreate kDeadlineExceeded "OnQueryTimeout" []) [] []
                   no_socks started_request with
  | Ret _ r' | Abort r' =>
    exists added, trace_ r' = trace_ started_request ++ ares_cancel :: added
  | Fault => True
  end.
Proof.
  exact (proj1 (readiness_error_cancels (env := reference true) 0
                  (StatusCreate kDeadlineExceeded "OnQueryTimeout" []) [] []
                  no_socks started_request (MkFdNode 0 7 true false false)
                  ltac:(vm_compute; reflexivity)) ltac:(reflexivity)).
Defined.

(** ** The marks of a request *)

Section Marks.

Context {env : Collaborators}.

Lemma marks_kept_refl (r : Request) : marks_kept r r.
Proof. unfold marks_kept. auto. Qed.

Lemma marks_kept_trans (a b c : Request) :
  marks_kept a b -> marks_kept b c -> marks_kept a c.
Proof.
  unfold marks_kept. intros [A1 A2] [B1 B2]. split; [congruence|auto].
Qed.

Lemma marks_kept_core (r r' : Request) : same_core r r' -> marks_kept r r'.
Proof.
  intros H. destruct (same_core_fields _ _ H) as (Hs & Hc & _).
  unfold marks_kept. rewrite Hs, Hc. auto.
Qed.

Ltac marks_leaf := unfold marks_kept; run_fields; auto.

Lemma deliver_marks (c : Completion) : preserves marks_kept (deliver c).
Proof.
  destruct c; cbn [deliver].
  - unfold OnHostbynameDoneLocked, GrpcAresHostnameRequest_OnResolve,
      SortResolvedAddresses, Run, Unref.
    preserve_with marks_kept_refl marks_kept_trans marks_leaf;
      apply (core_ends _ marks_kept_core), CancelTimers_core.
  - unfold OnSRVQueryDoneLocked, GrpcAresSRVRequest_OnResolve, Run, Unref.
    preserve_with marks_kept_refl marks_kept_trans marks_leaf;
      apply (core_ends _ marks_kept_core), CancelTimers_core.
  - unfold OnTXTDoneLocked, GrpcAresTXTRequest_OnResolve, Run, Unref.
    preserve_with marks_kept_refl marks_kept_trans marks_leaf;
      apply (core_ends _ marks_kept_core), CancelTimers_core.
Qed.

Lemma marks_stay_refl (r : Request) : marks_stay r r.
Proof. unfold marks_stay. auto. Qed.

Lemma marks_stay_trans (a b c : Request) :
  marks_stay a b -> marks_stay b c -> marks_stay a c.
Proof.
  unfold marks_stay. intros (A1 & A2 & A3) (B1 & B2 & B3). auto.
Qed.

Lemma marks_kept_stay (r r' : Request) : marks_kept r r' -> marks_stay r r'.
Proof.
  unfold marks_kept, marks_stay. intros [Hc Hs]. rewrite Hc. auto.
Qed.

Lemma step_marks (e : Event) : preserves marks_stay (step e).
Proof.
  assert (Hsd : forall r, marks_kept r (set_shutting_down_ true r))
    by (intros r; marks_leaf).
  assert (Hweak : forall (m : M unit),
             preserves marks_kept m -> preserves marks_stay (on_object m)).
  { intros m Hm r. unfold on_object. destruct (0 <? refs_ r); [|exact I].
    specialize (Hm r). destruct (m r); try exact I;
      apply marks_kept_stay, Hm. }
  destruct e; cbn [step].
  - intros r. unfold on_object. destruct (0 <? refs_ r); [|exact I].
    rewrite bind_unfold. destruct (Cancel_spec r) as [Ht Hf].
    destruct (shutting_down_ r) eqn:Hs.
    + rewrite (Ht eq_refl). cbn [ret]. unfold marks_stay. run_fields. auto.
    + destruct (Hf eq_refl) as (r2 & -> & Hcore).
      destruct (same_core_fields _ _ Hcore) as (Hs2 & Hc2 & _).
      run_fields_in Hs2. run_fields_in Hc2.
      unfold marks_stay. cbn [ret]. rewrite Hs2, Hc2. auto.
  - apply Hweak.
    eapply OnReadable_ends;
      eauto using marks_kept_refl, marks_kept_trans, marks_kept_core,
        deliver_marks.
  - apply Hweak.
    eapply OnWritable_ends;
      eauto using marks_kept_refl, marks_kept_trans, marks_kept_core,
        deliver_marks.
  - apply Hweak.
    eapply OnQueryTimeout_ends;
      eauto using marks_kept_refl, marks_kept_trans, marks_kept_core.
  - apply Hweak.
    eapply OnAresBackupPollAlarm_ends;
      eauto using marks_kept_refl, marks_kept_trans, marks_kept_core,
        deliver_marks.
  - intros r. rewrite engine_runs_spec.
    destruct (run_queue_ r); unfold marks_stay; run_fields; auto.
Qed.

(** X22. The marks of a request are never taken back. Through any
    events, a request that is shutting down stays so and a cancelled
    request stays cancelled; and if a request is cancelled only when it
    is also shutting down, as a new request is, this stays true: only
    [Cancel] marks a request cancelled, after it has marked it shutting
    down. *)
Theorem marks_are_kept (evs : list Event) (r : Request) :
  match run_events evs r with
  | Ret _ r' | Abort r' =>
    (shutting_down_ r = true -> shutting_down_ r' = true) /\
    (cancelled_ r = true -> cancelled_ r' = true) /\
    ((cancelled_ r = true -> shutting_down_ r = true) ->
     cancelled_ r' = true -> shutting_down_ r' = true)
  | Fault => True
  end.
Proof.
  apply (ends_for_each _ _ marks_stay_refl marks_stay_trans).
  apply step_marks.
Qed.

End Marks.

(** ** The life of the channel *)

Section Channel.

Context {env : Collaborators}.

Lemma Unref_last_held (r : Request) :
  1 < refs_ r -> Unref_last r = Unref r.
Proof.
  intros H. unfold Unref_last, Unref. run_monad. run_fields.
  destruct (refs_ r - 1 =? 0) eqn:E; [|reflexivity].
  apply Z.eqb_eq in E. lia.
Qed.


End Channel.

